(** * emojicopy: the SEO page pipeline of [server/routes.ts]

    A shallow embedding of the route handlers of [server/routes.ts]
    (the slug normalisation, the content template, the generate and
    generate-batch routes, the copy route and the seed routine) over an
    explicit storage interface, with the properties of the specification
    stated and proved about them.

    Modelling choices:
    - JavaScript strings are [string], a sequence of 8-bit characters;
      text outside the ASCII range is held as the bytes of its UTF-8
      encoding.  Case mapping is modelled on the ASCII range, which is
      the range the regular expressions of the source look at.
    - A handler is a computation in a state and exception monad over
      the store; every [storage] call it makes is appended to a log, so
      that "no lookup" and "no write" can be stated.
    - [server/storage.ts] and [server/seed-emojis.ts] are outside this
      development: the handlers take the storage as a parameter, and an
      in-memory store written from the specification instantiates it.
    - [req.body.keyword] is absent or a string, [req.params.id] is the
      number [Number] makes of it; console output is not modelled. *)

From Stdlib Require Import String Ascii List ZArith NArith Bool Lia.
From Equations Require Import Equations.
Import ListNotations.

Local Open Scope string_scope.

(** ** JavaScript string primitives used by the source *)

Module Js.

Definition inRange (lo hi : N) (c : ascii) : bool :=
  (lo <=? N_of_ascii c)%N && (N_of_ascii c <=? hi)%N.

Definition isUpperAZ (c : ascii) : bool := inRange 65 90 c.
Definition isLowerAZ (c : ascii) : bool := inRange 97 122 c.
Definition isDigit (c : ascii) : bool := inRange 48 57 c.

(** The character class [[a-z0-9]]. *)
Definition isAlnum (c : ascii) : bool := isLowerAZ c || isDigit c.

Definition lowerChar (c : ascii) : ascii :=
  if isUpperAZ c then ascii_of_N (N_of_ascii c + 32) else c.

Definition upperChar (c : ascii) : ascii :=
  if isLowerAZ c then ascii_of_N (N_of_ascii c - 32) else c.

(** [s.toLowerCase()] *)
Fixpoint toLowerCase (s : string) : string :=
  match s with
  | EmptyString => EmptyString
  | String c r => String (lowerChar c) (toLowerCase r)
  end.

(** [s.toUpperCase()] *)
Fixpoint toUpperCase (s : string) : string :=
  match s with
  | EmptyString => EmptyString
  | String c r => String (upperChar c) (toUpperCase r)
  end.

(** [s.charAt(0)]: the first character, or the empty string. *)
Definition charAt0 (s : string) : string :=
  match s with
  | EmptyString => EmptyString
  | String c _ => String c EmptyString
  end.

(** [s.slice(1)] *)
Definition slice1 (s : string) : string :=
  match s with
  | EmptyString => EmptyString
  | String _ r => r
  end.

Definition dash : ascii := "-"%char.

(** [s.replace(/[^a-z0-9]+/g, '-')]: every maximal run of characters
    outside [[a-z0-9]] becomes one dash.  [inRun] tells that the run
    the scan is in has already produced its dash. *)
Fixpoint replaceNonAlnumRuns (inRun : bool) (s : string) : string :=
  match s with
  | EmptyString => EmptyString
  | String c r =>
      if isAlnum c then String c (replaceNonAlnumRuns false r)
      else if inRun then replaceNonAlnumRuns true r
      else String dash (replaceNonAlnumRuns true r)
  end.

(** The [^-] alternative of [/^-|-$/g]: a dash at position 0. *)
Definition dropLeadingDash (s : string) : string :=
  match s with
  | String c r => if Ascii.eqb c dash then r else s
  | EmptyString => EmptyString
  end.

(** The [-$] alternative: a dash at the last position. *)
Fixpoint dropTrailingDash (s : string) : string :=
  match s with
  | EmptyString => EmptyString
  | String c EmptyString => if Ascii.eqb c dash then EmptyString else s
  | String c r => String c (dropTrailingDash r)
  end.

(** [s.replace(/^-|-$/g, '')]: the scan is left to right, so the
    leading dash is consumed first and the trailing alternative only
    sees what is left. *)
Definition stripEdgeDashes (s : string) : string :=
  dropTrailingDash (dropLeadingDash s).

(** [s.startsWith(p)] *)
Fixpoint startsWith (p s : string) : bool :=
  match p, s with
  | EmptyString, _ => true
  | String a p', String b s' => Ascii.eqb a b && startsWith p' s'
  | String _ _, EmptyString => false
  end.

Fixpoint dropChars (n : nat) (s : string) : string :=
  match n, s with
  | O, _ => s
  | S n', String _ r => dropChars n' r
  | S _, EmptyString => EmptyString
  end.

(** [s.replace(p, '')] with a string pattern: only the first
    occurrence of [p], wherever it is, is removed. *)
Fixpoint removeFirst (p s : string) : string :=
  if startsWith p s then dropChars (String.length p) s
  else match s with
       | EmptyString => EmptyString
       | String c r => String c (removeFirst p r)
       end.

(** [s.split(' ')]: always at least one piece. *)
Fixpoint splitOn (sep : ascii) (s : string) : list string :=
  match s with
  | EmptyString => [EmptyString]
  | String c r =>
      if Ascii.eqb c sep then EmptyString :: splitOn sep r
      else match splitOn sep r with
           | w :: ws => String c w :: ws
           | [] => [String c EmptyString]
           end
  end.

(** [pieces.join(sep)] *)
Fixpoint join (sep : string) (pieces : list string) : string :=
  match pieces with
  | [] => EmptyString
  | [w] => w
  | w :: ws => w ++ sep ++ join sep ws
  end.

End Js.

(** ** Slug normalisation *)

(** [keyword.toLowerCase().replace(/[^a-z0-9]+/g, '-').replace(/^-|-$/g, '')],
    the expression of routes.ts lines 75 and 97. *)
Definition slugify (keyword : string) : string :=
  Js.stripEdgeDashes (Js.replaceNonAlnumRuns false (Js.toLowerCase keyword)).

(** The title-casing expression of lines 98 and 145:
    [keyword.split(' ').map(w => w.charAt(0).toUpperCase() + w.slice(1)).join(' ')]. *)
Definition capitalize (w : string) : string :=
  Js.toUpperCase (Js.charAt0 w) ++ Js.slice1 w.

Definition titleCase (keyword : string) : string :=
  Js.join " " (map capitalize (Js.splitOn " "%char keyword)).

(** [keyword.replace(' emoji', '')] *)
Definition cleanKeyword (keyword : string) : string :=
  Js.removeFirst " emoji" keyword.


(** ** The shape of a slug *)

Definition startsWithDash (s : string) : bool :=
  match s with
  | String c _ => Ascii.eqb c Js.dash
  | EmptyString => false
  end.

Definition startsWithAlnum (s : string) : bool :=
  match s with
  | String c _ => Js.isAlnum c
  | EmptyString => false
  end.

(** Characters of [[a-z0-9]] and dashes only, no two dashes in a row. *)
Fixpoint dashesSingle (s : string) : bool :=
  match s with
  | EmptyString => true
  | String c r =>
      if Js.isAlnum c then dashesSingle r
      else Ascii.eqb c Js.dash && negb (startsWithDash r) && dashesSingle r
  end.

(** Characters of [[a-z0-9]] and dashes only, every dash followed by a
    character of [[a-z0-9]]. *)
Fixpoint dashesInside (s : string) : bool :=
  match s with
  | EmptyString => true
  | String c r =>
      if Js.isAlnum c then dashesInside r
      else Ascii.eqb c Js.dash && startsWithAlnum r && dashesInside r
  end.

(** A normalised slug: words of [[a-z0-9]] separated by single dashes. *)
Definition isSlug (s : string) : bool :=
  negb (startsWithDash s) && dashesInside s.

(** ** Data model *)

(** A row of the emoji table. *)
Module Emoji.
Record t : Type := mk {
  id : Z;
  emoji : string;
  name : string;
  slug : string;
  category : string;
  subcategory : option string;
  description : option string;
  keywords : list string;
  copyCount : Z
}.
End Emoji.

(** An entry of [EMOJI_DATA]: an emoji before the store gives it an id
    and a copy counter. *)
Module InsertEmoji.
Record t : Type := mk {
  emoji : string;
  name : string;
  slug : string;
  category : string;
  subcategory : option string;
  description : option string;
  keywords : list string
}.
End InsertEmoji.

(** A row of the SEO page table. *)
Module SeoPage.
Record t : Type := mk {
  id : Z;
  slug : string;
  keyword : string;
  title : string;
  metaDescription : string;
  content : option string;
  relatedEmojis : option (list string);
  isGenerated : bool
}.
End SeoPage.

(** The argument of [storage.createPage]. *)
Module InsertSeoPage.
Record t : Type := mk {
  slug : string;
  title : string;
  keyword : string;
  metaDescription : string;
  content : option string;
  relatedEmojis : option (list string);
  isGenerated : bool
}.
End InsertSeoPage.

(** The argument of [storage.updatePage]: the fields to overwrite. *)
Module PageUpdate.
Record t : Type := mk {
  title : option string;
  metaDescription : option string;
  content : option string;
  relatedEmojis : option (list string);
  isGenerated : option bool
}.
End PageUpdate.

(** ** The content template *)

Definition nl : string := String (ascii_of_N 10) EmptyString.
Definition blank : string := EmptyString.

(** [relatedEmojis.slice(0, n)] *)
Definition slice0 {A : Type} (n : nat) (l : list A) : list A := firstn n l.

(** [e.description || fallback]: an absent or empty description is falsy. *)
Definition descriptionOr (d : option string) (fallback : string) : string :=
  match d with
  | Some (String c r) => String c r
  | Some EmptyString => fallback
  | None => fallback
  end.

(** The pieces of [relatedEmojis.slice(0, 10).map(e => `${e.emoji} ${e.name}`)]. *)
Definition sampleItems (relatedEmojis : list Emoji.t) : list string :=
  map (fun e => Emoji.emoji e ++ " " ++ Emoji.name e) (slice0 10 relatedEmojis).

Definition emojiSamples (relatedEmojis : list Emoji.t) : string :=
  Js.join ", " (sampleItems relatedEmojis).

(** The bullet lines of the Popular section (line 155). *)
Definition popularItems (keyword : string) (relatedEmojis : list Emoji.t) : list string :=
  map (fun e =>
         "- " ++ Emoji.emoji e ++ " **" ++ Emoji.name e ++ "** - " ++
         descriptionOr (Emoji.description e)
           ("A popular emoji for expressing " ++ cleanKeyword keyword))
      (slice0 10 relatedEmojis).

Definition popularList (keyword : string) (relatedEmojis : list Emoji.t) : string :=
  Js.join nl (popularItems keyword relatedEmojis).

(** [relatedEmojis.length > 0 ? `Related emojis include ${emojiSamples}.` : ''] *)
Definition relatedNote (relatedEmojis : list Emoji.t) : string :=
  if (0 <? length relatedEmojis)%nat
  then "Related emojis include " ++ emojiSamples relatedEmojis ++ "."
  else EmptyString.

(** [generateSeoContent] of server/routes.ts (lines 144-182). *)
Definition generateSeoContent (keyword : string) (relatedEmojis : list Emoji.t) : string :=
  let title := titleCase keyword in
  let clean := cleanKeyword keyword in
  Js.join nl
    [ "# " ++ title ++ " - Copy & Paste";
      blank;
      "Looking for the perfect **" ++ keyword ++ "** to use in your messages? You've come to the right place! Simply click any emoji below to copy it to your clipboard instantly.";
      blank;
      "## Popular " ++ title ++ "s";
      blank;
      popularList keyword relatedEmojis;
      blank;
      "## How to Use " ++ title;
      blank;
      "Using " ++ keyword ++ "s is easy! Just click on any emoji above and it will be copied to your clipboard. Then paste it anywhere - in text messages, social media posts, emails, or documents.";
      blank;
      "### Where to Use " ++ title;
      blank;
      "- **Text Messages**: Add expression to your iMessage, WhatsApp, or Telegram chats";
      "- **Social Media**: Make your Instagram, Twitter/X, Facebook, and TikTok posts stand out";
      "- **Email**: Add a personal touch to casual emails";
      "- **Documents**: Use in Google Docs, Microsoft Word, and other editors";
      blank;
      "## About " ++ title;
      blank;
      "The " ++ keyword ++ " is one of the most popular emojis used in digital communication. It helps convey emotions and add personality to text-based conversations. " ++ relatedNote relatedEmojis;
      blank;
      "## Frequently Asked Questions";
      blank;
      "### How do I copy the " ++ keyword ++ "?";
      "Simply click on the emoji and it will be automatically copied to your clipboard. Then use Ctrl+V (or Cmd+V on Mac) to paste it anywhere.";
      blank;
      "### Can I use the " ++ keyword ++ " on any device?";
      "Yes! Emojis are universal and work on all modern devices including iPhone, Android, Windows, and Mac computers.";
      blank;
      "### What does the " ++ keyword ++ " mean?";
      "The " ++ keyword ++ " is commonly used to express feelings related to " ++ clean ++ ". Its meaning can vary slightly depending on context and culture." ].

(** [generateSeoContent] of the longer revision of routes.ts (lines 144-208
    of the second copy of the file): the same interpolations, with the
    per-device instructions and two more questions. *)
Definition generateSeoContent_part_000 (keyword : string) (relatedEmojis : list Emoji.t) : string :=
  let title := titleCase keyword in
  let clean := cleanKeyword keyword in
  Js.join nl
    [ "# " ++ title ++ " - Copy & Paste";
      blank;
      "Looking for the perfect **" ++ keyword ++ "** to use in your messages? You've come to the right place! Simply click any emoji below to copy it to your clipboard instantly.";
      blank;
      "## Popular " ++ title ++ "s";
      blank;
      popularList keyword relatedEmojis;
      blank;
      "## How to Use " ++ title;
      blank;
      "Using " ++ keyword ++ "s is easy! Just click on any emoji above and it will be copied to your clipboard. Then paste it anywhere - in text messages, social media posts, emails, or documents.";
      blank;
      "### How to Use " ++ title ++ " on iPhone";
      blank;
      "1. Visit this page on your iPhone's Safari or Chrome browser";
      "2. Tap the " ++ keyword ++ " you want to copy";
      "3. The emoji is now copied to your clipboard";
      "4. Open any app like iMessage, WhatsApp, Instagram, or Notes";
      "5. Tap and hold the text field and select **Paste**";
      "6. You can also access emojis through your iPhone keyboard by tapping the smiley face icon";
      blank;
      "### How to Use " ++ title ++ " on Android";
      blank;
      "1. Open this page in Chrome or any browser on your Android phone";
      "2. Tap the " ++ keyword ++ " you want to use";
      "3. It will be copied to your clipboard automatically";
      "4. Switch to any app like Messages, WhatsApp, Telegram, or Facebook";
      "5. Long press in the text field and tap **Paste**";
      "6. Android users can also find emojis by tapping the emoji icon on the Gboard keyboard";
      blank;
      "### How to Use " ++ title ++ " on PC (Windows & Mac)";
      blank;
      "1. Open this page on your computer browser (Chrome, Firefox, Edge, or Safari)";
      "2. Click on the " ++ keyword ++ " you want to copy";
      "3. The emoji is instantly copied to your clipboard";
      "4. Open any app or website where you want to paste it";
      "5. Press **Ctrl+V** (Windows) or **Cmd+V** (Mac) to paste";
      "6. On Windows, you can also press **Win + .** (period) to open the emoji picker. On Mac, press **Ctrl + Cmd + Space**";
      blank;
      "## About " ++ title;
      blank;
      "The " ++ keyword ++ " is one of the most popular emojis used in digital communication. It helps convey emotions and add personality to text-based conversations. " ++ relatedNote relatedEmojis;
      blank;
      "## Frequently Asked Questions";
      blank;
      "### How do I copy the " ++ keyword ++ "?";
      "Simply click on the emoji and it will be automatically copied to your clipboard. Then use Ctrl+V (or Cmd+V on Mac) to paste it anywhere.";
      blank;
      "### Can I use the " ++ keyword ++ " on any device?";
      "Yes! Emojis are universal and work on all modern devices including iPhone, Android, Windows, and Mac computers.";
      blank;
      "### What does the " ++ keyword ++ " mean?";
      "The " ++ keyword ++ " is commonly used to express feelings related to " ++ clean ++ ". Its meaning can vary slightly depending on context and culture.";
      blank;
      "### Do " ++ keyword ++ "s look the same on iPhone and Android?";
      title ++ "s may look slightly different on iPhone (Apple) vs Android (Google) devices. Each platform has its own emoji design style, but the meaning stays the same.";
      blank;
      "### Can I use " ++ keyword ++ "s in emails?";
      "Yes! You can paste " ++ keyword ++ "s into any email client including Gmail, Outlook, Yahoo Mail, and Apple Mail. They work in both the subject line and the body of the email." ].

(** ** The storage interface

    [server/storage.ts] is outside this development; the routes
    reach it through the [storage] object only.  The interface below has
    the methods the routes call.  A query returns a value or rejects; a
    mutation returns a value and the next store, or rejects and leaves
    the store as it was. *)

Inductive Exn : Type := Thrown (reason : string).

Record Storage (S : Type) : Type := {
  getEmojis : option string -> option string -> S -> Exn + list Emoji.t;
  getEmojiCount : S -> Exn + Z;
  incrementCopyCount : Z -> S -> Exn + (option Z * S);
  createEmojis : list InsertEmoji.t -> S -> Exn + (unit * S);
  getPageBySlug : string -> S -> Exn + option SeoPage.t;
  updatePage : Z -> PageUpdate.t -> S -> Exn + (option SeoPage.t * S);
  createPage : InsertSeoPage.t -> S -> Exn + (SeoPage.t * S);
  getUngeneratedPages : Z -> S -> Exn + list SeoPage.t
}.

Arguments getEmojis {S}.
Arguments getEmojiCount {S}.
Arguments incrementCopyCount {S}.
Arguments createEmojis {S}.
Arguments getPageBySlug {S}.
Arguments updatePage {S}.
Arguments createPage {S}.
Arguments getUngeneratedPages {S}.

(** Every call a handler makes on [storage], in the order it makes them. *)
Inductive Call : Type :=
| CallGetEmojis (search category : option string)
| CallGetEmojiCount
| CallIncrementCopyCount (id : Z)
| CallCreateEmojis (batch : list InsertEmoji.t)
| CallGetPageBySlug (slug : string)
| CallUpdatePage (id : Z) (data : PageUpdate.t)
| CallCreatePage (page : InsertSeoPage.t)
| CallGetUngeneratedPages (limit : Z).

(** The calls that can change the store. *)
Definition isWrite (c : Call) : bool :=
  match c with
  | CallIncrementCopyCount _ | CallCreateEmojis _
  | CallUpdatePage _ _ | CallCreatePage _ => true
  | _ => false
  end.

Record World (S : Type) : Type := mkWorld {
  store : S;
  calls : list Call
}.

Arguments mkWorld {S}.
Arguments store {S}.
Arguments calls {S}.

(** ** Responses *)

Inductive Body : Type :=
| Message (message : string)
| PageJson (page : option SeoPage.t)
| CopyCountJson (copyCount : option Z)
| GeneratedJson (generated : Z).

Record Response : Type := mkResponse {
  status : Z;
  body : Body
}.

(** ** Handlers: a state and exception monad over the store *)

Definition M (S A : Type) : Type := World S -> (Exn + A) * World S.

Definition ret {S A : Type} (a : A) : M S A := fun w => (inr a, w).

Definition bind {S A B : Type} (m : M S A) (k : A -> M S B) : M S B :=
  fun w =>
    match m w with
    | (inr a, w') => k a w'
    | (inl e, w') => (inl e, w')
    end.

(** [try { body } catch (error) { handler }] *)
Definition tryCatch {S A : Type} (body : M S A) (handler : Exn -> M S A) : M S A :=
  fun w =>
    match body w with
    | (inl e, w') => handler e w'
    | (inr a, w') => (inr a, w')
    end.

Declare Scope handler_scope.
Delimit Scope handler_scope with handler.
Notation "x <- m ;; k" := (bind m (fun x => k))
  (at level 100, m at next level, right associativity) : handler_scope.
Notation "m ;;; k" := (bind m (fun _ => k))
  (at level 100, right associativity) : handler_scope.

Definition logCall {S : Type} (c : Call) (w : World S) : list Call := calls w ++ [c].

(** [await storage.query(...)] *)
Definition query {S A : Type} (c : Call) (q : S -> Exn + A) : M S A :=
  fun w => (q (store w), mkWorld (store w) (logCall c w)).

(** [await storage.mutation(...)] *)
Definition mutate {S A : Type} (c : Call) (m : S -> Exn + (A * S)) : M S A :=
  fun w =>
    match m (store w) with
    | inr (a, s') => (inr a, mkWorld s' (logCall c w))
    | inl e => (inl e, mkWorld (store w) (logCall c w))
    end.

Section Routes.

Context {S : Type}.
Variable storage : Storage S.

(** The content generator the file defines ([generateSeoContent] or the
    one of the longer revision; the handlers are the same in both). *)
Variable render : string -> list Emoji.t -> string.

(** The imports of ./seed-emojis, taken as parameters. *)
Variable EMOJI_DATA : list InsertEmoji.t.
Variable TOP_KEYWORDS : list string.
Variable generateSeoPages : list string -> list InsertSeoPage.t.

Local Open Scope handler_scope.

Definition json (code : Z) (b : Body) : M S Response := ret (mkResponse code b).

(** POST /api/emojis/:id/copy (lines 38-42); [id] is [Number(req.params.id)]. *)
Definition postCopy (id : Z) : M S Response :=
  copyCount <- mutate (CallIncrementCopyCount id) (incrementCopyCount storage id) ;;
  json 200 (CopyCountJson copyCount).

(** PATCH /api/pages/:id (lines 56-67), the sibling route that checks
    the result of the storage call before it answers. *)
Definition patchPage (id : Z) (title metaDescription content : option string) : M S Response :=
  let data := PageUpdate.mk title metaDescription content None None in
  tryCatch
    (updated <- mutate (CallUpdatePage id data) (updatePage storage id data) ;;
     match updated with
     | None => json 404 (Message "Page not found")
     | Some _ => json 200 (PageJson updated)
     end)
    (fun _ => json 500 (Message "Failed to update page")).

(** The fields both generation routes write. *)
Definition generatedFields (keyword : string) (allEmojis : list Emoji.t) : PageUpdate.t :=
  let relatedEmojiChars := map Emoji.emoji (slice0 20 allEmojis) in
  let content := render keyword allEmojis in
  PageUpdate.mk None None (Some content) (Some relatedEmojiChars) (Some true).

Definition newPage (keyword : string) (allEmojis : list Emoji.t) : InsertSeoPage.t :=
  let relatedEmojiChars := map Emoji.emoji (slice0 20 allEmojis) in
  let content := render keyword allEmojis in
  InsertSeoPage.mk
    (slugify keyword)
    (titleCase keyword ++ " - Copy & Paste")
    keyword
    ("Copy and paste " ++ keyword ++ " instantly! Find the best " ++ keyword ++
     " for messages, social media, and more.")
    (Some content)
    (Some relatedEmojiChars)
    true.

(** [existingPage && existingPage.isGenerated] *)
Definition alreadyGenerated (existingPage : option SeoPage.t) : bool :=
  match existingPage with
  | Some p => SeoPage.isGenerated p
  | None => false
  end.

(** POST /api/pages/generate (lines 69-111); [keyword] is
    [req.body.keyword], absent or a string. *)
Definition postGenerate (keyword : option string) : M S Response :=
  match keyword with
  | Some (String c r) =>
      let keyword := String c r in
      tryCatch
        (existingPage <- query (CallGetPageBySlug (slugify keyword))
                               (getPageBySlug storage (slugify keyword)) ;;
         if alreadyGenerated existingPage then json 200 (PageJson existingPage)
         else
           allEmojis <- query (CallGetEmojis (Some (cleanKeyword keyword)) None)
                              (getEmojis storage (Some (cleanKeyword keyword)) None) ;;
           match existingPage with
           | Some p =>
               updated <- mutate (CallUpdatePage (SeoPage.id p) (generatedFields keyword allEmojis))
                                 (updatePage storage (SeoPage.id p) (generatedFields keyword allEmojis)) ;;
               json 200 (PageJson updated)
           | None =>
               page <- mutate (CallCreatePage (newPage keyword allEmojis))
                              (createPage storage (newPage keyword allEmojis)) ;;
               json 201 (PageJson (Some page))
           end)
        (fun _ => json 500 (Message "Failed to generate page"))
  | _ => json 400 (Message "Keyword is required")
  end.

(** The body of the [for (const page of ungenerated)] loop (lines 118-129). *)
Fixpoint generateEach (ungenerated : list SeoPage.t) (generated : Z) : M S Z :=
  match ungenerated with
  | [] => ret generated
  | page :: rest =>
      let keyword := SeoPage.keyword page in
      allEmojis <- query (CallGetEmojis (Some (cleanKeyword keyword)) None)
                         (getEmojis storage (Some (cleanKeyword keyword)) None) ;;
      ( mutate (CallUpdatePage (SeoPage.id page) (generatedFields keyword allEmojis))
               (updatePage storage (SeoPage.id page) (generatedFields keyword allEmojis)) ;;;
        generateEach rest (generated + 1) )
  end.

(** POST /api/pages/generate-batch (lines 113-136). *)
Definition postGenerateBatch : M S Response :=
  tryCatch
    (ungenerated <- query (CallGetUngeneratedPages 5) (getUngeneratedPages storage 5) ;;
     generated <- generateEach ungenerated 0 ;;
     json 200 (GeneratedJson generated))
    (fun _ => json 500 (Message "Failed to batch generate")).

(** [EMOJI_DATA.slice(i, i + batchSize)] *)
Definition batchAt (i batchSize : nat) : list InsertEmoji.t :=
  firstn batchSize (skipn i EMOJI_DATA).

(** [for (let i = 0; i < EMOJI_DATA.length; i += batchSize)] with
    [batchSize = 50] (lines 194-198). *)
Equations? seedEmojiBatches (i : nat) : M S unit by wf (length EMOJI_DATA - i) lt :=
  seedEmojiBatches i with lt_dec i (length EMOJI_DATA) => {
    | left _ :=
        bind (mutate (CallCreateEmojis (batchAt i 50)) (createEmojis storage (batchAt i 50)))
             (fun _ => seedEmojiBatches (i + 50));
    | right _ := ret tt }.
Proof. lia. Qed.

(** [for (const page of seoPages) { try { createPage(page) } catch (e) {} }]
    (lines 204-210). *)
Fixpoint seedPageStubs (pages : list InsertSeoPage.t) : M S unit :=
  match pages with
  | [] => ret tt
  | page :: rest =>
      ( tryCatch
          (mutate (CallCreatePage page) (createPage storage page) ;;; ret tt)
          (fun _ => ret tt) ;;;
        seedPageStubs rest )
  end.

(** [seedDatabase] (lines 184-213). *)
Definition seedDatabase : M S unit :=
  count <- query CallGetEmojiCount (getEmojiCount storage) ;;
  if (count >? 0)%Z then ret tt
  else
    ( seedEmojiBatches 0 ;;;
      seedPageStubs (generateSeoPages TOP_KEYWORDS) ).

End Routes.

(** ** An in-memory store

    The two tables as lists in insertion order, with the serial
    counters that number new rows. *)

Module MemStorage.

Local Open Scope Z_scope.

Record Store : Type := mkStore {
  emojis : list Emoji.t;
  pages : list SeoPage.t;
  nextEmojiId : Z;
  nextPageId : Z
}.

Definition empty : Store := mkStore [] [] 1 1.

(** [hay.includes(needle)] *)
Fixpoint includes (needle hay : string) : bool :=
  Js.startsWith needle hay ||
  match hay with
  | EmptyString => false
  | String _ r => includes needle r
  end.

Definition matchesSearch (search : option string) (e : Emoji.t) : bool :=
  match search with
  | None => true
  | Some q =>
      let q := Js.toLowerCase q in
      includes q (Js.toLowerCase (Emoji.name e)) ||
      existsb (fun k => includes q (Js.toLowerCase k)) (Emoji.keywords e)
  end.

Definition matchesCategory (category : option string) (e : Emoji.t) : bool :=
  match category with
  | None => true
  | Some c => String.eqb (Emoji.category e) c
  end.

Definition matching (search category : option string) (es : list Emoji.t) : list Emoji.t :=
  filter (fun e => matchesSearch search e && matchesCategory category e) es.

(** Modelled from the spec: [storage.getEmojis] of server/storage.ts, "list
    emojis optionally filtered by free-text search (case-insensitive
    substring match against name/keywords) and/or exact category match". *)
Definition getEmojis (search category : option string) (s : Store) : Exn + list Emoji.t :=
  inr (matching search category (emojis s)).

(** Modelled from the spec: [storage.getEmojiCount] of server/storage.ts, the
    number of emoji records the catalog store holds. *)
Definition getEmojiCount (s : Store) : Exn + Z :=
  inr (Z.of_nat (length (emojis s))).

Definition bump (e : Emoji.t) : Emoji.t :=
  Emoji.mk (Emoji.id e) (Emoji.emoji e) (Emoji.name e) (Emoji.slug e)
           (Emoji.category e) (Emoji.subcategory e) (Emoji.description e)
           (Emoji.keywords e) (Emoji.copyCount e + 1).

Definition hasEmojiId (id : Z) (e : Emoji.t) : bool := (Emoji.id e =? id)%Z.

(** Modelled from the spec: [storage.incrementCopyCount] of server/storage.ts,
    "increment copy count for a given id; no-op / not-found signaled if
    id is absent"; not-found is the undefined result. *)
Definition incrementCopyCount (id : Z) (s : Store) : Exn + (option Z * Store) :=
  match find (hasEmojiId id) (emojis s) with
  | Some e =>
      inr (Some (Emoji.copyCount e + 1),
           mkStore (map (fun e' => if hasEmojiId id e' then bump e' else e') (emojis s))
                   (pages s) (nextEmojiId s) (nextPageId s))
  | None => inr (None, s)
  end.

Definition newEmoji (id : Z) (e : InsertEmoji.t) : Emoji.t :=
  Emoji.mk id (InsertEmoji.emoji e) (InsertEmoji.name e) (InsertEmoji.slug e)
           (InsertEmoji.category e) (InsertEmoji.subcategory e)
           (InsertEmoji.description e) (InsertEmoji.keywords e) 0.

Fixpoint numberEmojis (next : Z) (batch : list InsertEmoji.t) : list Emoji.t :=
  match batch with
  | [] => []
  | e :: rest => newEmoji next e :: numberEmojis (next + 1) rest
  end.

(** Modelled from the spec: [storage.createEmojis] of server/storage.ts, which
    inserts a batch of emoji records, each with a fresh id and a copy
    counter of zero. *)
Definition createEmojis (batch : list InsertEmoji.t) (s : Store) : Exn + (unit * Store) :=
  inr (tt, mkStore (emojis s ++ numberEmojis (nextEmojiId s) batch) (pages s)
                   (nextEmojiId s + Z.of_nat (length batch)) (nextPageId s)).

Definition hasSlug (slug : string) (p : SeoPage.t) : bool := String.eqb (SeoPage.slug p) slug.
Definition hasPageId (id : Z) (p : SeoPage.t) : bool := (SeoPage.id p =? id)%Z.

(** Modelled from the spec: [storage.getPageBySlug] of server/storage.ts, the
    slug lookup of the page store. *)
Definition getPageBySlug (slug : string) (s : Store) : Exn + option SeoPage.t :=
  inr (find (hasSlug slug) (pages s)).

Definition orElse {A : Type} (o : option A) (a : A) : A :=
  match o with Some x => x | None => a end.

Definition orKeep {A : Type} (o : option A) (a : option A) : option A :=
  match o with Some x => Some x | None => a end.

Definition applyUpdate (u : PageUpdate.t) (p : SeoPage.t) : SeoPage.t :=
  SeoPage.mk (SeoPage.id p) (SeoPage.slug p) (SeoPage.keyword p)
             (orElse (PageUpdate.title u) (SeoPage.title p))
             (orElse (PageUpdate.metaDescription u) (SeoPage.metaDescription p))
             (orKeep (PageUpdate.content u) (SeoPage.content p))
             (orKeep (PageUpdate.relatedEmojis u) (SeoPage.relatedEmojis p))
             (orElse (PageUpdate.isGenerated u) (SeoPage.isGenerated p)).

(** The page table after an update of the rows with that id. *)
Definition pagesAfterUpdate (id : Z) (u : PageUpdate.t) (ps : list SeoPage.t) : list SeoPage.t :=
  map (fun p' => if hasPageId id p' then applyUpdate u p' else p') ps.

(** Modelled from the spec: [storage.updatePage] of server/storage.ts, the
    update of the page store: the given fields of the page with that id
    are overwritten and the updated page is returned; nothing is
    returned for an unknown id (the PATCH route answers 404 then). *)
Definition updatePage (id : Z) (u : PageUpdate.t) (s : Store) : Exn + (option SeoPage.t * Store) :=
  inr (option_map (applyUpdate u) (find (hasPageId id) (pages s)),
       mkStore (emojis s) (pagesAfterUpdate id u (pages s)) (nextEmojiId s) (nextPageId s)).

Definition newRow (id : Z) (p : InsertSeoPage.t) : SeoPage.t :=
  SeoPage.mk id (InsertSeoPage.slug p) (InsertSeoPage.keyword p) (InsertSeoPage.title p)
             (InsertSeoPage.metaDescription p) (InsertSeoPage.content p)
             (InsertSeoPage.relatedEmojis p) (InsertSeoPage.isGenerated p).

Definition slugTaken (slug : string) (s : Store) : bool := existsb (hasSlug slug) (pages s).

(** Modelled from the spec: [storage.createPage] of server/storage.ts, the
    creation of the page store; the slug is unique, so a second page
    with a slug the store has is rejected and the store stays as it is
    (the rejection [seedDatabase] ignores). *)
Definition createPage (p : InsertSeoPage.t) (s : Store) : Exn + (SeoPage.t * Store) :=
  if slugTaken (InsertSeoPage.slug p) s
  then inl (Thrown "duplicate key value violates unique constraint")
  else inr (newRow (nextPageId s) p,
            mkStore (emojis s) (pages s ++ [newRow (nextPageId s) p])
                    (nextEmojiId s) (nextPageId s + 1)).

Definition ungenerated (p : SeoPage.t) : bool := negb (SeoPage.isGenerated p).

(** Modelled from the spec: [storage.getUngeneratedPages] of server/storage.ts,
    "fetches up to limit pages with generated = false". *)
Definition getUngeneratedPages (limit : Z) (s : Store) : Exn + list SeoPage.t :=
  inr (firstn (Z.to_nat limit) (filter ungenerated (pages s))).

Definition storage : Storage Store :=
  Build_Storage Store getEmojis getEmojiCount incrementCopyCount createEmojis
                getPageBySlug updatePage createPage getUngeneratedPages.

End MemStorage.

(** What the specification says of a duplicate stub: creating it is a
    no-op.  [insertUnlessTaken] adds a stub as a new row unless the
    store has its slug already. *)
Definition insertUnlessTaken (s : MemStorage.Store) (stub : InsertSeoPage.t) : MemStorage.Store :=
  if MemStorage.slugTaken (InsertSeoPage.slug stub) s then s
  else MemStorage.mkStore (MemStorage.emojis s)
         (MemStorage.pages s ++ [MemStorage.newRow (MemStorage.nextPageId s) stub])
         (MemStorage.nextEmojiId s) (MemStorage.nextPageId s + 1).

(** The stubs inserted one by one, the duplicates skipped. *)
Definition seedPagesSpec (stubs : list InsertSeoPage.t) (s : MemStorage.Store) : MemStorage.Store :=
  fold_left insertUnlessTaken stubs s.

(** ** What the specification's words say, for comparison *)

(** "the keyword minus a trailing emoji suffix": the suffix is removed
    when the string ends with it, and only there. *)
Fixpoint withoutTrailingSuffix (suffix s : string) : string :=
  if String.eqb s suffix then EmptyString
  else match s with
       | EmptyString => EmptyString
       | String c r => String c (withoutTrailingSuffix suffix r)
       end.

(** The search terms a handler passed to [storage.getEmojis]. *)
Definition searchTerms (cs : list Call) : list (option string) :=
  flat_map (fun c => match c with
                     | CallGetEmojis search _ => [search]
                     | _ => []
                     end) cs.

(** The calls of a log that are writes. *)
Definition writes (cs : list Call) : list Call := filter isWrite cs.

(** ** Sample data *)

Definition heart : Emoji.t :=
  Emoji.mk 1 "<3" "Red Heart" "red-heart" "Symbols" None
           (Some "A classic love heart") ["love"; "heart"] 0.

Definition fire : Emoji.t :=
  Emoji.mk 2 "^^" "Fire" "fire" "Nature" None None ["hot"; "lit"] 4.

Definition heartPage : SeoPage.t :=
  SeoPage.mk 1 "heart-emoji" "heart emoji" "Heart Emoji - Copy & Paste"
             "Copy and paste heart emoji instantly!" (Some "# Heart Emoji") (Some ["<3"]) true.

Definition fireStub : SeoPage.t :=
  SeoPage.mk 2 "fire-emoji" "fire emoji" "Fire Emoji - Copy & Paste"
             "Copy and paste fire emoji instantly!" None None false.

Definition sampleStore : MemStorage.Store :=
  MemStorage.mkStore [heart; fire] [heartPage; fireStub] 3 3.

Definition sampleWorld : World MemStorage.Store := mkWorld sampleStore [].

(** ** The effect of the generation batch on the in-memory store *)

(** The fields the batch route writes for [page] when the emoji table is [es]. *)
Definition batchFields (render : string -> list Emoji.t -> string)
    (es : list Emoji.t) (page : SeoPage.t) : PageUpdate.t :=
  generatedFields render (SeoPage.keyword page)
    (MemStorage.matching (Some (cleanKeyword (SeoPage.keyword page))) None es).

(** The page table after one update per page of [batch], in order. *)
Definition pagesAfterBatch (fields : SeoPage.t -> PageUpdate.t)
    (batch ps : list SeoPage.t) : list SeoPage.t :=
  fold_left (fun ps page => MemStorage.pagesAfterUpdate (SeoPage.id page) (fields page) ps)
            batch ps.

(** The storage calls of the loop over [batch]. *)
Definition batchCalls (render : string -> list Emoji.t -> string)
    (es : list Emoji.t) (batch : list SeoPage.t) : list Call :=
  flat_map (fun page =>
              [ CallGetEmojis (Some (cleanKeyword (SeoPage.keyword page))) None;
                CallUpdatePage (SeoPage.id page) (batchFields render es page) ])
           batch.

(** The ids a log marks as generated: its [updatePage] calls that set
    [isGenerated] to true. *)
Definition markedGenerated (cs : list Call) : list Z :=
  flat_map (fun c => match c with
                     | CallUpdatePage id (PageUpdate.mk _ _ _ _ (Some true)) => [id]
                     | _ => []
                     end) cs.

(** ** Sample seed data *)

Definition sampleEmojiData : list InsertEmoji.t :=
  [ InsertEmoji.mk "<3" "Red Heart" "red-heart" "Symbols" None
                   (Some "A classic love heart") ["love"; "heart"];
    InsertEmoji.mk "^^" "Fire" "fire" "Nature" None None ["hot"; "lit"] ].

(** A stand-in for [generateSeoPages]: one stub per keyword. *)
Definition sampleSeoPages (keywords : list string) : list InsertSeoPage.t :=
  map (fun keyword =>
         InsertSeoPage.mk (slugify keyword) (titleCase keyword ++ " - Copy & Paste")
                          keyword ("Copy and paste " ++ keyword) None None false)
      keywords.

(** A store with no emojis yet and one page, a stub for "fire emoji". *)
Definition unseededStore : MemStorage.Store := MemStorage.mkStore [] [fireStub] 1 3.

(** ** Reading a keyword character by character *)

(** Some character of the string passes the test. *)
Fixpoint anyChar (f : ascii -> bool) (s : string) : bool :=
  match s with
  | EmptyString => false
  | String c r => f c || anyChar f r
  end.

(** The keyword has a letter of [[A-Za-z]] or a digit. *)
Definition hasAlnum (keyword : string) : bool :=
  anyChar (fun c => Js.isAlnum (Js.lowerChar c)) keyword.

Definition isEmptyString (s : string) : bool :=
  match s with
  | EmptyString => true
  | String _ _ => false
  end.

(** Title casing in one pass: the first character and every character
    after a space are upper-cased; [atStart] tells that the scan is at
    the start of a word. *)
Fixpoint capitalizeFrom (atStart : bool) (s : string) : string :=
  match s with
  | EmptyString => EmptyString
  | String c r =>
      String (if atStart then Js.upperChar c else c)
             (capitalizeFrom (Ascii.eqb c " "%char) r)
  end.

(** Every character is in the ASCII range, where the case mapping of
    this development is the one of JavaScript. *)
Definition isAscii (s : string) : bool :=
  negb (anyChar (fun c => (128 <=? N_of_ascii c)%N) s).

(** ** More of the routes and what their calls may be *)

(** GET /api/pages/:slug (routes.ts lines 50-54). *)
Definition getPage {S : Type} (storage : Storage S) (slug : string) : M S Response :=
  bind (query (CallGetPageBySlug slug) (getPageBySlug storage slug))
       (fun page =>
          match page with
          | None => json 404 (Message "Page not found")
          | Some _ => json 200 (PageJson page)
          end).

(** Two emojis with the same glyph, name and description. *)
Definition sameText (e1 e2 : Emoji.t) : Prop :=
  Emoji.emoji e1 = Emoji.emoji e2 /\
  Emoji.name e1 = Emoji.name e2 /\
  Emoji.description e1 = Emoji.description e2.

(** An update that marks a page generated and leaves its title and its
    meta description alone. *)
Definition marksGenerated (data : PageUpdate.t) : Prop :=
  PageUpdate.isGenerated data = Some true /\
  PageUpdate.title data = None /\
  PageUpdate.metaDescription data = None.

(** The calls the generate route may make for [keyword]. *)
Definition generateCall (keyword : string) (c : Call) : Prop :=
  match c with
  | CallGetPageBySlug slug => slug = slugify keyword
  | CallGetEmojis search category => search = Some (cleanKeyword keyword) /\ category = None
  | CallUpdatePage _ data => marksGenerated data
  | CallCreatePage page =>
      InsertSeoPage.keyword page = keyword /\
      InsertSeoPage.slug page = slugify keyword /\
      InsertSeoPage.isGenerated page = true
  | _ => False
  end.

(** The calls the loop of the batch route may make. *)
Definition batchCall (c : Call) : Prop :=
  match c with
  | CallGetEmojis _ category => category = None
  | CallUpdatePage _ data => marksGenerated data
  | _ => False
  end.

Definition isCreateEmojis (c : Call) : Prop :=
  match c with
  | CallCreateEmojis batch => (0 < length batch <= 50)%nat
  | _ => False
  end.

(** The in-memory store behind a storage whose [createEmojis] always
    rejects, to try the seed routine on a failing insert. *)
Definition rejectingEmojis : Storage MemStorage.Store :=
  Build_Storage MemStorage.Store
    MemStorage.getEmojis MemStorage.getEmojiCount MemStorage.incrementCopyCount
    (fun _ _ => inl (Thrown "insert failed"))
    MemStorage.getPageBySlug MemStorage.updatePage MemStorage.createPage
    MemStorage.getUngeneratedPages.

(** ** The bulk action of the admin page ([client/src/pages/Admin.tsx])

    [handleBulkGenerate] (lines 53-76) posts to /api/pages/generate-batch
    in a loop.  [apiRequest] is outside this development, so the
    request is a parameter: it takes the server from one state to the
    next and either yields the [generated] number of the JSON reply or
    throws. *)

Inductive BatchReply : Type :=
| Replied (generated : Z)
| Threw.

Inductive Toast : Type :=
| ToastBatchError                 (* "Batch generation error" *)
| ToastGenerated (total : Z).     (* `Generated content for ${total} pages` *)

(** The state the handler touches: the server behind the requests, the
    two pieces of React state, the toasts shown, the number of cache
    invalidations, and the replies received so far. *)
Record Admin (W : Type) : Type := mkAdmin {
  server : W;
  generatedCount : Z;
  isRunningBulk : bool;
  toasts : list Toast;
  invalidations : nat;
  replies : list BatchReply
}.

Arguments mkAdmin {W}.
Arguments server {W}.
Arguments generatedCount {W}.
Arguments isRunningBulk {W}.
Arguments toasts {W}.
Arguments invalidations {W}.
Arguments replies {W}.

Section BulkGenerate.

Context {W : Type}.
Variable post : W -> BatchReply * W.

(** [for (let i = 0; i < maxRounds; i++) { ... }] with [rounds] rounds
    left and the running [total] (lines 59-71). *)
Fixpoint bulkRounds (rounds : nat) (total : Z) (a : Admin W) : Z * Admin W :=
  match rounds with
  | O => (total, a)
  | Datatypes.S rounds' =>
      match post (server a) with
      | (Replied generated, server') =>
          if (generated =? 0)%Z
          then (total,
                mkAdmin server' (generatedCount a) (isRunningBulk a) (toasts a)
                        (invalidations a) (replies a ++ [Replied generated]))
          else bulkRounds rounds' (total + generated)
                 (mkAdmin server' (total + generated) (isRunningBulk a) (toasts a)
                          (Datatypes.S (invalidations a)) (replies a ++ [Replied generated]))
      | (Threw, server') =>
          (total,
           mkAdmin server' (generatedCount a) (isRunningBulk a)
                   (toasts a ++ [ToastBatchError]) (invalidations a)
                   (replies a ++ [Threw]))
      end
  end.

Definition maxRounds : nat := 100.

(** [handleBulkGenerate] (lines 53-76). *)
Definition handleBulkGenerate (a : Admin W) : Admin W :=
  let started := mkAdmin (server a) 0 true (toasts a) (invalidations a) (replies a) in
  let (total, done) := bulkRounds maxRounds 0 started in
  mkAdmin (server done) (generatedCount done) false
          (toasts done ++ [ToastGenerated total])
          (Datatypes.S (invalidations done)) (replies done).

End BulkGenerate.

(** The numbers the replies reported, added up. *)
Fixpoint sumGenerated (rs : list BatchReply) : Z :=
  match rs with
  | [] => 0
  | Replied generated :: rest => generated + sumGenerated rest
  | Threw :: rest => sumGenerated rest
  end.

(** A reply after which the loop goes on: a number other than 0. *)
Definition goesOn (r : BatchReply) : bool :=
  match r with
  | Replied generated => negb (generated =? 0)%Z
  | Threw => false
  end.

(** The request of the bulk loop against the batch route itself: a 200
    answer yields its [generated] number; any other outcome is taken to
    throw, as a request helper that rejects non-2xx answers does. *)
Definition postBatch {S : Type} (storage : Storage S)
    (render : string -> list Emoji.t -> string) (w : World S) : BatchReply * World S :=
  match postGenerateBatch storage render w with
  | (inr (mkResponse 200 (GeneratedJson generated)), w') => (Replied generated, w')
  | (_, w') => (Threw, w')
  end.

(** A fresh admin page in front of a server. *)
Definition adminAt {W : Type} (w : W) : Admin W := mkAdmin w 0 false [] 0 [].

(** The number of pages of the in-memory store that are not generated. *)
Definition pending (s : MemStorage.Store) : nat :=
  length (filter MemStorage.ungenerated (MemStorage.pages s)).

(** ** The content renderer of the SEO page ([client/src/pages/SeoPage.tsx])

    Lines 158-176 split the stored markdown at newlines and turn every
    line into one element; the page does so when the stored content is
    a non-empty string (line 156).  Headings carry text; list items and
    paragraphs carry HTML that is inserted as it is
    ([dangerouslySetInnerHTML]). *)

Inductive Element : Type :=
| Heading1 (text : string)
| Heading2 (text : string)
| Heading3 (text : string)
| ListItem (html : string)
| LineBreak
| Paragraph (html : string).

Definition newline : ascii := ascii_of_N 10.
Definition star : ascii := "*"%char.

(** The string of the characters with the given codes. *)
Definition bytes (codes : list N) : string :=
  fold_right (fun n s => String (ascii_of_N n) s) EmptyString codes.

(** The line terminators, which the [.] of a regular expression does
    not match: U+000A, U+000D, U+2028 and U+2029, the last two as the
    three bytes of their UTF-8 encoding. *)
Definition lineTerminators : list string :=
  [bytes [10]; bytes [13]; bytes [226; 128; 168]; bytes [226; 128; 169]]%N.

(** A line terminator starts [s]. *)
Definition lineTerminatorAt (s : string) : bool :=
  existsb (fun t => Js.startsWith t s) lineTerminators.

(** The white space [trim] removes: the line terminators and U+0009,
    U+000B, U+000C, U+0020, U+00A0, U+1680, U+2000 to U+200A, U+202F,
    U+205F, U+3000 and U+FEFF, those outside the ASCII range as the
    bytes of their UTF-8 encoding. *)
Definition whiteSpaces : list string :=
  (lineTerminators ++
   map bytes
     [ [9]; [11]; [12]; [32]; [194; 160]; [225; 154; 128];
       [226; 128; 128]; [226; 128; 129]; [226; 128; 130]; [226; 128; 131];
       [226; 128; 132]; [226; 128; 133]; [226; 128; 134]; [226; 128; 135];
       [226; 128; 136]; [226; 128; 137]; [226; 128; 138];
       [226; 128; 175]; [226; 129; 159]; [227; 128; 128]; [239; 187; 191] ]%N)%list.

(** The length of the white space that starts [s], when one does. *)
Definition whiteSpaceAt (s : string) : option nat :=
  option_map String.length (find (fun t => Js.startsWith t s) whiteSpaces).

(** The line is white space from here to its end; [skip] counts the
    characters of the last white space that are still to be passed
    over. *)
Fixpoint blankFrom (skip : nat) (line : string) : bool :=
  match line with
  | EmptyString => true
  | String c r =>
      match skip with
      | Datatypes.S k => blankFrom k r
      | O =>
          match whiteSpaceAt (String c r) with
          | Some n => blankFrom (Nat.pred n) r
          | None => false
          end
      end
  end.

(** [line.trim() === ''] *)
Definition isBlank (line : string) : bool := blankFrom 0 line.

(** The lazy group and the closing stars of [/\*\*(.*?)\*\*/], tried
    right after the opening stars: the shortest run of characters
    other than line terminators that is followed by two stars. *)
Fixpoint untilClose (s : string) : option string :=
  if Js.startsWith "**" s then Some EmptyString
  else match s with
       | EmptyString => None
       | String c r =>
           if lineTerminatorAt (String c r) then None
           else option_map (String c) (untilClose r)
       end.

(** A match of [/\*\*(.*?)\*\*/] at the start of [s]: its group. *)
Definition matchStrong (s : string) : option string :=
  if Js.startsWith "**" s then untilClose (Js.dropChars 2 s) else None.

(** [s.replace(/\*\*(.*?)\*\*/g, opening + '$1' + closing)]: the scan
    goes left to right; [skip] counts the characters of the last match
    that are still to be passed over. *)
Fixpoint strongFrom (skip : nat) (opening closing s : string) : string :=
  match s with
  | EmptyString => EmptyString
  | String c r =>
      match skip with
      | Datatypes.S k => strongFrom k opening closing r
      | O =>
          match matchStrong (String c r) with
          | Some inner =>
              opening ++ inner ++ closing ++
              strongFrom (String.length inner + 3) opening closing r
          | None => String c (strongFrom 0 opening closing r)
          end
      end
  end.

Definition strongReplace (opening closing s : string) : string :=
  strongFrom 0 opening closing s.

Definition quote : string := String (ascii_of_N 34) EmptyString.

(** The callback of [page.content.split('\n').map(...)] (lines 158-176). *)
Definition renderLine (line : string) : Element :=
  if Js.startsWith "# " line then Heading1 (Js.dropChars 2 line)
  else if Js.startsWith "## " line then Heading2 (Js.dropChars 3 line)
  else if Js.startsWith "### " line then Heading3 (Js.dropChars 4 line)
  else if Js.startsWith "- " line
       then ListItem (strongReplace "<strong>" "</strong>" (Js.dropChars 2 line))
  else if isBlank line then LineBreak
  else Paragraph
         (strongReplace ("<strong class=" ++ quote ++ "text-foreground" ++ quote ++ ">")
                        "</strong>" line).

Definition renderContent (content : string) : list Element :=
  map renderLine (Js.splitOn newline content).

(** A line terminator occurs in [s]. *)
Fixpoint hasLineTerminator (s : string) : bool :=
  match s with
  | EmptyString => false
  | String c r => lineTerminatorAt (String c r) || hasLineTerminator r
  end.

(** Text without stars and without line terminators. *)
Definition plainText (s : string) : bool :=
  negb (anyChar (fun c => Ascii.eqb c star) s) && negb (hasLineTerminator s).

(** Text without stars and without newlines. *)
Definition plainLine (s : string) : bool :=
  negb (anyChar (fun c => Ascii.eqb c star || Ascii.eqb c newline) s).

Definition plainEmoji (e : Emoji.t) : bool :=
  plainText (Emoji.emoji e) && plainText (Emoji.name e) &&
  match Emoji.description e with
  | Some d => plainText d
  | None => true
  end.

(** The HTML of the list item of an emoji of the Popular list. *)
Definition popularHtml (keyword : string) (e : Emoji.t) : string :=
  Emoji.emoji e ++ " <strong>" ++ Emoji.name e ++ "</strong> - " ++
  descriptionOr (Emoji.description e)
    ("A popular emoji for expressing " ++ cleanKeyword keyword).

(** [needle] occurs somewhere in [hay]. *)
Fixpoint occursIn (needle hay : string) : bool :=
  Js.startsWith needle hay ||
  match hay with
  | EmptyString => false
  | String _ r => occursIn needle r
  end.

(** The updates among the calls, in order. *)
Definition updatesOf (cs : list Call) : list (Z * PageUpdate.t) :=
  flat_map (fun c => match c with
                     | CallUpdatePage id data => [(id, data)]
                     | _ => []
                     end) cs.

(** The store after a run of [updatePage] calls: an accepted update
    moves the store on, a rejected one leaves it where it was. *)
Definition storeAfterUpdates {S : Type} (storage : Storage S)
    (updates : list (Z * PageUpdate.t)) (s : S) : S :=
  fold_left (fun s u => match updatePage storage (fst u) (snd u) s with
                        | inr (_, s') => s'
                        | inl _ => s
                        end) updates s.

(** The error toasts the replies bring: one for each failed request. *)
Definition errorToasts (rs : list BatchReply) : list Toast :=
  flat_map (fun r => match r with
                     | Threw => [ToastBatchError]
                     | Replied _ => []
                     end) rs.

(** A call that, if it creates a page, creates it under [slug]. *)
Definition createsUnder (slug : string) (c : Call) : Prop :=
  match c with
  | CallCreatePage page => InsertSeoPage.slug page = slug
  | _ => True
  end.

(** The in-memory store behind a storage that rejects the update of the
    page [bad], to try the batch route on a failing update. *)
Definition rejectingUpdateOf (bad : Z) : Storage MemStorage.Store :=
  Build_Storage MemStorage.Store
    MemStorage.getEmojis MemStorage.getEmojiCount MemStorage.incrementCopyCount
    MemStorage.createEmojis MemStorage.getPageBySlug
    (fun id data s => if (id =? bad)%Z then inl (Thrown "update failed")
                      else MemStorage.updatePage id data s)
    MemStorage.createPage MemStorage.getUngeneratedPages.

Definition heartStub : SeoPage.t :=
  SeoPage.mk 3 "heart-emoji" "heart emoji" "Heart Emoji - Copy & Paste"
             "Copy and paste heart emoji instantly!" None None false.

(** A store with two pages that are not generated yet. *)
Definition twoStubs : MemStorage.Store :=
  MemStorage.mkStore [heart; fire] [fireStub; heartStub] 3 4.

(** The storage rejects the call [c] when it is made on the store [s]
    (of the calls of the batch loop: a search or an update). *)
Definition rejectedBy {S : Type} (storage : Storage S) (s : S) (c : Call) : bool :=
  match c with
  | CallGetEmojis search category =>
      match getEmojis storage search category s with
      | inl _ => true
      | inr _ => false
      end
  | CallUpdatePage id data =>
      match updatePage storage id data s with
      | inl _ => true
      | inr _ => false
      end
  | _ => false
  end.

(** The first [n] replies of a server that starts in the state [w]. *)
Fixpoint repliesFrom {W : Type} (post : W -> BatchReply * W) (n : nat) (w : W) :
    list BatchReply :=
  match n with
  | O => []
  | Datatypes.S n' => fst (post w) :: repliesFrom post n' (snd (post w))
  end.

(* ===================================================================== *)
(** * Properties *)
(* ===================================================================== *)

(** ** Evaluations on small inputs *)

Example slugify_heart : slugify "Heart Emoji" = "heart-emoji".
Proof. reflexivity. Qed.

Example slugify_edges : slugify "  Hello, World!! " = "hello-world".
Proof. reflexivity. Qed.

Example slugify_punct : slugify "!!!" = EmptyString.
Proof. reflexivity. Qed.

Example slugify_dash : slugify "-" = EmptyString.
Proof. reflexivity. Qed.

Example titleCase_heart : titleCase "red heart emoji" = "Red Heart Emoji".
Proof. reflexivity. Qed.

Example titleCase_spaces : titleCase "a  b " = "A  B ".
Proof. reflexivity. Qed.

Example cleanKeyword_suffix : cleanKeyword "heart emoji" = "heart".
Proof. reflexivity. Qed.

Example cleanKeyword_inner : cleanKeyword "heart emoji meaning" = "heart meaning".
Proof. reflexivity. Qed.

(** ** Slugs *)

Module SlugFacts.

(** Unfold the scans one character, leaving the character tests folded. *)
Ltac scan :=
  cbn [startsWithDash startsWithAlnum dashesSingle dashesInside
       Js.replaceNonAlnumRuns Js.dropLeadingDash Js.dropTrailingDash
       Js.toLowerCase andb negb].
Tactic Notation "scan" "in" hyp_list(Hs) := 
  cbn [startsWithDash startsWithAlnum dashesSingle dashesInside
       Js.replaceNonAlnumRuns Js.dropLeadingDash Js.dropTrailingDash
       Js.toLowerCase andb negb] in Hs.

Lemma alnum_not_dash (c : ascii) : Js.isAlnum c = true -> Ascii.eqb c Js.dash = false.
Proof.
  destruct c as [b0 b1 b2 b3 b4 b5 b6 b7];
    destruct b0, b1, b2, b3, b4, b5, b6, b7; vm_compute; congruence.
Qed.

Lemma alnum_lower (c : ascii) : Js.isAlnum c = true -> Js.lowerChar c = c.
Proof.
  destruct c as [b0 b1 b2 b3 b4 b5 b6 b7];
    destruct b0, b1, b2, b3, b4, b5, b6, b7; vm_compute; congruence.
Qed.

Lemma dash_is_dash (c : ascii) : Ascii.eqb c Js.dash = true -> c = Js.dash.
Proof. apply Ascii.eqb_eq. Qed.

Lemma alnum_head_not_dash (s : string) :
  startsWithAlnum s = true -> startsWithDash s = false.
Proof. destruct s as [|c r]; scan; [reflexivity | apply alnum_not_dash]. Qed.

(** The first replace leaves single dashes, and none in front when the
    scan starts inside a run. *)
Lemma replace_runs_single (s : string) :
  forall inRun,
    dashesSingle (Js.replaceNonAlnumRuns inRun s) = true /\
    (inRun = true -> startsWithDash (Js.replaceNonAlnumRuns inRun s) = false).
Proof.
  induction s as [|c r IH]; intros inRun; scan.
  - split; reflexivity.
  - destruct (Js.isAlnum c) eqn:Hc.
    + scan. rewrite Hc. split.
      * apply (IH false).
      * intros _. now apply alnum_not_dash.
    + destruct inRun.
      * split; [apply (IH true) | intros _; now apply (IH true)].
      * scan. split; [|discriminate].
        destruct (IH true) as [H1 H2]. rewrite H1, (H2 eq_refl). reflexivity.
Qed.

Lemma drop_leading_single (s : string) :
  dashesSingle s = true ->
  dashesSingle (Js.dropLeadingDash s) = true /\
  startsWithDash (Js.dropLeadingDash s) = false.
Proof.
  destruct s as [|c r]; scan; [now split|].
  destruct (Js.isAlnum c) eqn:Hc.
  - intros H. rewrite (alnum_not_dash _ Hc). scan. rewrite Hc.
    split; [exact H | now apply alnum_not_dash].
  - intros H. apply andb_prop in H. destruct H as [H H3].
    apply andb_prop in H. destruct H as [H1 H2]. rewrite H1.
    split; [exact H3 | now apply negb_true_iff].
Qed.

Lemma drop_trailing_head (s : string) :
  startsWithDash s = false -> startsWithDash (Js.dropTrailingDash s) = false.
Proof.
  destruct s as [|c [|d r]]; scan; intros H; try rewrite H; auto.
Qed.

Lemma drop_trailing_alnum_head (s : string) :
  startsWithAlnum s = true -> startsWithAlnum (Js.dropTrailingDash s) = true.
Proof.
  destruct s as [|c [|d r]]; scan; intros H; auto.
  rewrite (alnum_not_dash _ H). exact H.
Qed.

Lemma single_not_dash_alnum (s : string) :
  dashesSingle s = true -> s <> EmptyString -> startsWithDash s = false ->
  startsWithAlnum s = true.
Proof.
  destruct s as [|c r]; scan; [congruence|].
  intros H _ Hd. destruct (Js.isAlnum c); [reflexivity|].
  rewrite Hd in H. discriminate.
Qed.

Lemma drop_trailing_inside (s : string) :
  dashesSingle s = true -> dashesInside (Js.dropTrailingDash s) = true.
Proof.
  induction s as [|c r IH]; [reflexivity|].
  intros H. scan in H.
  destruct r as [|d r'].
  - scan. destruct (Ascii.eqb c Js.dash) eqn:Hd; [reflexivity|].
    scan. destruct (Js.isAlnum c); [reflexivity|].
    scan in H. discriminate.
  - change (Js.dropTrailingDash (String c (String d r')))
      with (String c (Js.dropTrailingDash (String d r'))).
    cbn [dashesInside].
    destruct (Js.isAlnum c) eqn:Hc.
    + now apply IH.
    + apply andb_prop in H. destruct H as [H H3].
      apply andb_prop in H. destruct H as [H1 H2].
      rewrite H1, (IH H3). cbn [andb].
      rewrite drop_trailing_alnum_head; [reflexivity|].
      apply single_not_dash_alnum; [exact H3 | discriminate | now apply negb_true_iff].
Qed.

(** [slugify] always produces a normalised slug. *)
Lemma slugify_isSlug (keyword : string) : isSlug (slugify keyword) = true.
Proof.
  unfold slugify, Js.stripEdgeDashes, isSlug.
  destruct (replace_runs_single (Js.toLowerCase keyword) false) as [H _].
  destruct (drop_leading_single _ H) as [H1 H2].
  rewrite (drop_trailing_head _ H2), (drop_trailing_inside _ H1). reflexivity.
Qed.

Lemma inside_lower (s : string) : dashesInside s = true -> Js.toLowerCase s = s.
Proof.
  induction s as [|c r IH]; scan; [reflexivity|].
  destruct (Js.isAlnum c) eqn:Hc; intros H.
  - rewrite (alnum_lower _ Hc), (IH H). reflexivity.
  - apply andb_prop in H. destruct H as [H H3].
    apply andb_prop in H. destruct H as [H1 _].
    rewrite (dash_is_dash _ H1), (IH H3). reflexivity.
Qed.

Lemma inside_replace (s : string) :
  forall inRun,
    dashesInside s = true ->
    (inRun = true -> startsWithDash s = false) ->
    Js.replaceNonAlnumRuns inRun s = s.
Proof.
  induction s as [|c r IH]; intros inRun H Hrun; scan; [reflexivity|].
  scan in H Hrun.
  destruct (Js.isAlnum c) eqn:Hc.
  - rewrite (IH false H); [reflexivity | discriminate].
  - apply andb_prop in H. destruct H as [H H3].
    apply andb_prop in H. destruct H as [H1 H2].
    destruct inRun; [rewrite (Hrun eq_refl) in H1; discriminate|].
    rewrite (IH true H3); [|intros _; now apply alnum_head_not_dash].
    now rewrite (dash_is_dash _ H1).
Qed.

Lemma inside_drop_trailing (s : string) :
  dashesInside s = true -> Js.dropTrailingDash s = s.
Proof.
  induction s as [|c r IH]; [reflexivity|].
  intros H. scan in H.
  destruct r as [|d r'].
  - scan. destruct (Js.isAlnum c) eqn:Hc.
    + now rewrite (alnum_not_dash _ Hc).
    + scan in H. rewrite andb_false_r in H. discriminate.
  - change (Js.dropTrailingDash (String c (String d r')))
      with (String c (Js.dropTrailingDash (String d r'))).
    rewrite IH; [reflexivity|].
    destruct (Js.isAlnum c); [exact H|].
    apply andb_prop in H. apply H.
Qed.

(** A normalised slug is a fixed point of the normalisation. *)
Lemma isSlug_fixed (s : string) : isSlug s = true -> slugify s = s.
Proof.
  unfold isSlug. intros H. apply andb_prop in H. destruct H as [Hd Hi].
  apply negb_true_iff in Hd.
  unfold slugify, Js.stripEdgeDashes.
  rewrite (inside_lower _ Hi), (inside_replace _ false Hi) by discriminate.
  assert (Hl : Js.dropLeadingDash s = s).
  { destruct s as [|c r]; [reflexivity|]. scan in Hd; scan. now rewrite Hd. }
  rewrite Hl. now apply inside_drop_trailing.
Qed.

End SlugFacts.

(** C4. Slug derivation is deterministic and idempotent: [slugify] is a
    total function of the keyword alone, its value is always in normal form (lower-case alphanumeric words separated by
    single dashes, no dash in front or at the end), and normalising a
    slug again gives the same slug. *)
Theorem slugify_idempotent :
  forall keyword : string,
    isSlug (slugify keyword) = true /\
    slugify (slugify keyword) = slugify keyword.
Proof.
  intros keyword.
  split; [apply SlugFacts.slugify_isSlug|].
  apply SlugFacts.isSlug_fixed, SlugFacts.slugify_isSlug.
Qed.

(** ** The content template *)

Example popularItems_two :
  popularItems "heart emoji" [heart; fire] =
  [ "- <3 **Red Heart** - A classic love heart";
    "- ^^ **Fire** - A popular emoji for expressing heart" ].
Proof. reflexivity. Qed.

Example relatedNote_two :
  relatedNote [heart; fire] = "Related emojis include <3 Red Heart, ^^ Fire.".
Proof. reflexivity. Qed.

Example relatedNote_none : relatedNote [] = EmptyString.
Proof. reflexivity. Qed.

Module TemplateFacts.

Lemma slice0_again {A : Type} (n : nat) (l : list A) :
  slice0 n (slice0 n l) = slice0 n l.
Proof. unfold slice0. rewrite firstn_firstn, Nat.min_id. reflexivity. Qed.

Lemma slice0_length {A : Type} (n : nat) (l : list A) :
  (length (slice0 n l) <= n)%nat.
Proof. unfold slice0. rewrite length_firstn. apply Nat.le_min_l. Qed.

Lemma popularItems_slice (keyword : string) (related : list Emoji.t) :
  popularItems keyword (slice0 10 related) = popularItems keyword related.
Proof. unfold popularItems. now rewrite slice0_again. Qed.

Lemma sampleItems_slice (related : list Emoji.t) :
  sampleItems (slice0 10 related) = sampleItems related.
Proof. unfold sampleItems. now rewrite slice0_again. Qed.

Lemma relatedNote_slice (related : list Emoji.t) :
  relatedNote (slice0 10 related) = relatedNote related.
Proof.
  unfold relatedNote, emojiSamples. rewrite sampleItems_slice.
  destruct related; reflexivity.
Qed.

Lemma generateSeoContent_slice (keyword : string) (related : list Emoji.t) :
  generateSeoContent keyword (slice0 10 related) = generateSeoContent keyword related.
Proof.
  unfold generateSeoContent, popularList.
  now rewrite popularItems_slice, relatedNote_slice.
Qed.

Lemma generateSeoContent_part_000_slice (keyword : string) (related : list Emoji.t) :
  generateSeoContent_part_000 keyword (slice0 10 related) =
  generateSeoContent_part_000 keyword related.
Proof.
  unfold generateSeoContent_part_000, popularList.
  now rewrite popularItems_slice, relatedNote_slice.
Qed.

End TemplateFacts.

(** C10. The markdown document lists at most the first 10 related emojis:
    the Popular list and the related-emoji samples have at most 10
    entries, built from the first 10 emojis, and the whole document
    (either revision) is the one generated from the first 10 alone,
    while the page record written by the generation routes keeps the
    glyphs of the first 20. *)
Theorem generateSeoContent_lists_first_ten :
  forall (keyword : string) (relatedEmojis : list Emoji.t),
    (length (popularItems keyword relatedEmojis) <= 10)%nat /\
    (length (sampleItems relatedEmojis) <= 10)%nat /\
    popularItems keyword relatedEmojis = popularItems keyword (firstn 10 relatedEmojis) /\
    sampleItems relatedEmojis = sampleItems (firstn 10 relatedEmojis) /\
    generateSeoContent keyword relatedEmojis =
    generateSeoContent keyword (firstn 10 relatedEmojis) /\
    generateSeoContent_part_000 keyword relatedEmojis =
    generateSeoContent_part_000 keyword (firstn 10 relatedEmojis) /\
    PageUpdate.content (generatedFields generateSeoContent keyword relatedEmojis) =
    Some (generateSeoContent keyword (firstn 10 relatedEmojis)) /\
    PageUpdate.relatedEmojis (generatedFields generateSeoContent keyword relatedEmojis) =
    Some (map Emoji.emoji (firstn 20 relatedEmojis)).
Proof.
  intros keyword relatedEmojis.
  change (firstn 10 relatedEmojis) with (slice0 10 relatedEmojis).
  rewrite TemplateFacts.popularItems_slice, TemplateFacts.sampleItems_slice,
    TemplateFacts.generateSeoContent_slice,
    TemplateFacts.generateSeoContent_part_000_slice.
  repeat split.
  - unfold popularItems. rewrite length_map. apply TemplateFacts.slice0_length.
  - unfold sampleItems. rewrite length_map. apply TemplateFacts.slice0_length.
Qed.

(** ** The generate route *)

Example postGenerate_new_keyword_calls :
  calls (snd (postGenerate MemStorage.storage generateSeoContent
                           (Some "Fire!") (mkWorld MemStorage.empty []))) =
  [ CallGetPageBySlug "fire";
    CallGetEmojis (Some "Fire!") None;
    CallCreatePage (newPage generateSeoContent "Fire!" []) ].
Proof. reflexivity. Qed.

Example postGenerate_new_keyword_status :
  option_map status
    (match fst (postGenerate MemStorage.storage generateSeoContent
                             (Some "Fire!") (mkWorld MemStorage.empty [])) with
     | inr r => Some r
     | inl _ => None
     end) = Some 201%Z.
Proof. reflexivity. Qed.

(** C6. POST /api/pages/generate with a missing keyword (absent from the
    body, or the empty string) answers 400 and does nothing else: the
    store and the log of storage calls are the ones it started with, so
    there was no page lookup, no emoji fetch and no store write. *)
Theorem postGenerate_missing_keyword :
  forall (S : Type) (storage : Storage S)
         (render : string -> list Emoji.t -> string) (w : World S),
    postGenerate storage render None w =
      (inr (mkResponse 400 (Message "Keyword is required")), w) /\
    postGenerate storage render (Some EmptyString) w =
      (inr (mkResponse 400 (Message "Keyword is required")), w).
Proof. intros S storage render w. split; reflexivity. Qed.

(** C1. The generate route is idempotent once a page is marked generated:
    for a keyword (non-empty, as the route requires) whose slug resolves
    to a page with [isGenerated = true], the route answers with that
    page as it is, the store is unchanged and the only storage call is
    the slug lookup (no update, no create). *)
Theorem postGenerate_idempotent :
  forall (S : Type) (storage : Storage S)
         (render : string -> list Emoji.t -> string)
         (keyword : string) (w : World S) (page : SeoPage.t),
    keyword <> EmptyString ->
    getPageBySlug storage (slugify keyword) (store w) = inr (Some page) ->
    SeoPage.isGenerated page = true ->
    postGenerate storage render (Some keyword) w =
      (inr (mkResponse 200 (PageJson (Some page))),
       mkWorld (store w) (calls w ++ [CallGetPageBySlug (slugify keyword)])) /\
    writes [CallGetPageBySlug (slugify keyword)] = [].
Proof.
  intros S storage render keyword w page Hk Hpage Hgen.
  split; [|reflexivity].
  destruct keyword as [|c r]; [congruence|].
  unfold postGenerate, tryCatch, bind, query, json, ret, logCall.
  cbn [store calls]. rewrite Hpage. cbn [alreadyGenerated]. rewrite Hgen.
  reflexivity.
Qed.

Lemma postGenerate_idempotent_witness :
  postGenerate MemStorage.storage generateSeoContent (Some "Heart Emoji") sampleWorld =
    (inr (mkResponse 200 (PageJson (Some heartPage))),
     mkWorld sampleStore [CallGetPageBySlug "heart-emoji"]) /\
  writes [CallGetPageBySlug "heart-emoji"] = [].
Proof.
  apply (postGenerate_idempotent MemStorage.Store MemStorage.storage generateSeoContent
           "Heart Emoji" sampleWorld heartPage).
  - discriminate.
  - reflexivity.
  - reflexivity.
Defined.

(** C5, as the specification words it, fails: the search term is not the
    keyword without a trailing suffix.  For the keyword
    "heart emoji meaning" the route searches "heart meaning", while
    removing a trailing suffix leaves the keyword as it is. *)
Lemma postGenerate_search_term_not_trailing :
  searchTerms
    (calls (snd (postGenerate MemStorage.storage generateSeoContent
                              (Some "heart emoji meaning") sampleWorld))) =
    [Some "heart meaning"] /\
  withoutTrailingSuffix " emoji" "heart emoji meaning" = "heart emoji meaning" /\
  withoutTrailingSuffix " emoji" "heart emoji" = "heart" /\
  [Some "heart meaning"] <>
  [Some (withoutTrailingSuffix " emoji" "heart emoji meaning")].
Proof.
  split; [reflexivity|]. split; [reflexivity|]. split; [reflexivity|].
  discriminate.
Qed.

(** C5, amended. For a non-empty keyword that is not already generated,
    the generate route fetches the emojis matching the keyword with its
    first occurrence of " emoji" removed (wherever it is), takes the
    glyphs of the first 20 matches, renders the markdown from the
    keyword and the matches, and persists the result with
    [isGenerated = true]: it updates the existing stub and answers 200
    with the updated page, or creates a new page and answers 201 with
    it (500 when the write is rejected). *)
Theorem postGenerate_generates :
  forall (S : Type) (storage : Storage S)
         (render : string -> list Emoji.t -> string)
         (keyword : string) (w : World S)
         (existingPage : option SeoPage.t) (allEmojis : list Emoji.t),
    keyword <> EmptyString ->
    getPageBySlug storage (slugify keyword) (store w) = inr existingPage ->
    alreadyGenerated existingPage = false ->
    getEmojis storage (Some (Js.removeFirst " emoji" keyword)) None (store w) = inr allEmojis ->
    let relatedGlyphs := map Emoji.emoji (firstn 20 allEmojis) in
    let content := render keyword allEmojis in
    let reads := [ CallGetPageBySlug (slugify keyword);
                   CallGetEmojis (Some (Js.removeFirst " emoji" keyword)) None ] in
    match existingPage with
    | Some stub =>
        let data := PageUpdate.mk None None (Some content) (Some relatedGlyphs) (Some true) in
        let log := (calls w ++ reads ++ [CallUpdatePage (SeoPage.id stub) data])%list in
        postGenerate storage render (Some keyword) w =
          match updatePage storage (SeoPage.id stub) data (store w) with
          | inr (updated, s') => (inr (mkResponse 200 (PageJson updated)), mkWorld s' log)
          | inl _ => (inr (mkResponse 500 (Message "Failed to generate page")),
                      mkWorld (store w) log)
          end
    | None =>
        let page :=
          InsertSeoPage.mk (slugify keyword) (titleCase keyword ++ " - Copy & Paste") keyword
            ("Copy and paste " ++ keyword ++ " instantly! Find the best " ++ keyword ++
             " for messages, social media, and more.")
            (Some content) (Some relatedGlyphs) true in
        let log := (calls w ++ reads ++ [CallCreatePage page])%list in
        postGenerate storage render (Some keyword) w =
          match createPage storage page (store w) with
          | inr (created, s') => (inr (mkResponse 201 (PageJson (Some created))), mkWorld s' log)
          | inl _ => (inr (mkResponse 500 (Message "Failed to generate page")),
                      mkWorld (store w) log)
          end
    end.
Proof.
  intros S storage render keyword w existingPage allEmojis Hk Hpage Hgen Hemojis.
  destruct keyword as [|c r]; [congruence|].
  unfold postGenerate, tryCatch, bind, query, mutate, json, ret, logCall, cleanKeyword.
  cbn [store calls]. rewrite Hpage, Hgen. cbn [store calls]. rewrite Hemojis.
  destruct existingPage as [stub|]; cbn zeta.
  - unfold generatedFields, slice0. cbn [store calls].
    destruct (updatePage storage _ _ (store w)) as [e|[updated s']];
      rewrite <- !app_assoc; reflexivity.
  - unfold newPage, slice0. cbn [store calls].
    destruct (createPage storage _ (store w)) as [e|[created s']];
      rewrite <- !app_assoc; reflexivity.
Qed.

Lemma postGenerate_generates_witness :
  exists (updated : SeoPage.t) (s' : MemStorage.Store),
    postGenerate MemStorage.storage generateSeoContent (Some "fire emoji") sampleWorld =
      (inr (mkResponse 200 (PageJson (Some updated))),
       mkWorld s'
         [ CallGetPageBySlug "fire-emoji";
           CallGetEmojis (Some "fire") None;
           CallUpdatePage 2 (generatedFields generateSeoContent "fire emoji" [fire]) ]) /\
    SeoPage.isGenerated updated = true /\
    SeoPage.relatedEmojis updated = Some ["^^"] /\
    SeoPage.content updated = Some (generateSeoContent "fire emoji" [fire]) /\
    MemStorage.getPageBySlug "fire-emoji" s' = inr (Some updated).
Proof.
  pose proof (postGenerate_generates MemStorage.Store MemStorage.storage generateSeoContent
                "fire emoji" sampleWorld (Some fireStub) [fire]) as H.
  cbv zeta in H. rewrite H.
  - eexists. eexists. repeat split.
  - discriminate.
  - reflexivity.
  - reflexivity.
  - reflexivity.
Defined.

(** ** The seed routine *)

(** C9. The seed routine populates the stores at most once: when the
    emoji count it reads is greater than zero, [seedDatabase] returns
    after that one read; nothing is inserted, and the catalog store and
    the page store are the ones it started with. *)
Theorem seedDatabase_skips_when_seeded :
  forall (S : Type) (storage : Storage S)
         (EMOJI_DATA : list InsertEmoji.t) (TOP_KEYWORDS : list string)
         (generateSeoPages : list string -> list InsertSeoPage.t)
         (w : World S) (count : Z),
    getEmojiCount storage (store w) = inr count ->
    (count > 0)%Z ->
    seedDatabase storage EMOJI_DATA TOP_KEYWORDS generateSeoPages w =
      (inr tt, mkWorld (store w) (calls w ++ [CallGetEmojiCount])) /\
    writes [CallGetEmojiCount] = [].
Proof.
  intros S storage EMOJI_DATA TOP_KEYWORDS generateSeoPages w count Hcount Hpos.
  split; [|reflexivity].
  unfold seedDatabase, bind, query, ret, logCall. cbn [store calls].
  rewrite Hcount.
  assert (Hgt : (count >? 0)%Z = true) by (apply Z.gtb_lt; lia).
  rewrite Hgt. reflexivity.
Qed.

(** ** The copy route *)

Example patchPage_unknown_id_answers_404 :
  patchPage MemStorage.storage 999 (Some "New title") None None sampleWorld =
    (inr (mkResponse 404 (Message "Page not found")),
     mkWorld sampleStore
       [CallUpdatePage 999 (PageUpdate.mk (Some "New title") None None None None)]).
Proof. reflexivity. Qed.

(** C2, the divergence. The copy route has no not-found branch: whenever
    it answers, it answers 200 with whatever [incrementCopyCount]
    returned.  On the sample store, which has no emoji 999, POST
    /api/emojis/999/copy answers 200 with an undefined [copyCount] and
    leaves the store unchanged, where the claim has not-found signalled
    to the caller (as GET /api/emojis/:slug and PATCH /api/pages/:id do
    with a 404). *)
Theorem postCopy_unknown_id_answers_200 :
  (forall (S : Type) (storage : Storage S) (id : Z) (w : World S),
      match fst (postCopy storage id w) with
      | inr response => status response = 200%Z
      | inl _ => True
      end) /\
  postCopy MemStorage.storage 999 sampleWorld =
    (inr (mkResponse 200 (CopyCountJson None)),
     mkWorld sampleStore [CallIncrementCopyCount 999]) /\
  postCopy MemStorage.storage 2 sampleWorld =
    (inr (mkResponse 200 (CopyCountJson (Some 5%Z))),
     mkWorld (MemStorage.mkStore [heart; MemStorage.bump fire] [heartPage; fireStub] 3 3)
             [CallIncrementCopyCount 2]).
Proof.
  split; [|split; reflexivity].
  intros S storage id w.
  unfold postCopy, bind, mutate, json, ret.
  destruct (incrementCopyCount storage id (store w)) as [e|[copyCount s']]; exact I || reflexivity.
Qed.

Lemma seedDatabase_skips_when_seeded_witness :
  seedDatabase MemStorage.storage sampleEmojiData ["heart emoji"; "fire emoji"]
               sampleSeoPages sampleWorld =
    (inr tt, mkWorld sampleStore [CallGetEmojiCount]) /\
  writes [CallGetEmojiCount] = [].
Proof.
  apply (seedDatabase_skips_when_seeded MemStorage.Store MemStorage.storage
           sampleEmojiData ["heart emoji"; "fire emoji"] sampleSeoPages sampleWorld 2%Z).
  - reflexivity.
  - lia.
Defined.

(** ** The generate-batch route on the in-memory store *)

Module BatchFacts.

Lemma In_firstn {A : Type} (n : nat) (l : list A) (x : A) :
  In x (firstn n l) -> In x l.
Proof.
  revert l. induction n as [|n IH]; intros [|a l]; simpl; try tauto.
  intros [H|H]; [now left | right; now apply IH].
Qed.

Lemma NoDup_map_filter {A B : Type} (f : A -> B) (g : A -> bool) (l : list A) :
  NoDup (map f l) -> NoDup (map f (filter g l)).
Proof.
  induction l as [|a l IH]; simpl; intros H; [constructor|].
  apply NoDup_cons_iff in H. destruct H as [Hin Hnd].
  destruct (g a); simpl; [|now apply IH].
  constructor; [|now apply IH].
  intros Hf. apply Hin. apply in_map_iff in Hf. destruct Hf as [x [Hx Hxin]].
  apply filter_In in Hxin. apply in_map_iff. exists x. tauto.
Qed.

Lemma NoDup_map_firstn {A B : Type} (f : A -> B) (n : nat) (l : list A) :
  NoDup (map f l) -> NoDup (map f (firstn n l)).
Proof.
  intros H. rewrite <- (firstn_skipn n l), map_app in H.
  now apply NoDup_app_remove_r in H.
Qed.

Lemma update_ids (i : Z) (u : PageUpdate.t) (ps : list SeoPage.t) :
  map SeoPage.id (MemStorage.pagesAfterUpdate i u ps) = map SeoPage.id ps.
Proof.
  unfold MemStorage.pagesAfterUpdate. rewrite map_map. apply map_ext.
  intros p. destruct (MemStorage.hasPageId i p); reflexivity.
Qed.

Lemma update_other (i : Z) (u : PageUpdate.t) (ps : list SeoPage.t) (q : SeoPage.t) :
  In q ps -> SeoPage.id q <> i -> In q (MemStorage.pagesAfterUpdate i u ps).
Proof.
  intros Hin Hne. apply in_map_iff. exists q. split; [|exact Hin].
  unfold MemStorage.hasPageId. destruct (Z.eqb_spec (SeoPage.id q) i); [contradiction|reflexivity].
Qed.

Lemma update_absent (i : Z) (u : PageUpdate.t) (ps : list SeoPage.t) :
  ~ In i (map SeoPage.id ps) -> MemStorage.pagesAfterUpdate i u ps = ps.
Proof.
  intros Hnot. unfold MemStorage.pagesAfterUpdate.
  rewrite <- (map_id ps) at 2. apply map_ext_in.
  intros p Hp. unfold MemStorage.hasPageId.
  destruct (Z.eqb_spec (SeoPage.id p) i) as [E|E]; [|reflexivity].
  exfalso. apply Hnot. rewrite <- E. now apply in_map.
Qed.

Lemma update_keeps_generated (i j : Z) (u : PageUpdate.t) (ps : list SeoPage.t) :
  PageUpdate.isGenerated u = Some true ->
  (forall q, In q ps -> SeoPage.id q = j -> SeoPage.isGenerated q = true) ->
  forall q, In q (MemStorage.pagesAfterUpdate i u ps) -> SeoPage.id q = j ->
            SeoPage.isGenerated q = true.
Proof.
  intros Hu Hps q Hq Hj. apply in_map_iff in Hq. destruct Hq as [p [Hp Hin]].
  destruct (MemStorage.hasPageId i p); subst q.
  - simpl. rewrite Hu. reflexivity.
  - now apply Hps.
Qed.

Lemma update_marks (i : Z) (u : PageUpdate.t) (ps : list SeoPage.t) :
  PageUpdate.isGenerated u = Some true ->
  forall q, In q (MemStorage.pagesAfterUpdate i u ps) -> SeoPage.id q = i ->
            SeoPage.isGenerated q = true.
Proof.
  intros Hu q Hq Hi. apply in_map_iff in Hq. destruct Hq as [p [Hp Hin]].
  destruct (MemStorage.hasPageId i p) eqn:E; subst q.
  - simpl. rewrite Hu. reflexivity.
  - unfold MemStorage.hasPageId in E. apply Z.eqb_neq in E. contradiction.
Qed.

(** One update of an MemStorage.ungenerated page takes exactly one page out of the
    MemStorage.ungenerated ones, when ids are unique. *)
Lemma update_count (p : SeoPage.t) (u : PageUpdate.t) (ps : list SeoPage.t) :
  NoDup (map SeoPage.id ps) ->
  In p ps ->
  SeoPage.isGenerated p = false ->
  PageUpdate.isGenerated u = Some true ->
  (length (filter MemStorage.ungenerated (MemStorage.pagesAfterUpdate (SeoPage.id p) u ps)) + 1 =
   length (filter MemStorage.ungenerated ps))%nat.
Proof.
  intros Hnd Hin Hp Hu. induction ps as [|a ps IH]; [contradiction|].
  simpl in Hnd. apply NoDup_cons_iff in Hnd. destruct Hnd as [Ha Hnd].
  change (MemStorage.pagesAfterUpdate (SeoPage.id p) u (a :: ps))
    with ((if MemStorage.hasPageId (SeoPage.id p) a then MemStorage.applyUpdate u a else a)
            :: MemStorage.pagesAfterUpdate (SeoPage.id p) u ps).
  unfold MemStorage.hasPageId at 1.
  destruct (Z.eqb_spec (SeoPage.id a) (SeoPage.id p)) as [E|E].
  - assert (a = p).
    { destruct Hin as [H|H]; [exact H|].
      exfalso. apply Ha. rewrite E. now apply in_map. }
    subst a. rewrite update_absent by exact Ha.
    assert (H1 : MemStorage.ungenerated (MemStorage.applyUpdate u p) = false)
      by (unfold MemStorage.ungenerated; simpl; rewrite Hu; reflexivity).
    assert (H2 : MemStorage.ungenerated p = true) by (unfold MemStorage.ungenerated; now rewrite Hp).
    simpl. rewrite H1, H2. simpl. lia.
  - destruct Hin as [H|H]; [subst a; contradiction|].
    specialize (IH Hnd H). simpl.
    destruct (MemStorage.ungenerated a); simpl; lia.
Qed.

Section Batch.

Variable fields : SeoPage.t -> PageUpdate.t.
Hypothesis fields_generated : forall p, PageUpdate.isGenerated (fields p) = Some true.

Lemma batch_ids (batch ps : list SeoPage.t) :
  map SeoPage.id (pagesAfterBatch fields batch ps) = map SeoPage.id ps.
Proof.
  revert ps. induction batch as [|p rest IH]; intros ps; simpl; [reflexivity|].
  rewrite IH. apply update_ids.
Qed.

Lemma batch_keeps_generated (j : Z) (batch ps : list SeoPage.t) :
  (forall q, In q ps -> SeoPage.id q = j -> SeoPage.isGenerated q = true) ->
  forall q, In q (pagesAfterBatch fields batch ps) -> SeoPage.id q = j ->
            SeoPage.isGenerated q = true.
Proof.
  revert ps. induction batch as [|p rest IH]; intros ps Hps; simpl; [exact Hps|].
  apply IH. now apply update_keeps_generated.
Qed.

Lemma batch_marks (batch ps : list SeoPage.t) (q : SeoPage.t) :
  In q (pagesAfterBatch fields batch ps) ->
  In (SeoPage.id q) (map SeoPage.id batch) ->
  SeoPage.isGenerated q = true.
Proof.
  revert ps. induction batch as [|p rest IH]; intros ps Hq Hid; [contradiction|].
  simpl in Hq, Hid. destruct Hid as [Hid|Hid].
  - apply (batch_keeps_generated (SeoPage.id p) rest _
             (update_marks _ _ ps (fields_generated p)) q Hq).
    now symmetry.
  - now apply (IH _ Hq).
Qed.

Lemma batch_count (batch ps : list SeoPage.t) :
  NoDup (map SeoPage.id ps) ->
  NoDup (map SeoPage.id batch) ->
  (forall p, In p batch -> In p ps /\ SeoPage.isGenerated p = false) ->
  (length (filter MemStorage.ungenerated (pagesAfterBatch fields batch ps)) + length batch =
   length (filter MemStorage.ungenerated ps))%nat.
Proof.
  revert ps. induction batch as [|p rest IH]; intros ps Hps Hbatch Hin; simpl.
  - lia.
  - apply NoDup_cons_iff in Hbatch. destruct Hbatch as [Hp Hrest].
    destruct (Hin p (or_introl eq_refl)) as [Hpin Hpgen].
    rewrite <- (update_count p (fields p) ps Hps Hpin Hpgen (fields_generated p)).
    rewrite <- (IH (MemStorage.pagesAfterUpdate (SeoPage.id p) (fields p) ps)).
    + lia.
    + now rewrite update_ids.
    + exact Hrest.
    + intros q Hq. destruct (Hin q (or_intror Hq)) as [Hqin Hqgen].
      split; [|exact Hqgen].
      apply update_other; [exact Hqin|].
      intros E. apply Hp. rewrite <- E. now apply in_map.
Qed.

End Batch.

Lemma batchFields_generated (render : string -> list Emoji.t -> string)
    (es : list Emoji.t) (p : SeoPage.t) :
  PageUpdate.isGenerated (batchFields render es p) = Some true.
Proof. reflexivity. Qed.

Lemma markedGenerated_batchCalls (render : string -> list Emoji.t -> string)
    (es : list Emoji.t) (batch : list SeoPage.t) :
  markedGenerated (batchCalls render es batch) = map SeoPage.id batch.
Proof.
  induction batch as [|p rest IH]; [reflexivity|].
  simpl. f_equal. exact IH.
Qed.

(** The loop of the batch route, run on the in-memory store. *)
Lemma generateEach_mem (render : string -> list Emoji.t -> string)
    (es : list Emoji.t) (ne np : Z) (batch : list SeoPage.t) :
  forall (generated : Z) (ps : list SeoPage.t) (cs : list Call),
    generateEach MemStorage.storage render batch generated (mkWorld (MemStorage.mkStore es ps ne np) cs) =
      (inr (generated + Z.of_nat (length batch))%Z,
       mkWorld (MemStorage.mkStore es (pagesAfterBatch (batchFields render es) batch ps) ne np)
               (cs ++ batchCalls render es batch)).
Proof.
  induction batch as [|p rest IH]; intros generated ps cs.
  - simpl. unfold ret. rewrite app_nil_r, Z.add_0_r. reflexivity.
  - cbn [generateEach]. unfold bind at 1. unfold query at 1.
    cbn [store calls getEmojis MemStorage.storage MemStorage.getEmojis MemStorage.emojis].
    unfold bind at 1. unfold mutate at 1.
    cbn [store calls updatePage MemStorage.storage MemStorage.updatePage
         MemStorage.emojis MemStorage.pages MemStorage.nextEmojiId MemStorage.nextPageId].
    rewrite IH. unfold logCall. cbn [calls].
    rewrite <- !app_assoc.
    replace (generated + 1 + Z.of_nat (length rest))%Z
      with (generated + Z.of_nat (length (p :: rest)))%Z
      by (cbn [length]; lia).
    reflexivity.
Qed.

End BatchFacts.

Example postGenerateBatch_sample :
  fst (postGenerateBatch MemStorage.storage generateSeoContent sampleWorld) =
  inr (mkResponse 200 (GeneratedJson 1)).
Proof. reflexivity. Qed.

(** C3. The batch route generates at most 5 pages per call.  On a store
    whose page ids are unique it asks for up to 5 pages that are not
    generated, gets the first (at most 5) of them, writes each one back
    with [isGenerated = true] (one [updatePage] per fetched page, in
    order), and answers 200 with [generated] equal to that number, which
    is exactly the number of pages that went from not generated to
    generated in the call; the emoji table is untouched. *)
Theorem postGenerateBatch_at_most_five :
  forall (render : string -> list Emoji.t -> string)
         (s : MemStorage.Store) (cs : list Call),
    NoDup (map SeoPage.id (MemStorage.pages s)) ->
    let batch := firstn 5 (filter MemStorage.ungenerated (MemStorage.pages s)) in
    exists (s' : MemStorage.Store) (loop : list Call),
      postGenerateBatch MemStorage.storage render (mkWorld s cs) =
        (inr (mkResponse 200 (GeneratedJson (Z.of_nat (length batch)))),
         mkWorld s' (cs ++ CallGetUngeneratedPages 5 :: loop)) /\
      (length batch <= 5)%nat /\
      (forall p, In p batch ->
                 In p (MemStorage.pages s) /\ SeoPage.isGenerated p = false) /\
      markedGenerated loop = map SeoPage.id batch /\
      map SeoPage.id (MemStorage.pages s') = map SeoPage.id (MemStorage.pages s) /\
      (forall q, In q (MemStorage.pages s') ->
                 In (SeoPage.id q) (map SeoPage.id batch) ->
                 SeoPage.isGenerated q = true) /\
      (length (filter MemStorage.ungenerated (MemStorage.pages s')) + length batch =
       length (filter MemStorage.ungenerated (MemStorage.pages s)))%nat /\
      MemStorage.emojis s' = MemStorage.emojis s.
Proof.
  intros render [es ps ne np] cs Hnd batch. cbn [MemStorage.pages] in Hnd, batch.
  set (fields := batchFields render es).
  exists (MemStorage.mkStore es (pagesAfterBatch fields batch ps) ne np).
  exists (batchCalls render es batch).
  assert (Hbatch : forall p, In p batch -> In p ps /\ SeoPage.isGenerated p = false).
  { intros p Hp. apply BatchFacts.In_firstn, filter_In in Hp.
    destruct Hp as [Hin Hun]. split; [exact Hin|].
    unfold MemStorage.ungenerated in Hun. now apply negb_true_iff in Hun. }
  cbn [MemStorage.pages MemStorage.emojis].
  repeat split.
  - unfold postGenerateBatch, tryCatch, bind at 1.
    unfold bind at 1. unfold query at 1.
    cbn [store calls getUngeneratedPages MemStorage.storage
         MemStorage.getUngeneratedPages MemStorage.pages].
    change (Z.to_nat 5) with 5%nat. fold batch.
    rewrite BatchFacts.generateEach_mem. unfold json, ret, logCall. cbn [calls].
    rewrite <- app_assoc. reflexivity.
  - apply firstn_le_length.
  - now apply Hbatch.
  - now apply Hbatch.
  - apply BatchFacts.markedGenerated_batchCalls.
  - apply BatchFacts.batch_ids.
  - intros q. apply BatchFacts.batch_marks.
    intros p. apply BatchFacts.batchFields_generated.
  - apply BatchFacts.batch_count.
    + intros p. apply BatchFacts.batchFields_generated.
    + exact Hnd.
    + now apply BatchFacts.NoDup_map_firstn, BatchFacts.NoDup_map_filter.
    + exact Hbatch.
Qed.

Lemma postGenerateBatch_at_most_five_witness :
  exists (s' : MemStorage.Store) (loop : list Call),
    postGenerateBatch MemStorage.storage generateSeoContent sampleWorld =
      (inr (mkResponse 200 (GeneratedJson 1)),
       mkWorld s' (CallGetUngeneratedPages 5 :: loop)) /\
    markedGenerated loop = [2%Z] /\
    map SeoPage.id (MemStorage.pages s') = [1%Z; 2%Z] /\
    (length (filter MemStorage.ungenerated (MemStorage.pages s')) + 1 = 1)%nat.
Proof.
  assert (Hnd : NoDup (map SeoPage.id (MemStorage.pages sampleStore))).
  { simpl. repeat constructor; simpl; intuition discriminate. }
  destruct (postGenerateBatch_at_most_five generateSeoContent sampleStore [] Hnd)
    as [s' [loop [Hrun [_ [_ [Hmarked [Hids [_ [Hcount _]]]]]]]]].
  exists s', loop. repeat split; assumption.
Defined.

(** ** Seeding the in-memory store *)

Example seedDatabase_sample_pages :
  map SeoPage.slug
    (MemStorage.pages
       (store (snd (seedDatabase MemStorage.storage sampleEmojiData
                      ["heart emoji"; "fire emoji"; "Fire Emoji"; "star emoji"]
                      sampleSeoPages (mkWorld unseededStore []))))) =
  ["fire-emoji"; "heart-emoji"; "star-emoji"].
Proof. reflexivity. Qed.

Module SeedFacts.

(** Whatever the storage does, the loop over the stubs completes: a
    rejected [createPage] is caught and the loop goes on. *)
Lemma seedPageStubs_completes {S : Type} (storage : Storage S)
    (stubs : list InsertSeoPage.t) :
  forall w : World S, exists w' : World S, seedPageStubs storage stubs w = (inr tt, w').
Proof.
  induction stubs as [|stub rest IH]; intros w.
  - exists w. reflexivity.
  - cbn [seedPageStubs]. unfold bind at 1. unfold tryCatch, bind, mutate, ret.
    destruct (createPage storage stub (store w)) as [e|[page s']]; apply IH.
Qed.

Lemma seedPagesSpec_cons (stub : InsertSeoPage.t) (rest : list InsertSeoPage.t)
    (s : MemStorage.Store) :
  seedPagesSpec (stub :: rest) s = seedPagesSpec rest (insertUnlessTaken s stub).
Proof. reflexivity. Qed.

(** On the in-memory store the loop over the stubs is [seedPagesSpec]:
    every stub is attempted, the ones whose slug is taken change nothing. *)
Lemma seedPageStubs_mem (stubs : list InsertSeoPage.t) :
  forall (s : MemStorage.Store) (cs : list Call),
    seedPageStubs MemStorage.storage stubs (mkWorld s cs) =
      (inr tt, mkWorld (seedPagesSpec stubs s) (cs ++ map CallCreatePage stubs)).
Proof.
  induction stubs as [|stub rest IH]; intros s cs.
  - simpl. unfold ret, seedPagesSpec. simpl. now rewrite app_nil_r.
  - rewrite seedPagesSpec_cons. cbn [seedPageStubs map].
    unfold bind at 1. unfold tryCatch, bind, mutate, ret, logCall.
    cbn [store calls createPage MemStorage.storage].
    unfold insertUnlessTaken, MemStorage.createPage.
    destruct (MemStorage.slugTaken (InsertSeoPage.slug stub) s);
      rewrite IH, <- app_assoc; reflexivity.
Qed.

(** The emoji batches always complete on the in-memory store and leave
    the page table alone. *)
Lemma seedEmojiBatches_mem (EMOJI_DATA : list InsertEmoji.t) (i : nat) :
  forall (s : MemStorage.Store) (cs : list Call),
  exists (s' : MemStorage.Store) (cs' : list Call),
    seedEmojiBatches MemStorage.storage EMOJI_DATA i (mkWorld s cs) =
      (inr tt, mkWorld s' (cs ++ cs')) /\
    MemStorage.pages s' = MemStorage.pages s /\
    MemStorage.nextPageId s' = MemStorage.nextPageId s.
Proof.
  apply (seedEmojiBatches_elim MemStorage.storage EMOJI_DATA
           (fun i m =>
              forall s cs, exists s' cs',
                m (mkWorld s cs) = (inr tt, mkWorld s' (cs ++ cs')) /\
                MemStorage.pages s' = MemStorage.pages s /\
                MemStorage.nextPageId s' = MemStorage.nextPageId s)).
  - intros j Hlt IH _ s cs.
    unfold bind, mutate, logCall.
    cbn [store calls createEmojis MemStorage.storage MemStorage.createEmojis].
    match goal with
    | |- context [seedEmojiBatches _ _ _ (mkWorld ?s1 ?cs1)] =>
        destruct (IH tt (mkWorld s1 cs1) s1 cs1) as [s' [cs' [Hrun [Hp Hn]]]]
    end.
    exists s', (CallCreateEmojis (batchAt EMOJI_DATA j 50) :: cs').
    rewrite Hrun. split; [now rewrite <- app_assoc|].
    split; [exact Hp | exact Hn].
  - intros j Hge _ s cs. exists s, []. unfold ret. rewrite app_nil_r. auto.
Qed.

(** [seedPagesSpec] looks at the page table and the page counter only. *)
Lemma seedPagesSpec_pages (stubs : list InsertSeoPage.t) :
  forall s1 s2 : MemStorage.Store,
    MemStorage.pages s1 = MemStorage.pages s2 ->
    MemStorage.nextPageId s1 = MemStorage.nextPageId s2 ->
    MemStorage.pages (seedPagesSpec stubs s1) = MemStorage.pages (seedPagesSpec stubs s2).
Proof.
  induction stubs as [|stub rest IH]; intros s1 s2 Hp Hn; [exact Hp|].
  rewrite !seedPagesSpec_cons. apply IH.
  - unfold insertUnlessTaken, MemStorage.slugTaken.
    rewrite Hp, Hn. destruct (existsb _ _); [exact Hp | reflexivity].
  - unfold insertUnlessTaken, MemStorage.slugTaken.
    rewrite Hp, Hn. destruct (existsb _ _); [exact Hn | reflexivity].
Qed.

(** The pages the store had stay where they were. *)
Lemma seedPagesSpec_keeps (stubs : list InsertSeoPage.t) :
  forall s : MemStorage.Store,
  exists added : list SeoPage.t,
    MemStorage.pages (seedPagesSpec stubs s) = (MemStorage.pages s ++ added)%list.
Proof.
  induction stubs as [|stub rest IH]; intros s.
  - exists []. now rewrite app_nil_r.
  - rewrite seedPagesSpec_cons. destruct (IH (insertUnlessTaken s stub)) as [added Hadded].
    rewrite Hadded. unfold insertUnlessTaken.
    destruct (MemStorage.slugTaken _ s).
    + now exists added.
    + cbn [MemStorage.pages]. rewrite <- app_assoc. now eexists.
Qed.

Lemma slugTaken_keeps (slug : string) (stubs : list InsertSeoPage.t) (s : MemStorage.Store) :
  MemStorage.slugTaken slug s = true ->
  MemStorage.slugTaken slug (seedPagesSpec stubs s) = true.
Proof.
  unfold MemStorage.slugTaken. destruct (seedPagesSpec_keeps stubs s) as [added ->].
  rewrite existsb_app. now intros ->.
Qed.

(** After the loop the store has a page for the slug of every stub. *)
Lemma seedPagesSpec_slugs (stubs : list InsertSeoPage.t) :
  forall (s : MemStorage.Store) (stub : InsertSeoPage.t),
    In stub stubs ->
    MemStorage.slugTaken (InsertSeoPage.slug stub) (seedPagesSpec stubs s) = true.
Proof.
  induction stubs as [|first rest IH]; intros s stub Hin; [contradiction|].
  rewrite seedPagesSpec_cons. destruct Hin as [->|Hin]; [|now apply IH].
  apply slugTaken_keeps.
  unfold insertUnlessTaken.
  destruct (MemStorage.slugTaken (InsertSeoPage.slug stub) s) eqn:E; [exact E|].
  unfold MemStorage.slugTaken. cbn [MemStorage.pages]. rewrite existsb_app.
  simpl. unfold MemStorage.hasSlug. simpl. rewrite String.eqb_refl.
  now rewrite orb_true_r.
Qed.

End SeedFacts.

(** C8. During seeding, creating a page whose slug the page store
    already has is a no-op: the rejection is caught, the store is left
    as it was and the loop goes on with the remaining stubs.  Whatever
    the storage does, the loop over the stubs completes without an
    error; on the in-memory store, where a duplicate slug is rejected,
    [seedDatabase] started on an empty emoji table returns normally,
    attempts every stub, and its page table is the one [seedPagesSpec]
    describes: the pages that were there, then one new row for each
    stub whose slug was not taken, so that every stub's slug has a page
    at the end. *)
Theorem seedDatabase_ignores_duplicate_slugs :
  forall (EMOJI_DATA : list InsertEmoji.t) (TOP_KEYWORDS : list string)
         (generateSeoPages : list string -> list InsertSeoPage.t)
         (s : MemStorage.Store) (cs : list Call),
    MemStorage.emojis s = [] ->
    let stubs := generateSeoPages TOP_KEYWORDS in
    (forall (S : Type) (storage : Storage S) (w : World S),
        exists w' : World S, seedPageStubs storage stubs w = (inr tt, w')) /\
    exists (s' : MemStorage.Store) (batches : list Call),
      seedDatabase MemStorage.storage EMOJI_DATA TOP_KEYWORDS generateSeoPages
                   (mkWorld s cs) =
        (inr tt,
         mkWorld s' (cs ++ CallGetEmojiCount :: batches ++ map CallCreatePage stubs)) /\
      MemStorage.pages s' = MemStorage.pages (seedPagesSpec stubs s) /\
      (exists added : list SeoPage.t,
          MemStorage.pages s' = (MemStorage.pages s ++ added)%list) /\
      (forall stub : InsertSeoPage.t,
          In stub stubs -> MemStorage.slugTaken (InsertSeoPage.slug stub) s' = true).
Proof.
  intros EMOJI_DATA TOP_KEYWORDS generateSeoPages s cs Hempty stubs.
  split; [intros S storage w; apply SeedFacts.seedPageStubs_completes|].
  destruct (SeedFacts.seedEmojiBatches_mem EMOJI_DATA 0 s (cs ++ [CallGetEmojiCount]))
    as [mid [batches [Hrun [Hpages Hnext]]]].
  exists (seedPagesSpec stubs mid), batches.
  split; [|split; [|split]].
  - unfold seedDatabase, bind at 1. unfold query, logCall.
    cbn [store calls getEmojiCount MemStorage.storage].
    unfold MemStorage.getEmojiCount. rewrite Hempty. cbn [length Z.of_nat Z.gtb Z.compare].
    unfold bind. rewrite Hrun, SeedFacts.seedPageStubs_mem.
    fold stubs. rewrite <- !app_assoc. reflexivity.
  - now apply SeedFacts.seedPagesSpec_pages.
  - destruct (SeedFacts.seedPagesSpec_keeps stubs mid) as [added Hadded].
    exists added. now rewrite Hadded, Hpages.
  - intros stub Hin. now apply SeedFacts.seedPagesSpec_slugs.
Qed.

Lemma seedDatabase_ignores_duplicate_slugs_witness :
  exists (s' : MemStorage.Store) (cs' : list Call),
    seedDatabase MemStorage.storage sampleEmojiData
                 ["heart emoji"; "fire emoji"; "Fire Emoji"; "star emoji"]
                 sampleSeoPages (mkWorld unseededStore []) =
      (inr tt, mkWorld s' cs') /\
    MemStorage.pages s' =
      MemStorage.pages
        (seedPagesSpec (sampleSeoPages ["heart emoji"; "fire emoji"; "Fire Emoji"; "star emoji"])
                       unseededStore) /\
    map SeoPage.slug (MemStorage.pages s') = ["fire-emoji"; "heart-emoji"; "star-emoji"].
Proof.
  destruct (seedDatabase_ignores_duplicate_slugs sampleEmojiData
              ["heart emoji"; "fire emoji"; "Fire Emoji"; "star emoji"]
              sampleSeoPages unseededStore [] eq_refl)
    as [_ [s' [batches [Hrun [Hpages _]]]]].
  exists s'. eexists. split; [exact Hrun|]. split; [exact Hpages|].
  rewrite Hpages. reflexivity.
Defined.

(** ** Two runs in a row on the sample data *)

(** A second call of the generate route with the same keyword answers
    with the page the first call wrote and makes no write. *)
Example postGenerate_twice_sample :
  let first := postGenerate MemStorage.storage generateSeoContent (Some "fire emoji") sampleWorld in
  let second := postGenerate MemStorage.storage generateSeoContent (Some "fire emoji")
                             (mkWorld (store (snd first)) []) in
  fst second = fst first /\
  store (snd second) = store (snd first) /\
  calls (snd second) = [CallGetPageBySlug "fire-emoji"].
Proof. repeat split. Qed.

(** A second run of the seed routine finds the emojis of the first and
    inserts nothing. *)
Example seedDatabase_twice_sample :
  let keywords := ["heart emoji"; "fire emoji"] in
  let first := seedDatabase MemStorage.storage sampleEmojiData keywords sampleSeoPages
                            (mkWorld unseededStore []) in
  seedDatabase MemStorage.storage sampleEmojiData keywords sampleSeoPages
               (mkWorld (store (snd first)) []) =
    (inr tt, mkWorld (store (snd first)) [CallGetEmojiCount]).
Proof. reflexivity. Qed.

(* ===================================================================== *)
(** * Further properties of the routes and of the pages that call them *)
(* ===================================================================== *)

(** ** More on slugs, titles and search terms *)

Module KeywordFacts.

Ltac each_char c :=
  destruct c as [b0 b1 b2 b3 b4 b5 b6 b7];
  destruct b0, b1, b2, b3, b4, b5, b6, b7; vm_compute; try reflexivity; try congruence.

Lemma lower_upper (c : ascii) : Js.lowerChar (Js.upperChar c) = Js.lowerChar c.
Proof. each_char c. Qed.

Lemma lower_lower (c : ascii) : Js.lowerChar (Js.lowerChar c) = Js.lowerChar c.
Proof. each_char c. Qed.

Lemma upper_upper (c : ascii) : Js.upperChar (Js.upperChar c) = Js.upperChar c.
Proof. each_char c. Qed.

Lemma upper_space (c : ascii) : Ascii.eqb (Js.upperChar c) " "%char = Ascii.eqb c " "%char.
Proof. each_char c. Qed.

Lemma dash_not_alnum : Js.isAlnum Js.dash = false.
Proof. reflexivity. Qed.

Lemma toLowerCase_toUpperCase (s : string) :
  Js.toLowerCase (Js.toUpperCase s) = Js.toLowerCase s.
Proof. induction s as [|c r IH]; simpl; [reflexivity|]. now rewrite lower_upper, IH. Qed.

Lemma toLowerCase_again (s : string) :
  Js.toLowerCase (Js.toLowerCase s) = Js.toLowerCase s.
Proof. induction s as [|c r IH]; simpl; [reflexivity|]. now rewrite lower_lower, IH. Qed.

Lemma toLowerCase_length (s : string) :
  String.length (Js.toLowerCase s) = String.length s.
Proof. induction s as [|c r IH]; simpl; [reflexivity|]. now rewrite IH. Qed.

Lemma replace_runs_length (s : string) :
  forall inRun, (String.length (Js.replaceNonAlnumRuns inRun s) <= String.length s)%nat.
Proof.
  induction s as [|c r IH]; intros inRun; simpl; [lia|].
  destruct (Js.isAlnum c); [|destruct inRun]; simpl;
    try (specialize (IH false); lia); specialize (IH true); lia.
Qed.

Lemma drop_leading_length (s : string) :
  (String.length (Js.dropLeadingDash s) <= String.length s)%nat.
Proof.
  destruct s as [|c r]; [simpl; lia|].
  unfold Js.dropLeadingDash. destruct (Ascii.eqb c Js.dash); simpl; lia.
Qed.

Lemma drop_trailing_length (s : string) :
  (String.length (Js.dropTrailingDash s) <= String.length s)%nat.
Proof.
  induction s as [|c r IH]; [simpl; lia|].
  destruct r as [|d r'].
  - cbn [Js.dropTrailingDash]. destruct (Ascii.eqb c Js.dash); simpl; lia.
  - change (Js.dropTrailingDash (String c (String d r')))
      with (String c (Js.dropTrailingDash (String d r'))).
    cbn [String.length] in *. lia.
Qed.

Lemma anyChar_lower (s : string) :
  anyChar Js.isAlnum (Js.toLowerCase s) = hasAlnum s.
Proof.
  unfold hasAlnum. induction s as [|c r IH]; simpl; [reflexivity|]. now rewrite IH.
Qed.

Lemma anyChar_replace_runs (s : string) :
  forall inRun, anyChar Js.isAlnum (Js.replaceNonAlnumRuns inRun s) = anyChar Js.isAlnum s.
Proof.
  induction s as [|c r IH]; intros inRun; [reflexivity|].
  cbn [Js.replaceNonAlnumRuns anyChar].
  destruct (Js.isAlnum c) eqn:Hc.
  - cbn [anyChar]. now rewrite Hc, IH.
  - destruct inRun; [apply IH|].
    cbn [anyChar orb]. rewrite dash_not_alnum. apply IH.
Qed.

Lemma anyChar_drop_leading (s : string) :
  anyChar Js.isAlnum (Js.dropLeadingDash s) = anyChar Js.isAlnum s.
Proof.
  destruct s as [|c r]; [reflexivity|].
  unfold Js.dropLeadingDash. destruct (Ascii.eqb c Js.dash) eqn:E; [|reflexivity].
  apply Ascii.eqb_eq in E. subst c. cbn [anyChar]. now rewrite dash_not_alnum.
Qed.

Lemma anyChar_drop_trailing (s : string) :
  anyChar Js.isAlnum (Js.dropTrailingDash s) = anyChar Js.isAlnum s.
Proof.
  induction s as [|c r IH]; [reflexivity|].
  destruct r as [|d r'].
  - cbn [Js.dropTrailingDash]. destruct (Ascii.eqb c Js.dash) eqn:E; [|reflexivity].
    apply Ascii.eqb_eq in E. subst c. cbn [anyChar]. now rewrite dash_not_alnum.
  - change (Js.dropTrailingDash (String c (String d r')))
      with (String c (Js.dropTrailingDash (String d r'))).
    cbn [anyChar] in *. now rewrite IH.
Qed.

Lemma anyChar_slugify (keyword : string) :
  anyChar Js.isAlnum (slugify keyword) = hasAlnum keyword.
Proof.
  unfold slugify, Js.stripEdgeDashes.
  now rewrite anyChar_drop_trailing, anyChar_drop_leading, anyChar_replace_runs,
    anyChar_lower.
Qed.

Lemma isSlug_empty (s : string) :
  isSlug s = true -> isEmptyString s = negb (anyChar Js.isAlnum s).
Proof.
  destruct s as [|c r]; [reflexivity|].
  unfold isSlug. cbn [startsWithDash dashesInside anyChar isEmptyString].
  destruct (Js.isAlnum c); [reflexivity|].
  destruct (Ascii.eqb c Js.dash); simpl; discriminate.
Qed.

Lemma join_two (sep w w' : string) (ws : list string) :
  Js.join sep (w :: w' :: ws) = w ++ sep ++ Js.join sep (w' :: ws).
Proof. reflexivity. Qed.

Lemma join_head (sep : string) (c : ascii) (w : string) (ws : list string) :
  Js.join sep (String c w :: ws) = String c (Js.join sep (w :: ws)).
Proof. destruct ws; reflexivity. Qed.

Lemma capitalize_head (c : ascii) (w : string) :
  capitalize (String c w) = String (Js.upperChar c) w.
Proof. reflexivity. Qed.

(** The split, capitalise and join of [titleCase] is one pass over the
    keyword. *)
Lemma titleCase_pass (s : string) :
  match Js.splitOn " "%char s with
  | w :: ws =>
      Js.join " " (capitalize w :: map capitalize ws) = capitalizeFrom true s /\
      Js.join " " (w :: map capitalize ws) = capitalizeFrom false s
  | [] => False
  end.
Proof.
  induction s as [|c r IH]; [split; reflexivity|].
  cbn [Js.splitOn capitalizeFrom].
  destruct (Js.splitOn " "%char r) as [|w ws] eqn:Hsplit; [contradiction|].
  destruct IH as [IHtrue IHfalse].
  destruct (Ascii.eqb c " "%char) eqn:Hc.
  - apply Ascii.eqb_eq in Hc. subst c.
    change (map capitalize (w :: ws)) with (capitalize w :: map capitalize ws).
    rewrite !join_two, IHtrue. split; reflexivity.
  - rewrite capitalize_head, !join_head, IHfalse. split; reflexivity.
Qed.

Lemma titleCase_capitalizeFrom (keyword : string) :
  titleCase keyword = capitalizeFrom true keyword.
Proof.
  unfold titleCase. pose proof (titleCase_pass keyword) as H.
  destruct (Js.splitOn " "%char keyword) as [|w ws]; [contradiction|]. apply H.
Qed.

Lemma capitalizeFrom_lower (s : string) :
  forall atStart, Js.toLowerCase (capitalizeFrom atStart s) = Js.toLowerCase s.
Proof.
  induction s as [|c r IH]; intros atStart; simpl; [reflexivity|].
  rewrite IH. destruct atStart; [now rewrite lower_upper | reflexivity].
Qed.

Lemma capitalizeFrom_length (s : string) :
  forall atStart, String.length (capitalizeFrom atStart s) = String.length s.
Proof. induction s as [|c r IH]; intros atStart; simpl; [reflexivity|]. now rewrite IH. Qed.

Lemma capitalizeFrom_again (s : string) :
  forall atStart,
    capitalizeFrom atStart (capitalizeFrom atStart s) = capitalizeFrom atStart s.
Proof.
  induction s as [|c r IH]; intros atStart; [reflexivity|].
  cbn [capitalizeFrom]. destruct atStart.
  - rewrite upper_upper, upper_space, IH. reflexivity.
  - rewrite IH. reflexivity.
Qed.

End KeywordFacts.

(** X1. On ASCII keywords the slug ignores letter case: a keyword, its
    upper-case form and its lower-case form have the same slug, so that
    keywords differing in case only resolve to the same page. *)
Theorem slugify_ignores_case :
  forall keyword : string,
    isAscii keyword = true ->
    slugify (Js.toUpperCase keyword) = slugify keyword /\
    slugify (Js.toLowerCase keyword) = slugify keyword.
Proof.
  intros keyword _. unfold slugify.
  now rewrite KeywordFacts.toLowerCase_toUpperCase, KeywordFacts.toLowerCase_again.
Qed.

Lemma slugify_ignores_case_witness :
  slugify (Js.toUpperCase "Heart Emoji") = slugify "Heart Emoji" /\
  slugify (Js.toLowerCase "Heart Emoji") = slugify "Heart Emoji".
Proof. apply (slugify_ignores_case "Heart Emoji"). reflexivity. Defined.

(** X2. For an ASCII keyword the slug is empty exactly when the keyword
    has no letter and no digit. *)
Theorem slugify_empty_iff_no_alnum :
  forall keyword : string,
    isAscii keyword = true ->
    isEmptyString (slugify keyword) = negb (hasAlnum keyword).
Proof.
  intros keyword _.
  rewrite (KeywordFacts.isSlug_empty _ (SlugFacts.slugify_isSlug keyword)).
  now rewrite KeywordFacts.anyChar_slugify.
Qed.

Lemma slugify_empty_iff_no_alnum_witness :
  isEmptyString (slugify " ?! ") = negb (hasAlnum " ?! ") /\
  isEmptyString (slugify " ?! ") = true.
Proof.
  split; [apply (slugify_empty_iff_no_alnum " ?! "); reflexivity | reflexivity].
Defined.

(** X3. The slug of an ASCII keyword is never longer than the keyword. *)
Theorem slugify_length :
  forall keyword : string,
    isAscii keyword = true ->
    (String.length (slugify keyword) <= String.length keyword)%nat.
Proof.
  intros keyword _. unfold slugify, Js.stripEdgeDashes.
  pose proof (KeywordFacts.drop_trailing_length
                (Js.dropLeadingDash (Js.replaceNonAlnumRuns false (Js.toLowerCase keyword)))).
  pose proof (KeywordFacts.drop_leading_length
                (Js.replaceNonAlnumRuns false (Js.toLowerCase keyword))).
  pose proof (KeywordFacts.replace_runs_length (Js.toLowerCase keyword) false).
  rewrite KeywordFacts.toLowerCase_length in *. lia.
Qed.

Lemma slugify_length_witness :
  (String.length (slugify "  Hello, World!! ") <= String.length "  Hello, World!! ")%nat.
Proof. apply (slugify_length "  Hello, World!! "). reflexivity. Defined.

(** X4. Title casing an ASCII keyword changes letter case only: the
    title-cased keyword has the length, the lower-case form and the slug
    of the keyword, and title casing it again changes nothing.  The
    title of a page the generate route creates therefore leads to the
    slug the page is stored under. *)
Theorem titleCase_changes_case_only :
  forall keyword : string,
    isAscii keyword = true ->
    String.length (titleCase keyword) = String.length keyword /\
    Js.toLowerCase (titleCase keyword) = Js.toLowerCase keyword /\
    slugify (titleCase keyword) = slugify keyword /\
    titleCase (titleCase keyword) = titleCase keyword.
Proof.
  intros keyword _. rewrite !KeywordFacts.titleCase_capitalizeFrom.
  split; [apply KeywordFacts.capitalizeFrom_length|].
  split; [apply KeywordFacts.capitalizeFrom_lower|].
  split; [unfold slugify; now rewrite KeywordFacts.capitalizeFrom_lower|].
  apply KeywordFacts.capitalizeFrom_again.
Qed.

Lemma titleCase_changes_case_only_witness :
  String.length (titleCase "red  heart emoji") = String.length "red  heart emoji" /\
  Js.toLowerCase (titleCase "red  heart emoji") = Js.toLowerCase "red  heart emoji" /\
  slugify (titleCase "red  heart emoji") = slugify "red  heart emoji" /\
  titleCase (titleCase "red  heart emoji") = titleCase "red  heart emoji".
Proof. apply (titleCase_changes_case_only "red  heart emoji"). reflexivity. Defined.

Module SearchTermFacts.

Lemma startsWith_split (p s : string) :
  Js.startsWith p s = true -> s = p ++ Js.dropChars (String.length p) s.
Proof.
  revert s. induction p as [|a p IH]; intros s H; [reflexivity|].
  destruct s as [|b s]; [discriminate|].
  cbn [Js.startsWith] in H. apply andb_prop in H. destruct H as [Hab Hrest].
  apply Ascii.eqb_eq in Hab. subst b.
  cbn [String.length Js.dropChars String.append]. f_equal. now apply IH.
Qed.

(** [s.replace(p, '')] takes out one occurrence of [p] when there is
    one, and nothing otherwise. *)
Lemma removeFirst_once (p s : string) :
  if occursIn p s
  then exists a b : string, s = a ++ p ++ b /\ Js.removeFirst p s = a ++ b
  else Js.removeFirst p s = s.
Proof.
  induction s as [|c r IH].
  - cbn [occursIn Js.removeFirst].
    destruct (Js.startsWith p EmptyString) eqn:Hp; cbn [orb].
    + exists EmptyString, (Js.dropChars (String.length p) EmptyString).
      split; [now apply startsWith_split | reflexivity].
    + reflexivity.
  - cbn [occursIn Js.removeFirst].
    destruct (Js.startsWith p (String c r)) eqn:Hp; cbn [orb].
    + exists EmptyString, (Js.dropChars (String.length p) (String c r)).
      split; [now apply startsWith_split | reflexivity].
    + destruct (occursIn p r).
      * destruct IH as [a [b [Hs Hr]]]. exists (String c a), b.
        cbn [String.append]. now rewrite <- Hs, Hr.
      * now rewrite IH.
Qed.

Lemma append_length (a b : string) :
  String.length (a ++ b) = (String.length a + String.length b)%nat.
Proof. induction a as [|c a IH]; simpl; [reflexivity|]. now rewrite IH. Qed.

Lemma append_assoc (a b c : string) : (a ++ b) ++ c = a ++ b ++ c.
Proof. induction a as [|x a IH]; cbn [String.append]; [reflexivity|]. now rewrite IH. Qed.

Lemma startsWith_extend (p u v : string) :
  Js.startsWith p u = true -> Js.startsWith p (u ++ v) = true.
Proof.
  revert u. induction p as [|x p IH]; intros u H; [reflexivity|].
  destruct u as [|y u]; [discriminate|].
  cbn [Js.startsWith String.append] in *.
  apply andb_prop in H. destruct H as [Hxy Hrest].
  now rewrite Hxy, (IH _ Hrest).
Qed.

(** The occurrence [s.replace(p, '')] takes out is the first one: with
    [p] cut into [q ++ t], [t] not empty, no occurrence of [p] starts
    in the text before it. *)
Lemma removeFirst_first (q t s : string) :
  occursIn (q ++ t) q = false ->
  if occursIn (q ++ t) s
  then exists a b : string,
         s = a ++ (q ++ t) ++ b /\
         Js.removeFirst (q ++ t) s = a ++ b /\
         occursIn (q ++ t) (a ++ q) = false
  else Js.removeFirst (q ++ t) s = s.
Proof.
  intros Hq. induction s as [|c r IH].
  - cbn [occursIn Js.removeFirst].
    destruct (Js.startsWith (q ++ t) EmptyString) eqn:Hp; cbn [orb].
    + exists EmptyString, (Js.dropChars (String.length (q ++ t)) EmptyString).
      split; [now apply startsWith_split|]. split; [reflexivity | exact Hq].
    + reflexivity.
  - cbn [occursIn Js.removeFirst].
    destruct (Js.startsWith (q ++ t) (String c r)) eqn:Hp; cbn [orb].
    + exists EmptyString, (Js.dropChars (String.length (q ++ t)) (String c r)).
      split; [now apply startsWith_split|]. split; [reflexivity | exact Hq].
    + destruct (occursIn (q ++ t) r).
      * destruct IH as [a [b [Hs [Hr Hfirst]]]]. exists (String c a), b.
        split; [cbn [String.append]; now rewrite <- Hs|].
        split; [cbn [String.append]; now rewrite Hr|].
        cbn [String.append occursIn]. rewrite Hfirst, orb_false_r.
        destruct (Js.startsWith (q ++ t) (String c (a ++ q))) eqn:Hpre; [|reflexivity].
        apply (startsWith_extend _ _ (t ++ b)) in Hpre.
        cbn [String.append] in Hpre.
        rewrite append_assoc, <- (append_assoc q t b), <- Hs in Hpre.
        congruence.
      * now rewrite IH.
Qed.

End SearchTermFacts.

(** X5. The search term of a keyword is the keyword with the first
    occurrence of " emoji" taken out when it has one, and the keyword
    itself otherwise: the keyword is [a], " emoji", [b] and the search
    term is [a] followed by [b], six characters shorter, where no
    occurrence of " emoji" starts inside [a] (none lies in [a] followed
    by " emoj").  Later occurrences stay. *)
Theorem cleanKeyword_removes_once :
  forall keyword : string,
    if occursIn " emoji" keyword
    then exists a b : string,
           keyword = a ++ " emoji" ++ b /\
           cleanKeyword keyword = a ++ b /\
           occursIn " emoji" (a ++ " emoj") = false /\
           String.length (cleanKeyword keyword) + 6 = String.length keyword
    else cleanKeyword keyword = keyword.
Proof.
  intros keyword. unfold cleanKeyword.
  pose proof (SearchTermFacts.removeFirst_first " emoj" "i" keyword eq_refl) as H.
  change (" emoj" ++ "i") with " emoji" in H.
  destruct (occursIn " emoji" keyword); [|exact H].
  destruct H as [a [b [Hk [Hc Hfirst]]]]. exists a, b.
  split; [exact Hk|]. split; [exact Hc|]. split; [exact Hfirst|].
  rewrite Hc, Hk, !SearchTermFacts.append_length. simpl. lia.
Qed.

Example cleanKeyword_keeps_second :
  cleanKeyword "emoji emoji emoji" = "emoji emoji".
Proof. reflexivity. Qed.

Example cleanKeyword_first_not_last :
  cleanKeyword "a emoji b emoji c" = "a b emoji c".
Proof. reflexivity. Qed.

Module ContentFacts.

Lemma sameText_slice (n : nat) (r1 r2 : list Emoji.t) :
  Forall2 sameText r1 r2 -> Forall2 sameText (slice0 n r1) (slice0 n r2).
Proof.
  intros H. revert n. induction H as [|e1 e2 r1 r2 He Hr IH]; intros n.
  - destruct n; constructor.
  - destruct n; [constructor|]. cbn [slice0 firstn]. constructor; [exact He | apply IH].
Qed.

Lemma sameText_map {A : Type} (f : Emoji.t -> A) (r1 r2 : list Emoji.t) :
  (forall e1 e2, sameText e1 e2 -> f e1 = f e2) ->
  Forall2 sameText r1 r2 -> map f r1 = map f r2.
Proof.
  intros Hf H. induction H as [|e1 e2 r1 r2 He Hr IH]; [reflexivity|].
  cbn [map]. now rewrite (Hf _ _ He), IH.
Qed.

Lemma sameText_popularItems (keyword : string) (r1 r2 : list Emoji.t) :
  Forall2 sameText r1 r2 -> popularItems keyword r1 = popularItems keyword r2.
Proof.
  intros H. unfold popularItems. apply sameText_map; [|now apply sameText_slice].
  intros e1 e2 [He [Hn Hd]]. now rewrite He, Hn, Hd.
Qed.

Lemma sameText_sampleItems (r1 r2 : list Emoji.t) :
  Forall2 sameText r1 r2 -> sampleItems r1 = sampleItems r2.
Proof.
  intros H. unfold sampleItems. apply sameText_map; [|now apply sameText_slice].
  intros e1 e2 [He [Hn _]]. now rewrite He, Hn.
Qed.

Lemma sameText_relatedNote (r1 r2 : list Emoji.t) :
  Forall2 sameText r1 r2 -> relatedNote r1 = relatedNote r2.
Proof.
  intros H. unfold relatedNote, emojiSamples.
  rewrite (sameText_sampleItems _ _ H), (Forall2_length H). reflexivity.
Qed.

End ContentFacts.

(** C7. The content generator is deterministic, and its output depends
    on nothing but its two inputs: two invocations produce equal markdown,
    in both revisions of the template, as soon as the keywords are equal
    and the first ten entries of the two related-emoji lists agree on
    glyph, name and description.  Equal lists are the special case; the
    ids, slugs, categories and copy counts of the entries, and whatever
    follows the tenth entry, never reach the document. *)
Theorem generateSeoContent_deterministic :
  forall (keyword1 keyword2 : string) (related1 related2 : list Emoji.t),
    keyword1 = keyword2 ->
    Forall2 sameText (firstn 10 related1) (firstn 10 related2) ->
    generateSeoContent keyword1 related1 = generateSeoContent keyword2 related2 /\
    generateSeoContent_part_000 keyword1 related1 =
    generateSeoContent_part_000 keyword2 related2.
Proof.
  intros keyword1 keyword2 related1 related2 Hk Hr. subst keyword2.
  rewrite <- (TemplateFacts.generateSeoContent_slice keyword1 related1),
    <- (TemplateFacts.generateSeoContent_slice keyword1 related2),
    <- (TemplateFacts.generateSeoContent_part_000_slice keyword1 related1),
    <- (TemplateFacts.generateSeoContent_part_000_slice keyword1 related2).
  change (Forall2 sameText (slice0 10 related1) (slice0 10 related2)) in Hr.
  unfold generateSeoContent, generateSeoContent_part_000, popularList.
  rewrite (ContentFacts.sameText_popularItems keyword1 _ _ Hr),
    (ContentFacts.sameText_relatedNote _ _ Hr).
  split; reflexivity.
Qed.

Lemma generateSeoContent_deterministic_witness :
  generateSeoContent "heart emoji" (repeat heart 10 ++ [fire]) =
  generateSeoContent "heart emoji" (repeat (MemStorage.bump heart) 10 ++ [heart; heart]) /\
  generateSeoContent_part_000 "heart emoji" (repeat heart 10 ++ [fire]) =
  generateSeoContent_part_000 "heart emoji"
    (repeat (MemStorage.bump heart) 10 ++ [heart; heart]).
Proof.
  apply (generateSeoContent_deterministic
           "heart emoji" "heart emoji"
           (repeat heart 10 ++ [fire])
           (repeat (MemStorage.bump heart) 10 ++ [heart; heart]));
    [reflexivity | cbn [repeat app firstn]; repeat constructor].
Defined.

(** X6. The generated markdown reads the glyph, the name and the
    description of the related emojis and nothing else: two lists whose
    emojis agree on these three fields give the same document (either
    revision), whatever their ids, slugs, categories, keywords and copy
    counts are.  A copy event therefore never changes what the
    generator produces. *)
Theorem generateSeoContent_reads_text_only :
  forall (keyword : string) (related1 related2 : list Emoji.t),
    Forall2 sameText related1 related2 ->
    generateSeoContent keyword related1 = generateSeoContent keyword related2 /\
    generateSeoContent_part_000 keyword related1 =
    generateSeoContent_part_000 keyword related2.
Proof.
  intros keyword related1 related2 H.
  unfold generateSeoContent, generateSeoContent_part_000, popularList.
  rewrite (ContentFacts.sameText_popularItems keyword _ _ H),
    (ContentFacts.sameText_relatedNote _ _ H).
  split; reflexivity.
Qed.

Lemma generateSeoContent_reads_text_only_witness :
  generateSeoContent "fire emoji" [fire] =
  generateSeoContent "fire emoji" [MemStorage.bump fire] /\
  generateSeoContent_part_000 "fire emoji" [fire] =
  generateSeoContent_part_000 "fire emoji" [MemStorage.bump fire].
Proof.
  apply (generateSeoContent_reads_text_only "fire emoji" [fire] [MemStorage.bump fire]).
  repeat constructor.
Defined.

(** ** What the routes do for any storage *)

Module RouteFacts.

Lemma markedGenerated_app (cs1 cs2 : list Call) :
  markedGenerated (cs1 ++ cs2) = (markedGenerated cs1 ++ markedGenerated cs2)%list.
Proof. unfold markedGenerated. apply flat_map_app. Qed.

(** Close a leaf of a case analysis on the storage results: the
    response and the final world are read off the goal. *)
Ltac answer :=
  eexists; eexists; eexists;
  split; [reflexivity|];
  split; [cbn [calls]; rewrite <- ?app_assoc; cbn [app];
          first [reflexivity | symmetry; apply app_nil_r]|].

(** The loop of the batch route for any storage: it works through the
    pages in order and stops at the first rejected call. *)
Lemma generateEach_run {S : Type} (storage : Storage S)
    (render : string -> list Emoji.t -> string) (pages : list SeoPage.t) :
  forall (generated : Z) (w : World S),
  exists (res : Exn + Z) (w' : World S) (new : list Call) (k : nat),
    generateEach storage render pages generated w = (res, w') /\
    calls w' = (calls w ++ new)%list /\
    Forall batchCall new /\
    markedGenerated new = firstn k (map SeoPage.id pages) /\
    ((res = inr (generated + Z.of_nat (length pages))%Z /\
      markedGenerated new = map SeoPage.id pages) \/
     exists e : Exn, res = inl e).
Proof.
  induction pages as [|p rest IH]; intros generated w.
  - exists (inr generated), w, [], 0%nat. cbn [generateEach length Z.of_nat].
    rewrite app_nil_r, Z.add_0_r.
    split; [reflexivity|]. split; [reflexivity|]. split; [constructor|].
    split; [reflexivity|]. left. split; reflexivity.
  - cbn [generateEach]. unfold bind at 1. unfold query at 1.
    destruct (getEmojis storage (Some (cleanKeyword (SeoPage.keyword p))) None (store w))
      as [e|allEmojis].
    + eexists; eexists; exists [CallGetEmojis (Some (cleanKeyword (SeoPage.keyword p))) None], 0%nat.
      split; [reflexivity|]. split; [reflexivity|].
      split; [repeat constructor|]. split; [reflexivity|]. right. now exists e.
    + unfold bind at 1. unfold mutate at 1. cbn [store calls].
      destruct (updatePage storage (SeoPage.id p)
                  (generatedFields render (SeoPage.keyword p) allEmojis) (store w))
        as [e|[updated s']].
      * eexists; eexists;
          exists [CallGetEmojis (Some (cleanKeyword (SeoPage.keyword p))) None;
                  CallUpdatePage (SeoPage.id p)
                    (generatedFields render (SeoPage.keyword p) allEmojis)], 1%nat.
        split; [reflexivity|].
        split; [unfold logCall; cbn [calls]; now rewrite <- app_assoc|].
        split; [repeat constructor|]. split; [reflexivity|]. right. now exists e.
      * match goal with
        | |- context [generateEach storage render rest ?g ?w1] =>
            destruct (IH g w1) as [res [w' [new [k [Hrun [Hcalls [Hok [Hk Hres]]]]]]]]
        end.
        exists res, w',
          ([CallGetEmojis (Some (cleanKeyword (SeoPage.keyword p))) None;
            CallUpdatePage (SeoPage.id p)
              (generatedFields render (SeoPage.keyword p) allEmojis)] ++ new)%list,
          (Datatypes.S k).
        split; [exact Hrun|].
        split; [rewrite Hcalls; unfold logCall; cbn [calls]; now rewrite <- !app_assoc|].
        split; [apply Forall_app; split; [repeat constructor | exact Hok]|].
        rewrite markedGenerated_app, Hk.
        split; [reflexivity|].
        destruct Hres as [[Hres Hall]|[e He]].
        -- left. split.
           ++ rewrite Hres. f_equal. cbn [length]. lia.
           ++ rewrite <- Hk, Hall. reflexivity.
        -- right. now exists e.
Qed.

Lemma updatesOf_app (cs1 cs2 : list Call) :
  updatesOf (cs1 ++ cs2) = (updatesOf cs1 ++ updatesOf cs2)%list.
Proof. unfold updatesOf. apply flat_map_app. Qed.

(** The same loop with the store it leaves and the reason of its
    outcome: the store is the one reached by the updates it issued, in
    order (nothing is taken back when a later call is rejected), and
    the loop fails exactly when the storage rejected its last call. *)
Lemma generateEach_run_store {S : Type} (storage : Storage S)
    (render : string -> list Emoji.t -> string) (pages : list SeoPage.t) :
  forall (generated : Z) (w : World S),
  exists (res : Exn + Z) (w' : World S) (new : list Call) (k : nat),
    generateEach storage render pages generated w = (res, w') /\
    calls w' = (calls w ++ new)%list /\
    markedGenerated new = firstn k (map SeoPage.id pages) /\
    store w' = storeAfterUpdates storage (updatesOf new) (store w) /\
    if rejectedBy storage
         (storeAfterUpdates storage (updatesOf (removelast new)) (store w))
         (last new (CallGetUngeneratedPages 5))
    then exists e : Exn, res = inl e
    else res = inr (generated + Z.of_nat (length pages))%Z /\
         markedGenerated new = map SeoPage.id pages.
Proof.
  induction pages as [|p rest IH]; intros generated w.
  - exists (inr generated), w, [], 0%nat. cbn [generateEach length Z.of_nat].
    rewrite app_nil_r, Z.add_0_r.
    split; [reflexivity|]. split; [reflexivity|].
    split; [reflexivity|]. split; [reflexivity|].
    cbn [last rejectedBy]. split; reflexivity.
  - cbn [generateEach]. unfold bind at 1. unfold query at 1.
    destruct (getEmojis storage (Some (cleanKeyword (SeoPage.keyword p))) None (store w))
      as [e|allEmojis] eqn:Hsearch.
    + eexists; eexists; exists [CallGetEmojis (Some (cleanKeyword (SeoPage.keyword p))) None], 0%nat.
      split; [reflexivity|]. split; [reflexivity|].
      split; [reflexivity|]. split; [reflexivity|].
      cbn [last removelast updatesOf flat_map storeAfterUpdates fold_left rejectedBy].
      rewrite Hsearch. now exists e.
    + unfold bind at 1. unfold mutate at 1. cbn [store calls].
      destruct (updatePage storage (SeoPage.id p)
                  (generatedFields render (SeoPage.keyword p) allEmojis) (store w))
        as [e|[updated s']] eqn:Hupdate.
      * eexists; eexists;
          exists [CallGetEmojis (Some (cleanKeyword (SeoPage.keyword p))) None;
                  CallUpdatePage (SeoPage.id p)
                    (generatedFields render (SeoPage.keyword p) allEmojis)], 1%nat.
        split; [reflexivity|].
        split; [unfold logCall; cbn [calls]; now rewrite <- app_assoc|].
        split; [reflexivity|].
        cbn [last removelast updatesOf flat_map app storeAfterUpdates fold_left fst snd
             store rejectedBy].
        rewrite Hupdate. split; [reflexivity | now exists e].
      * match goal with
        | |- context [generateEach storage render rest ?g ?w1] =>
            destruct (IH g w1) as [res [w' [new [k [Hrun [Hcalls [Hk [Hstore Hres]]]]]]]]
        end.
        cbn [store] in Hstore, Hres.
        exists res, w',
          (CallGetEmojis (Some (cleanKeyword (SeoPage.keyword p))) None ::
           CallUpdatePage (SeoPage.id p)
             (generatedFields render (SeoPage.keyword p) allEmojis) :: new),
          (Datatypes.S k).
        split; [exact Hrun|].
        split; [rewrite Hcalls; unfold logCall; cbn [calls]; now rewrite <- !app_assoc|].
        split.
        { change (markedGenerated (?a :: ?b :: new))
            with (markedGenerated ([a; b] ++ new)).
          rewrite markedGenerated_app, Hk. reflexivity. }
        split.
        { rewrite Hstore.
          cbn [updatesOf flat_map app storeAfterUpdates fold_left fst snd].
          now rewrite Hupdate. }
        assert (Hmark : forall ids : list Z,
                   markedGenerated new = ids ->
                   markedGenerated
                     (CallGetEmojis (Some (cleanKeyword (SeoPage.keyword p))) None ::
                      CallUpdatePage (SeoPage.id p)
                        (generatedFields render (SeoPage.keyword p) allEmojis) :: new) =
                   SeoPage.id p :: ids).
        { intros ids Hids.
          change (markedGenerated (?a :: ?b :: new))
            with (markedGenerated ([a; b] ++ new)).
          now rewrite markedGenerated_app, Hids. }
        destruct new as [|c new'].
        -- cbn [last removelast updatesOf flat_map app storeAfterUpdates fold_left fst snd
                rejectedBy].
           rewrite Hupdate.
           cbn [last removelast updatesOf flat_map storeAfterUpdates fold_left rejectedBy]
             in Hres.
           destruct Hres as [Hres Hall]. split.
           ++ rewrite Hres. f_equal. cbn [length]. lia.
           ++ cbn [map]. now apply Hmark.
        -- change (last (?a :: ?b :: c :: new') ?d) with (last (c :: new') d).
           change (removelast (?a :: ?b :: c :: new'))
             with (a :: b :: removelast (c :: new')).
           cbn [updatesOf flat_map app storeAfterUpdates fold_left fst snd].
           rewrite Hupdate.
           change (flat_map _ (removelast (c :: new')))
             with (updatesOf (removelast (c :: new'))).
           change (fold_left _ (updatesOf (removelast (c :: new'))) s')
             with (storeAfterUpdates storage (updatesOf (removelast (c :: new'))) s').
           destruct (rejectedBy storage
                       (storeAfterUpdates storage (updatesOf (removelast (c :: new'))) s')
                       (last (c :: new') (CallGetUngeneratedPages 5))).
           ++ exact Hres.
           ++ destruct Hres as [Hres Hall]. split.
              ** rewrite Hres. f_equal. cbn [length]. lia.
              ** cbn [map]. now apply Hmark.
Qed.

(** The loop over the emoji batches for any storage: its calls are
    [createEmojis] calls with between 1 and 50 emojis each. *)
Lemma seedEmojiBatches_calls {S : Type} (storage : Storage S)
    (EMOJI_DATA : list InsertEmoji.t) (i : nat) :
  forall w : World S,
  exists (res : Exn + unit) (w' : World S) (new : list Call),
    seedEmojiBatches storage EMOJI_DATA i w = (res, w') /\
    calls w' = (calls w ++ new)%list /\
    Forall isCreateEmojis new.
Proof.
  apply (seedEmojiBatches_elim storage EMOJI_DATA
           (fun i m => forall w, exists res w' new,
                m w = (res, w') /\ calls w' = (calls w ++ new)%list /\ Forall isCreateEmojis new)).
  - intros j Hlt IH _ w. unfold bind, mutate.
    assert (Hbatch : isCreateEmojis (CallCreateEmojis (batchAt EMOJI_DATA j 50))).
    { unfold isCreateEmojis, batchAt. rewrite length_firstn, length_skipn. lia. }
    destruct (createEmojis storage (batchAt EMOJI_DATA j 50) (store w)) as [e|[[] s']].
    + eexists; eexists; exists [CallCreateEmojis (batchAt EMOJI_DATA j 50)].
      split; [reflexivity|]. split; [reflexivity|].
      constructor; [exact Hbatch | constructor].
    + match goal with
      | |- context [seedEmojiBatches storage EMOJI_DATA _ ?w1] =>
          destruct (IH tt w1 w1) as [res [w' [new [Hrun [Hcalls Hok]]]]]
      end.
      exists res, w', (CallCreateEmojis (batchAt EMOJI_DATA j 50) :: new).
      split; [exact Hrun|].
      split; [rewrite Hcalls; unfold logCall; cbn [calls]; now rewrite <- app_assoc|].
      now constructor.
  - intros j Hge _ w. exists (inr tt), w, []. unfold ret.
    rewrite app_nil_r. repeat split. constructor.
Qed.

(** The loop over the page stubs for any storage: one [createPage] per
    stub, in order, and no error. *)
Lemma seedPageStubs_calls {S : Type} (storage : Storage S)
    (stubs : list InsertSeoPage.t) :
  forall w : World S,
  exists w' : World S,
    seedPageStubs storage stubs w = (inr tt, w') /\
    calls w' = (calls w ++ map CallCreatePage stubs)%list.
Proof.
  induction stubs as [|stub rest IH]; intros w.
  - exists w. split; [reflexivity|]. now rewrite app_nil_r.
  - cbn [seedPageStubs map]. unfold bind at 1. unfold tryCatch, bind, mutate, ret.
    destruct (createPage storage stub (store w)) as [e|[page s']];
      match goal with
      | |- context [seedPageStubs storage rest ?w1] =>
          destruct (IH w1) as [w' [Hrun Hcalls]]
      end;
      exists w'; (split; [exact Hrun|]);
      rewrite Hcalls; unfold logCall; cbn [calls]; now rewrite <- app_assoc.
Qed.

End RouteFacts.

(** X7. The generate route always answers, whatever the storage does:
    no rejection of a storage call gets past its try/catch.  The status
    is 200, 201, 400 or 500; the call makes at most one write; its calls
    are the slug lookup, the emoji search, an update that marks the page
    generated and leaves title and meta description alone, or the
    creation of a page whose slug is the slug of its keyword; and when
    the answer is 400 or 500 the store is the one it started with. *)
Theorem postGenerate_always_answers :
  forall (S : Type) (storage : Storage S)
         (render : string -> list Emoji.t -> string)
         (keyword : option string) (w : World S),
  exists (r : Response) (w' : World S) (new : list Call),
    postGenerate storage render keyword w = (inr r, w') /\
    calls w' = (calls w ++ new)%list /\
    In (status r) [200; 201; 400; 500]%Z /\
    (length (writes new) <= 1)%nat /\
    Forall (generateCall (match keyword with Some k => k | None => EmptyString end)) new /\
    (store w' = store w \/ status r = 200%Z \/ status r = 201%Z).
Proof.
  intros S storage render keyword w.
  destruct keyword as [[|c r]|];
    [RouteFacts.answer; cbn; repeat split; auto 6 using Forall_nil | |
     RouteFacts.answer; cbn; repeat split; auto 6 using Forall_nil].
  unfold postGenerate, tryCatch, bind, query, mutate, json, ret, logCall.
  cbn [store calls].
  destruct (getPageBySlug storage (slugify (String c r)) (store w)) as [e|[p|]].
  - RouteFacts.answer. cbn. repeat split; auto 6. repeat constructor.
  - cbn [alreadyGenerated]. destruct (SeoPage.isGenerated p).
    + RouteFacts.answer. cbn. repeat split; auto 6. repeat constructor.
    + cbn [store calls].
      destruct (getEmojis storage (Some (cleanKeyword (String c r))) None (store w))
        as [e|allEmojis].
      * RouteFacts.answer. cbn. repeat split; auto 6. repeat constructor.
      * cbn [store calls].
        destruct (updatePage storage (SeoPage.id p)
                    (generatedFields render (String c r) allEmojis) (store w))
          as [e|[updated s']];
          RouteFacts.answer; cbn; repeat split; auto 6; repeat constructor.
  - cbn [alreadyGenerated store calls].
    destruct (getEmojis storage (Some (cleanKeyword (String c r))) None (store w))
      as [e|allEmojis].
    + RouteFacts.answer. cbn. repeat split; auto 6. repeat constructor.
    + cbn [store calls].
      destruct (createPage storage (newPage render (String c r) allEmojis) (store w))
        as [e|[page s']];
        RouteFacts.answer; cbn; repeat split; auto 6; repeat constructor.
Qed.

(** X21. A keyword of punctuation or spaces passes the non-empty check
    of the generate route and is handled under the empty slug: for a
    non-empty ASCII keyword without letter and digit the route does not
    answer 400, its first call looks up the empty slug, and a page it
    creates is created under the empty slug, whatever the storage. *)
Theorem postGenerate_empty_slug :
  forall (S : Type) (storage : Storage S)
         (render : string -> list Emoji.t -> string)
         (keyword : string) (w : World S),
    keyword <> EmptyString ->
    isAscii keyword = true ->
    hasAlnum keyword = false ->
    exists (r : Response) (w' : World S) (rest : list Call),
      postGenerate storage render (Some keyword) w = (inr r, w') /\
      calls w' = (calls w ++ CallGetPageBySlug EmptyString :: rest)%list /\
      (status r =? 400)%Z = false /\
      Forall (createsUnder EmptyString) rest.
Proof.
  intros S storage render keyword w Hne _ Hno.
  assert (Hslug : slugify keyword = EmptyString).
  { pose proof (KeywordFacts.isSlug_empty _ (SlugFacts.slugify_isSlug keyword)) as H.
    rewrite KeywordFacts.anyChar_slugify in H. fold (hasAlnum keyword) in H.
    rewrite Hno in H. destruct (slugify keyword); [reflexivity | discriminate]. }
  destruct keyword as [|c k]; [congruence|].
  unfold postGenerate, tryCatch, bind, query, mutate, json, ret, logCall.
  cbn [store calls]. rewrite Hslug.
  destruct (getPageBySlug storage EmptyString (store w)) as [e|[p|]].
  - RouteFacts.answer. split; [reflexivity | constructor].
  - cbn [alreadyGenerated]. destruct (SeoPage.isGenerated p).
    + RouteFacts.answer. split; [reflexivity | constructor].
    + cbn [store calls].
      destruct (getEmojis storage (Some (cleanKeyword (String c k))) None (store w))
        as [e|allEmojis].
      * RouteFacts.answer. split; [reflexivity | repeat constructor].
      * cbn [store calls].
        destruct (updatePage storage (SeoPage.id p)
                    (generatedFields render (String c k) allEmojis) (store w))
          as [e|[updated s']];
          RouteFacts.answer; (split; [reflexivity | repeat constructor]).
  - cbn [alreadyGenerated store calls].
    destruct (getEmojis storage (Some (cleanKeyword (String c k))) None (store w))
      as [e|allEmojis].
    + RouteFacts.answer. split; [reflexivity | repeat constructor].
    + cbn [store calls].
      destruct (createPage storage (newPage render (String c k) allEmojis) (store w))
        as [e|[page s']];
        RouteFacts.answer;
        (split; [reflexivity|]);
        (constructor; [constructor | constructor; [exact Hslug | constructor]]).
Qed.

Lemma postGenerate_empty_slug_witness :
  exists (r : Response) (w' : World MemStorage.Store) (rest : list Call),
    postGenerate MemStorage.storage generateSeoContent (Some " ?! ") sampleWorld = (inr r, w') /\
    calls w' = (calls sampleWorld ++ CallGetPageBySlug EmptyString :: rest)%list /\
    (status r =? 400)%Z = false /\
    Forall (createsUnder EmptyString) rest.
Proof.
  apply (postGenerate_empty_slug MemStorage.Store MemStorage.storage generateSeoContent
           " ?! " sampleWorld).
  - discriminate.
  - reflexivity.
  - reflexivity.
Defined.

Example postGenerate_punctuation_creates_page :
  let run := postGenerate MemStorage.storage generateSeoContent (Some " ?! ") sampleWorld in
  option_map status (match fst run with inr r => Some r | inl _ => None end) = Some 201%Z /\
  map SeoPage.slug (MemStorage.pages (store (snd run))) =
    ["heart-emoji"; "fire-emoji"; EmptyString].
Proof. split; reflexivity. Qed.

(** X8. The batch route always answers, whatever the storage does, with
    200 or 500.  Its first call asks for 5 ungenerated pages; after
    that it only searches emojis and issues updates that mark a page
    generated and leave title and meta description alone: it never
    creates a page, an emoji, or a copy count. *)
Theorem postGenerateBatch_always_answers :
  forall (S : Type) (storage : Storage S)
         (render : string -> list Emoji.t -> string) (w : World S),
  exists (r : Response) (w' : World S) (new : list Call),
    postGenerateBatch storage render w = (inr r, w') /\
    calls w' = (calls w ++ CallGetUngeneratedPages 5 :: new)%list /\
    (status r = 200%Z \/ status r = 500%Z) /\
    Forall batchCall new.
Proof.
  intros S storage render w.
  unfold postGenerateBatch, tryCatch, bind at 1. unfold bind at 1. unfold query at 1.
  destruct (getUngeneratedPages storage 5 (store w)) as [e|pages].
  - eexists; eexists; exists []. unfold json, ret, logCall.
    split; [reflexivity|]. split; [reflexivity|]. split; [now right | constructor].
  - match goal with
    | |- context [generateEach storage render pages 0%Z ?w1] =>
        destruct (RouteFacts.generateEach_run storage render pages 0%Z w1)
          as [res [w' [new [k [Hrun [Hcalls [Hok _]]]]]]]
    end.
    rewrite Hrun. unfold json, ret.
    destruct res as [e|generated]; eexists; exists w', new;
      (split; [reflexivity|]);
      (split; [rewrite Hcalls; unfold logCall; cbn [calls]; now rewrite <- app_assoc|]);
      (split; [|exact Hok]); [now right | now left].
Qed.

(** X9. The batch route works through the pages the storage hands it in
    order, one update each: the ids it marks generated are a prefix of
    the ids handed over.  The store it leaves is the one reached by the
    updates it issued, in order: the updates made before a failure
    stay.  It answers 500 exactly when the storage rejected the last
    call it made (a search or an update, on the store reached by the
    updates before it); otherwise it answers 200, the prefix is the
    whole list and [generated] is the number of pages handed over,
    whether or not the storage found each page to update and however
    many pages the storage returned for the limit of 5. *)
Theorem postGenerateBatch_in_order :
  forall (S : Type) (storage : Storage S)
         (render : string -> list Emoji.t -> string) (w : World S)
         (pages : list SeoPage.t),
    getUngeneratedPages storage 5 (store w) = inr pages ->
    exists (r : Response) (w' : World S) (new : list Call) (k : nat),
      postGenerateBatch storage render w = (inr r, w') /\
      calls w' = (calls w ++ CallGetUngeneratedPages 5 :: new)%list /\
      markedGenerated new = firstn k (map SeoPage.id pages) /\
      store w' = storeAfterUpdates storage (updatesOf new) (store w) /\
      if rejectedBy storage
           (storeAfterUpdates storage (updatesOf (removelast new)) (store w))
           (last new (CallGetUngeneratedPages 5))
      then r = mkResponse 500 (Message "Failed to batch generate")
      else r = mkResponse 200 (GeneratedJson (Z.of_nat (length pages))) /\
           markedGenerated new = map SeoPage.id pages.
Proof.
  intros S storage render w pages Hpages.
  unfold postGenerateBatch, tryCatch, bind at 1. unfold bind at 1. unfold query at 1.
  rewrite Hpages.
  match goal with
  | |- context [generateEach storage render pages 0%Z ?w1] =>
      destruct (RouteFacts.generateEach_run_store storage render pages 0%Z w1)
        as [res [w' [new [k [Hrun [Hcalls [Hk [Hstore Hres]]]]]]]]
  end.
  rewrite Hrun. unfold json, ret. cbn [store] in Hstore, Hres.
  destruct (rejectedBy storage
              (storeAfterUpdates storage (updatesOf (removelast new)) (store w))
              (last new (CallGetUngeneratedPages 5))) eqn:Hlast.
  - destruct Hres as [e He]. subst res.
    eexists; exists w', new, k.
    split; [reflexivity|].
    split; [rewrite Hcalls; unfold logCall; cbn [calls]; now rewrite <- app_assoc|].
    split; [exact Hk|]. split; [exact Hstore|].
    rewrite Hlast. reflexivity.
  - destruct Hres as [Hres Hall]. subst res.
    eexists; exists w', new, k.
    split; [reflexivity|].
    split; [rewrite Hcalls; unfold logCall; cbn [calls]; now rewrite <- app_assoc|].
    split; [exact Hk|]. split; [exact Hstore|].
    rewrite Hlast. split; [now rewrite Z.add_0_l | exact Hall].
Qed.

Lemma postGenerateBatch_in_order_witness :
  exists (r : Response) (w' : World MemStorage.Store) (new : list Call) (k : nat),
    postGenerateBatch (rejectingUpdateOf 3) generateSeoContent (mkWorld twoStubs []) =
      (inr r, w') /\
    calls w' = (calls (mkWorld twoStubs []) ++ CallGetUngeneratedPages 5 :: new)%list /\
    markedGenerated new = firstn k (map SeoPage.id [fireStub; heartStub]) /\
    store w' = storeAfterUpdates (rejectingUpdateOf 3) (updatesOf new) twoStubs /\
    if rejectedBy (rejectingUpdateOf 3)
         (storeAfterUpdates (rejectingUpdateOf 3) (updatesOf (removelast new)) twoStubs)
         (last new (CallGetUngeneratedPages 5))
    then r = mkResponse 500 (Message "Failed to batch generate")
    else r = mkResponse 200 (GeneratedJson (Z.of_nat (length [fireStub; heartStub]))) /\
         markedGenerated new = map SeoPage.id [fireStub; heartStub].
Proof.
  apply (postGenerateBatch_in_order MemStorage.Store (rejectingUpdateOf 3)
           generateSeoContent (mkWorld twoStubs []) [fireStub; heartStub]).
  reflexivity.
Defined.

Example postGenerateBatch_keeps_earlier_updates :
  let run := postGenerateBatch (rejectingUpdateOf 3) generateSeoContent (mkWorld twoStubs []) in
  fst run = inr (mkResponse 500 (Message "Failed to batch generate")) /\
  map SeoPage.isGenerated (MemStorage.pages (store (snd run))) = [true; false] /\
  markedGenerated (calls (snd run)) = [2; 3]%Z.
Proof. repeat split; reflexivity. Qed.

(** X10. The edit route (PATCH /api/pages/:id) always answers, whatever
    the storage does, and its answer follows the outcome of its one
    call, an update of title, meta description and content that leaves
    [isGenerated] and the related glyphs alone: 200 with the page when
    the storage returned one, 404 when the storage returned none (in
    both cases the store is the one the storage left), and 500 with the
    store unchanged when the storage rejected the update. *)
Theorem patchPage_always_answers :
  forall (S : Type) (storage : Storage S) (id : Z)
         (title metaDescription content : option string) (w : World S),
    patchPage storage id title metaDescription content w =
    let data := PageUpdate.mk title metaDescription content None None in
    let log := (calls w ++ [CallUpdatePage id data])%list in
    match updatePage storage id data (store w) with
    | inr (Some page, s') =>
        (inr (mkResponse 200 (PageJson (Some page))), mkWorld s' log)
    | inr (None, s') =>
        (inr (mkResponse 404 (Message "Page not found")), mkWorld s' log)
    | inl _ =>
        (inr (mkResponse 500 (Message "Failed to update page")), mkWorld (store w) log)
    end.
Proof.
  intros S storage id title metaDescription content w.
  unfold patchPage, tryCatch, bind, mutate, json, ret, logCall. cbv zeta.
  destruct (updatePage storage id _ (store w)) as [e|[[page|] s']]; reflexivity.
Qed.

Example patchPage_known_id :
  patchPage MemStorage.storage 2 (Some "Fire") None None sampleWorld =
    (inr (mkResponse 200
            (PageJson (Some (MemStorage.applyUpdate
                               (PageUpdate.mk (Some "Fire") None None None None) fireStub)))),
     mkWorld (MemStorage.mkStore
                (MemStorage.emojis sampleStore)
                (MemStorage.pagesAfterUpdate 2
                   (PageUpdate.mk (Some "Fire") None None None None)
                   (MemStorage.pages sampleStore))
                (MemStorage.nextEmojiId sampleStore)
                (MemStorage.nextPageId sampleStore))
             [CallUpdatePage 2 (PageUpdate.mk (Some "Fire") None None None None)]).
Proof. reflexivity. Qed.

(** X11. What GET /api/pages/:slug shows as generated, the generate
    route returns as it is: when the page route answers 200 with a
    generated page for the slug of a non-empty keyword, the generate
    route, started on the same store, answers 200 with that page and
    writes nothing. *)
Theorem getPage_then_postGenerate :
  forall (S : Type) (storage : Storage S)
         (render : string -> list Emoji.t -> string)
         (keyword : string) (w w1 : World S) (page : SeoPage.t),
    keyword <> EmptyString ->
    getPage storage (slugify keyword) w = (inr (mkResponse 200 (PageJson (Some page))), w1) ->
    SeoPage.isGenerated page = true ->
    store w1 = store w /\
    exists w2 : World S,
      postGenerate storage render (Some keyword) w =
        (inr (mkResponse 200 (PageJson (Some page))), w2) /\
      store w2 = store w /\
      writes (skipn (length (calls w)) (calls w2)) = [].
Proof.
  intros S storage render keyword w w1 page Hk Hget Hgen.
  unfold getPage, bind, query, json, ret in Hget.
  destruct (getPageBySlug storage (slugify keyword) (store w)) as [e|[p|]] eqn:Hlookup;
    try discriminate.
  injection Hget as Hp Hw1. subst p w1.
  split; [reflexivity|].
  destruct keyword as [|c r]; [congruence|].
  eexists. unfold postGenerate, tryCatch, bind, query, json, ret, logCall.
  cbn [store calls]. rewrite Hlookup. cbn [alreadyGenerated]. rewrite Hgen.
  split; [reflexivity|]. split; [reflexivity|].
  cbn [calls]. rewrite skipn_app, skipn_all, Nat.sub_diag. reflexivity.
Qed.

Lemma getPage_then_postGenerate_witness :
  store (mkWorld sampleStore [CallGetPageBySlug "heart-emoji"]) = store sampleWorld /\
  exists w2 : World MemStorage.Store,
    postGenerate MemStorage.storage generateSeoContent (Some "Heart Emoji") sampleWorld =
      (inr (mkResponse 200 (PageJson (Some heartPage))), w2) /\
    store w2 = store sampleWorld /\
    writes (skipn (length (calls sampleWorld)) (calls w2)) = [].
Proof.
  apply (getPage_then_postGenerate MemStorage.Store MemStorage.storage generateSeoContent
           "Heart Emoji" sampleWorld
           (mkWorld sampleStore [CallGetPageBySlug "heart-emoji"]) heartPage).
  - discriminate.
  - reflexivity.
  - reflexivity.
Defined.

(** ** More on the seed routine *)

Module BatchingFacts.

(** The loop over the emoji batches on a storage that accepts every
    insert: the batches are the consecutive slices of the data from
    [i] on. *)
Lemma seedEmojiBatches_slices {S : Type} (storage : Storage S)
    (EMOJI_DATA : list InsertEmoji.t)
    (accepts : forall (batch : list InsertEmoji.t) (s : S),
        exists s' : S, createEmojis storage batch s = inr (tt, s'))
    (i : nat) :
  forall w : World S,
  exists (w' : World S) (batches : list (list InsertEmoji.t)),
    seedEmojiBatches storage EMOJI_DATA i w = (inr tt, w') /\
    calls w' = (calls w ++ map CallCreateEmojis batches)%list /\
    concat batches = skipn i EMOJI_DATA /\
    Forall (fun batch => (0 < length batch <= 50)%nat) batches.
Proof.
  apply (seedEmojiBatches_elim storage EMOJI_DATA
           (fun i m => forall w, exists w' batches,
                m w = (inr tt, w') /\
                calls w' = (calls w ++ map CallCreateEmojis batches)%list /\
                concat batches = skipn i EMOJI_DATA /\
                Forall (fun batch => (0 < length batch <= 50)%nat) batches)).
  - intros j Hlt IH _ w. unfold bind, mutate.
    destruct (accepts (batchAt EMOJI_DATA j 50) (store w)) as [s' Hs']. rewrite Hs'.
    match goal with
    | |- context [seedEmojiBatches storage EMOJI_DATA _ ?w1] =>
        destruct (IH tt w1 w1) as [w' [batches [Hrun [Hcalls [Hconcat Hsizes]]]]]
    end.
    exists w', (batchAt EMOJI_DATA j 50 :: batches).
    split; [exact Hrun|].
    split; [rewrite Hcalls; unfold logCall; cbn [calls map]; now rewrite <- app_assoc|].
    split.
    + cbn [concat]. rewrite Hconcat. unfold batchAt.
      replace (j + 50)%nat with (50 + j)%nat by lia.
      rewrite <- skipn_skipn. apply firstn_skipn.
    + constructor; [|exact Hsizes].
      unfold batchAt. rewrite length_firstn, length_skipn. lia.
  - intros j Hge _ w. exists w, []. unfold ret. cbn [map concat].
    rewrite app_nil_r, skipn_all2 by lia. repeat split. constructor.
Qed.

End BatchingFacts.

(** X12. On a storage that accepts every insert, the seed loop hands
    over all of [EMOJI_DATA], each emoji once and in order, in batches
    of at least 1 and at most 50 emojis: the batches, put one after the
    other, are the data. *)
Theorem seedEmojiBatches_covers_data :
  forall (S : Type) (storage : Storage S) (EMOJI_DATA : list InsertEmoji.t)
         (w : World S),
    (forall (batch : list InsertEmoji.t) (s : S),
        exists s' : S, createEmojis storage batch s = inr (tt, s')) ->
    exists (w' : World S) (batches : list (list InsertEmoji.t)),
      seedEmojiBatches storage EMOJI_DATA 0 w = (inr tt, w') /\
      calls w' = (calls w ++ map CallCreateEmojis batches)%list /\
      concat batches = EMOJI_DATA /\
      Forall (fun batch => (0 < length batch <= 50)%nat) batches.
Proof.
  intros S storage EMOJI_DATA w accepts.
  apply (BatchingFacts.seedEmojiBatches_slices storage EMOJI_DATA accepts 0 w).
Qed.

Lemma seedEmojiBatches_covers_data_witness :
  exists (w' : World MemStorage.Store) (batches : list (list InsertEmoji.t)),
    seedEmojiBatches MemStorage.storage sampleEmojiData 0 (mkWorld unseededStore []) =
      (inr tt, w') /\
    calls w' = (calls (mkWorld unseededStore []) ++ map CallCreateEmojis batches)%list /\
    concat batches = sampleEmojiData /\
    Forall (fun batch => (0 < length batch <= 50)%nat) batches.
Proof.
  apply (seedEmojiBatches_covers_data MemStorage.Store MemStorage.storage
           sampleEmojiData (mkWorld unseededStore [])).
  intros batch s. eexists. reflexivity.
Defined.

(** X13. The loop over the page stubs attempts every stub once, in the
    order of the list, whatever the storage answers: a rejected stub
    neither stops the loop nor is retried, and the loop ends without an
    error. *)
Theorem seedPageStubs_attempts_every_stub :
  forall (S : Type) (storage : Storage S) (stubs : list InsertSeoPage.t) (w : World S),
  exists w' : World S,
    seedPageStubs storage stubs w = (inr tt, w') /\
    calls w' = (calls w ++ map CallCreatePage stubs)%list.
Proof. intros S storage stubs w. apply RouteFacts.seedPageStubs_calls. Qed.

(** X14. The seed routine reads the emoji count first, then inserts
    emoji batches, then creates page stubs, in that order, for any
    storage, and what it does follows the count and the outcome of the
    inserts.  When the storage rejects the count, the routine fails with
    that error; when the count is above 0, it ends at once; in both
    cases it makes no further call and leaves the store alone.
    Otherwise it runs the loop over the emoji batches: when an insert is
    rejected the routine fails with that error and makes no
    [createPage] call, and when every insert is accepted it attempts
    every page stub, in order, and ends without an error. *)
Theorem seedDatabase_call_order :
  forall (S : Type) (storage : Storage S)
         (EMOJI_DATA : list InsertEmoji.t) (TOP_KEYWORDS : list string)
         (generateSeoPages : list string -> list InsertSeoPage.t) (w : World S),
  exists (res : Exn + unit) (w' : World S) (batches pageCalls : list Call),
    seedDatabase storage EMOJI_DATA TOP_KEYWORDS generateSeoPages w = (res, w') /\
    calls w' = (calls w ++ CallGetEmojiCount :: batches ++ pageCalls)%list /\
    Forall isCreateEmojis batches /\
    match getEmojiCount storage (store w) with
    | inl e => res = inl e /\ batches = [] /\ pageCalls = [] /\ store w' = store w
    | inr count =>
        if (count >? 0)%Z
        then res = inr tt /\ batches = [] /\ pageCalls = [] /\ store w' = store w
        else
          match fst (seedEmojiBatches storage EMOJI_DATA 0
                       (mkWorld (store w) (calls w ++ [CallGetEmojiCount]))) with
          | inl e => res = inl e /\ pageCalls = []
          | inr _ =>
              res = inr tt /\
              pageCalls = map CallCreatePage (generateSeoPages TOP_KEYWORDS)
          end
    end.
Proof.
  intros S storage EMOJI_DATA TOP_KEYWORDS generateSeoPages w.
  unfold seedDatabase, bind at 1. unfold query at 1.
  destruct (getEmojiCount storage (store w)) as [e|count].
  - eexists; eexists; exists [], []. unfold logCall.
    split; [reflexivity|]. split; [reflexivity|]. split; [constructor|].
    repeat split.
  - destruct (count >? 0)%Z.
    + eexists; eexists; exists [], []. unfold ret, logCall.
      split; [reflexivity|]. split; [reflexivity|]. split; [constructor|].
      repeat split.
    + unfold bind, logCall.
      destruct (RouteFacts.seedEmojiBatches_calls storage EMOJI_DATA 0
                  (mkWorld (store w) (calls w ++ [CallGetEmojiCount])))
        as [res [w1' [batches [Hrun [Hcalls Hok]]]]].
      rewrite Hrun. cbn [fst]. destruct res as [e|[]].
      * exists (inl e), w1', batches, [].
        split; [reflexivity|].
        split; [rewrite Hcalls; cbn [calls];
                now rewrite app_nil_r, <- app_assoc|].
        split; [exact Hok | now split].
      * destruct (RouteFacts.seedPageStubs_calls storage (generateSeoPages TOP_KEYWORDS) w1')
          as [w2 [Hstubs Hcalls2]].
        exists (inr tt), w2, batches, (map CallCreatePage (generateSeoPages TOP_KEYWORDS)).
        split; [exact Hstubs|].
        split; [rewrite Hcalls2, Hcalls; cbn [calls];
                now rewrite <- !app_assoc|].
        split; [exact Hok | now split].
Qed.

Example seedDatabase_seeded_makes_no_stub :
  seedDatabase MemStorage.storage sampleEmojiData ["heart emoji"] sampleSeoPages sampleWorld =
    (inr tt, mkWorld sampleStore [CallGetEmojiCount]).
Proof. reflexivity. Qed.

Example seedDatabase_failed_insert :
  seedDatabase rejectingEmojis sampleEmojiData ["heart emoji"] sampleSeoPages
               (mkWorld unseededStore []) =
    (inl (Thrown "insert failed"),
     mkWorld unseededStore [CallGetEmojiCount; CallCreateEmojis sampleEmojiData]).
Proof. reflexivity. Qed.

(** ** The bulk action of the admin page *)

Module BulkFacts.

Section Loop.

Context {W : Type}.
Variable post : W -> BatchReply * W.

Lemma sumGenerated_app (rs1 rs2 : list BatchReply) :
  sumGenerated (rs1 ++ rs2) = (sumGenerated rs1 + sumGenerated rs2)%Z.
Proof.
  induction rs1 as [|[n|] rs1 IH]; cbn [sumGenerated app]; [reflexivity| |exact IH].
  rewrite IH. lia.
Qed.

(** When every reply but the last lets the loop go on, only the last
    one can be a failure. *)
Lemma errorToasts_last (rs : list BatchReply) :
  forallb goesOn (removelast rs) = true ->
  errorToasts rs =
    match last rs (Replied 0) with
    | Threw => [ToastBatchError]
    | Replied _ => []
    end.
Proof.
  induction rs as [|r rs IH]; intros Hon; [reflexivity|].
  destruct rs as [|r' rs'].
  - destruct r; reflexivity.
  - change (removelast (r :: r' :: rs')) with (r :: removelast (r' :: rs')) in Hon.
    cbn [forallb] in Hon. apply andb_prop in Hon. destruct Hon as [Hr Hrest].
    change (last (r :: r' :: rs') (Replied 0)) with (last (r' :: rs') (Replied 0)).
    rewrite <- (IH Hrest).
    destruct r as [n|]; [reflexivity | discriminate].
Qed.

(** The loop, round by round: the new replies, the total and what the
    page shows. *)
Lemma bulkRounds_run (rounds : nat) :
  forall (total : Z) (a : Admin W),
    generatedCount a = total ->
    exists new : list BatchReply,
      replies (snd (bulkRounds post rounds total a)) = (replies a ++ new)%list /\
      (length new <= rounds)%nat /\
      fst (bulkRounds post rounds total a) = (total + sumGenerated new)%Z /\
      generatedCount (snd (bulkRounds post rounds total a)) = (total + sumGenerated new)%Z /\
      forallb goesOn (removelast new) = true /\
      ((length new = rounds /\ forallb goesOn new = true) \/
       exists stop : BatchReply, last new stop = stop /\ new <> [] /\ goesOn stop = false) /\
      toasts (snd (bulkRounds post rounds total a)) = (toasts a ++ errorToasts new)%list /\
      isRunningBulk (snd (bulkRounds post rounds total a)) = isRunningBulk a /\
      new = repliesFrom post (length new) (server a).
Proof.
  induction rounds as [|rounds IH]; intros total a Hcount.
  - exists []. cbn [bulkRounds fst snd length sumGenerated removelast forallb
                    errorToasts flat_map].
    rewrite !app_nil_r, Z.add_0_r.
    split; [reflexivity|]. split; [lia|]. split; [reflexivity|]. split; [exact Hcount|].
    split; [reflexivity|]. split; [left; split; reflexivity|].
    split; [reflexivity|]. split; reflexivity.
  - cbn [bulkRounds repliesFrom].
    destruct (post (server a)) as [[generated|] server'] eqn:Hpost.
    + destruct (generated =? 0)%Z eqn:Hzero.
      * apply Z.eqb_eq in Hzero. subst generated.
        exists [Replied 0%Z].
        cbn [fst snd replies generatedCount toasts isRunningBulk length sumGenerated
             removelast forallb errorToasts flat_map app].
        rewrite app_nil_r, Z.add_0_r.
        split; [reflexivity|]. split; [lia|]. split; [reflexivity|]. split; [exact Hcount|].
        split; [reflexivity|].
        split; [right; exists (Replied 0%Z); repeat split; discriminate|].
        split; [reflexivity|]. split; [reflexivity|].
        cbn [repliesFrom]. now rewrite Hpost.
      * match goal with
        | |- context [bulkRounds post rounds ?t ?a1] =>
            destruct (IH t a1 eq_refl)
              as [new [Hrep [Hlen [Htot [Hcnt [Hon [Hend [Htoast [Hrun Hfrom]]]]]]]]]
        end.
        cbn [server] in Hfrom.
        exists (Replied generated :: new).
        rewrite Hrep, Htot, Hcnt, Htoast, Hrun.
        cbn [replies toasts isRunningBulk length sumGenerated].
        split; [now rewrite <- app_assoc|].
        split; [lia|]. split; [lia|]. split; [lia|].
        split.
        { destruct new as [|r new']; [reflexivity|].
          change (removelast (Replied generated :: r :: new'))
            with (Replied generated :: removelast (r :: new')).
          cbn [forallb goesOn]. now rewrite Hzero, Hon. }
        split.
        { destruct Hend as [[Hfull Hall]|[stop [Hlast [Hne Hstop]]]].
          - left. split; [now rewrite Hfull|]. cbn [forallb goesOn]. now rewrite Hzero, Hall.
          - right. exists stop. split; [|split; [discriminate | exact Hstop]].
            destruct new as [|r new']; [congruence|]. exact Hlast. }
        split; [reflexivity|]. split; [reflexivity|].
        cbn [length repliesFrom]. rewrite Hpost. cbn [fst snd]. now rewrite <- Hfrom.
    + exists [Threw].
      cbn [fst snd replies generatedCount toasts isRunningBulk length sumGenerated
           removelast forallb errorToasts flat_map app].
      rewrite Z.add_0_r.
      split; [reflexivity|]. split; [lia|]. split; [reflexivity|]. split; [exact Hcount|].
      split; [reflexivity|].
      split; [right; exists Threw; repeat split; discriminate|].
      split; [reflexivity|]. split; [reflexivity|].
      cbn [repliesFrom]. now rewrite Hpost.
Qed.

End Loop.

End BulkFacts.

(** X15. The bulk action of the admin page makes at least one and at most
    100 requests, one after the other against the server it was started
    on.  Every reply but the last reported a number other than 0; the
    loop stops at the first reply of 0 or the first failed request, or
    after the hundredth round.  The total it announces in its closing
    toast, and the progress counter it leaves on the page, are the sum
    of the numbers the replies reported.  The toasts it adds are one
    error toast for each failed request (so one when the last request
    failed, none otherwise: only the last reply can be a failure) and
    then the closing toast; the running flag is off at the end. *)
Theorem handleBulkGenerate_bounded :
  forall (W : Type) (post : W -> BatchReply * W) (a : Admin W),
  exists new : list BatchReply,
    replies (handleBulkGenerate post a) = (replies a ++ new)%list /\
    new = repliesFrom post (length new) (server a) /\
    (1 <= length new <= 100)%nat /\
    forallb goesOn (removelast new) = true /\
    ((length new = 100%nat /\ forallb goesOn new = true) \/
     exists stop : BatchReply, last new stop = stop /\ goesOn stop = false) /\
    toasts (handleBulkGenerate post a) =
      (toasts a ++ errorToasts new ++ [ToastGenerated (sumGenerated new)])%list /\
    errorToasts new =
      match last new (Replied 0) with
      | Threw => [ToastBatchError]
      | Replied _ => []
      end /\
    generatedCount (handleBulkGenerate post a) = sumGenerated new /\
    isRunningBulk (handleBulkGenerate post a) = false.
Proof.
  intros W post a. unfold handleBulkGenerate.
  set (started := mkAdmin (server a) 0 true (toasts a) (invalidations a) (replies a)).
  destruct (BulkFacts.bulkRounds_run post maxRounds 0%Z started eq_refl)
    as [new [Hrep [Hlen [Htot [Hcnt [Hon [Hend [Htoast [Hrun Hfrom]]]]]]]]].
  destruct (bulkRounds post maxRounds 0 started) as [total done].
  cbn [fst snd] in *. cbn [replies toasts generatedCount isRunningBulk].
  exists new. rewrite Hrep, Htoast, Hcnt. subst total.
  rewrite Z.add_0_l. cbn [replies toasts started].
  split; [reflexivity|].
  split; [exact Hfrom|].
  split.
  { split; [|exact Hlen].
    destruct Hend as [[Hfull _]|[stop [_ [Hne _]]]].
    - rewrite Hfull. unfold maxRounds. lia.
    - destruct new; [congruence | cbn [length]; lia]. }
  split; [exact Hon|].
  split.
  { destruct Hend as [[Hfull Hall]|[stop [Hlast [_ Hstop]]]].
    - left. now split.
    - right. now exists stop. }
  split; [now rewrite <- app_assoc|].
  split; [apply BulkFacts.errorToasts_last; exact Hon|]. split; reflexivity.
Qed.

Example handleBulkGenerate_failed_request :
  toasts (handleBulkGenerate (fun n : nat => match n with
                                             | O => (Threw, O)
                                             | Datatypes.S k => (Replied 5, k)
                                             end) (adminAt 2%nat)) =
    [ToastBatchError; ToastGenerated 10].
Proof. reflexivity. Qed.

Module BulkOnMemory.

(** One request of the bulk loop against the batch route on the
    in-memory store: up to 5 pending pages become generated. *)
Lemma postBatch_mem (render : string -> list Emoji.t -> string)
    (s : MemStorage.Store) (cs : list Call) :
  NoDup (map SeoPage.id (MemStorage.pages s)) ->
  exists (s' : MemStorage.Store) (cs' : list Call),
    postBatch MemStorage.storage render (mkWorld s cs) =
      (Replied (Z.of_nat (Nat.min 5 (pending s))), mkWorld s' cs') /\
    NoDup (map SeoPage.id (MemStorage.pages s')) /\
    pending s' = (pending s - Nat.min 5 (pending s))%nat /\
    MemStorage.emojis s' = MemStorage.emojis s.
Proof.
  destruct s as [es ps ne np]. cbn [MemStorage.pages MemStorage.emojis]. intros Hnd.
  set (batch := firstn 5 (filter MemStorage.ungenerated ps)).
  set (fields := batchFields render es).
  exists (MemStorage.mkStore es (pagesAfterBatch fields batch ps) ne np).
  eexists.
  assert (Hbatch : forall p, In p batch -> In p ps /\ SeoPage.isGenerated p = false).
  { intros p Hp. apply BatchFacts.In_firstn, filter_In in Hp.
    destruct Hp as [Hin Hun]. split; [exact Hin|].
    unfold MemStorage.ungenerated in Hun. now apply negb_true_iff in Hun. }
  assert (Hlen : length batch = Nat.min 5 (length (filter MemStorage.ungenerated ps)))
    by apply length_firstn.
  assert (Hcount :
            (length (filter MemStorage.ungenerated (pagesAfterBatch fields batch ps))
             + length batch = length (filter MemStorage.ungenerated ps))%nat).
  { apply BatchFacts.batch_count.
    - intros p. apply BatchFacts.batchFields_generated.
    - exact Hnd.
    - now apply BatchFacts.NoDup_map_firstn, BatchFacts.NoDup_map_filter.
    - exact Hbatch. }
  unfold pending. cbn [MemStorage.pages MemStorage.emojis].
  split; [|split; [|split]].
  - unfold postBatch, postGenerateBatch, tryCatch, bind at 1.
    unfold bind at 1. unfold query at 1.
    cbn [store calls getUngeneratedPages MemStorage.storage
         MemStorage.getUngeneratedPages MemStorage.pages].
    change (Z.to_nat 5) with 5%nat. fold batch.
    rewrite BatchFacts.generateEach_mem. unfold json, ret. cbn [fst snd].
    rewrite Z.add_0_l, Hlen. reflexivity.
  - now rewrite BatchFacts.batch_ids.
  - lia.
  - reflexivity.
Qed.

(** The rounds of the bulk loop against the in-memory store. *)
Lemma bulkRounds_mem (render : string -> list Emoji.t -> string) (rounds : nat) :
  forall (total : Z) (a : Admin (World MemStorage.Store)),
    NoDup (map SeoPage.id (MemStorage.pages (store (server a)))) ->
    exists a' : Admin (World MemStorage.Store),
      bulkRounds (postBatch MemStorage.storage render) rounds total a =
        ((total + Z.of_nat (Nat.min (pending (store (server a))) (5 * rounds)))%Z, a') /\
      pending (store (server a')) =
        (pending (store (server a)) - Nat.min (pending (store (server a))) (5 * rounds))%nat /\
      MemStorage.emojis (store (server a')) = MemStorage.emojis (store (server a)) /\
      toasts a' = toasts a /\
      isRunningBulk a' = isRunningBulk a.
Proof.
  induction rounds as [|rounds IH]; intros total a Hnd.
  - exists a. cbn [bulkRounds]. rewrite Nat.mul_0_r, Nat.min_0_r, Nat.sub_0_r, Z.add_0_r.
    repeat split.
  - destruct a as [[s cs] count running shown inv seen]. cbn [server store] in *.
    destruct (postBatch_mem render s cs Hnd) as [s' [cs' [Hpost [Hnd' [Hpending Hemojis]]]]].
    cbn [bulkRounds server]. rewrite Hpost.
    destruct (Z.of_nat (Nat.min 5 (pending s)) =? 0)%Z eqn:Hzero.
    + apply Z.eqb_eq in Hzero.
      eexists. split; [f_equal; clear - Hzero; lia|].
      cbn [server store toasts isRunningBulk].
      split; [clear - Hzero Hpending; lia|].
      split; [exact Hemojis|]. split; reflexivity.
    + apply Z.eqb_neq in Hzero.
      match goal with
      | |- context [bulkRounds _ rounds ?t ?a1] =>
          destruct (IH t a1 Hnd') as [a' [Hrun [Hleft [Hem [Hts Hrb]]]]]
      end.
      cbn [server store toasts isRunningBulk] in *.
      exists a'. rewrite Hrun.
      split; [f_equal; clear - Hzero Hpending; lia|].
      split; [clear - Hzero Hpending Hleft; lia|].
      split; [congruence|]. split; assumption.
Qed.

End BulkOnMemory.

(** X16. The bulk action against the batch route, on the in-memory store
    with unique page ids: one click generates the pending pages, up to
    500 of them (100 rounds of 5).  With [n] pages pending at the start
    it announces [min n 500], leaves [n - min n 500] pending, shows no
    error toast and does not touch the emoji table. *)
Theorem handleBulkGenerate_generates_pending :
  forall (render : string -> list Emoji.t -> string) (s : MemStorage.Store),
    NoDup (map SeoPage.id (MemStorage.pages s)) ->
    let done := handleBulkGenerate (postBatch MemStorage.storage render)
                                   (adminAt (mkWorld s [])) in
    generatedCount done = Z.of_nat (Nat.min (pending s) 500) /\
    toasts done = [ToastGenerated (Z.of_nat (Nat.min (pending s) 500))] /\
    pending (store (server done)) = (pending s - Nat.min (pending s) 500)%nat /\
    MemStorage.emojis (store (server done)) = MemStorage.emojis s /\
    isRunningBulk done = false.
Proof.
  intros render s Hnd done. subst done. unfold handleBulkGenerate, adminAt.
  cbn [server toasts invalidations replies].
  destruct (BulkOnMemory.bulkRounds_mem render maxRounds 0%Z
              (mkAdmin (mkWorld s []) 0%Z true [] 0%nat []) Hnd)
    as [a' [Hrun [Hleft [Hem [Hts Hrb]]]]].
  rewrite Hrun. cbn [server store toasts isRunningBulk generatedCount] in *.
  change (5 * maxRounds)%nat with 500%nat in *. rewrite Z.add_0_l.
  assert (Hcount : generatedCount a' = Z.of_nat (Nat.min (pending s) 500)).
  { pose proof (BulkFacts.bulkRounds_run (postBatch MemStorage.storage render) maxRounds 0%Z
                  (mkAdmin (mkWorld s []) 0%Z true [] 0%nat []) eq_refl)
      as [new [_ [_ [Htot [Hcnt _]]]]].
    rewrite Hrun in Htot, Hcnt. cbn [fst snd] in Htot, Hcnt.
    change (5 * maxRounds)%nat with 500%nat in Htot.
    cbn [server store] in Htot. clear - Htot Hcnt. lia. }
  rewrite Hts. repeat split; assumption.
Qed.

Lemma handleBulkGenerate_generates_pending_witness :
  let done := handleBulkGenerate (postBatch MemStorage.storage generateSeoContent)
                                 (adminAt (mkWorld sampleStore [])) in
  generatedCount done = 1%Z /\
  toasts done = [ToastGenerated 1%Z] /\
  pending (store (server done)) = 0%nat /\
  MemStorage.emojis (store (server done)) = MemStorage.emojis sampleStore /\
  isRunningBulk done = false.
Proof.
  assert (Hnd : NoDup (map SeoPage.id (MemStorage.pages sampleStore))).
  { simpl. repeat constructor; simpl; intuition discriminate. }
  exact (handleBulkGenerate_generates_pending generateSeoContent sampleStore Hnd).
Defined.

(** ** The content renderer of the SEO page *)

Module RenderFacts.

Lemma anyChar_app (f : ascii -> bool) (a b : string) :
  anyChar f (a ++ b) = anyChar f a || anyChar f b.
Proof.
  induction a as [|c a IH]; [reflexivity|].
  cbn [String.append anyChar]. now rewrite IH, orb_assoc.
Qed.

Lemma anyChar_weaken (f g : ascii -> bool) (s : string) :
  (forall c, g c = true -> f c = true) ->
  anyChar f s = false -> anyChar g s = false.
Proof.
  intros Hfg. induction s as [|c r IH]; [reflexivity|].
  cbn [anyChar]. intros H. apply orb_false_iff in H. destruct H as [Hc Hr].
  rewrite (IH Hr), orb_false_r.
  destruct (g c) eqn:E; [|reflexivity]. now rewrite (Hfg c E) in Hc.
Qed.

Lemma anyChar_dropChars (f : ascii -> bool) (n : nat) (s : string) :
  anyChar f s = false -> anyChar f (Js.dropChars n s) = false.
Proof.
  revert s. induction n as [|n IH]; intros s H; [exact H|].
  destruct s as [|c r]; [reflexivity|].
  cbn [anyChar] in H. apply orb_false_iff in H. cbn [Js.dropChars]. now apply IH.
Qed.

Lemma anyChar_removeFirst (f : ascii -> bool) (p s : string) :
  anyChar f s = false -> anyChar f (Js.removeFirst p s) = false.
Proof.
  induction s as [|c r IH]; intros H.
  - cbn [Js.removeFirst]. destruct (Js.startsWith p EmptyString); [|reflexivity].
    now apply anyChar_dropChars.
  - cbn [Js.removeFirst]. destruct (Js.startsWith p (String c r)).
    + now apply anyChar_dropChars.
    + cbn [anyChar] in *. apply orb_false_iff in H. destruct H as [Hc Hr].
      now rewrite Hc, (IH Hr).
Qed.

Lemma upper_newline (c : ascii) :
  Ascii.eqb (Js.upperChar c) newline = Ascii.eqb c newline.
Proof. KeywordFacts.each_char c. Qed.

Lemma capitalizeFrom_newline (s : string) :
  forall atStart,
    anyChar (fun c => Ascii.eqb c newline) (capitalizeFrom atStart s) =
    anyChar (fun c => Ascii.eqb c newline) s.
Proof.
  induction s as [|c r IH]; intros atStart; [reflexivity|].
  cbn [capitalizeFrom anyChar]. rewrite IH.
  destruct atStart; [now rewrite upper_newline | reflexivity].
Qed.

(** Splitting at newlines gives back the first line when it has none. *)
Lemma splitOn_first (a rest : string) :
  anyChar (fun c => Ascii.eqb c newline) a = false ->
  Js.splitOn newline (a ++ String newline rest) = a :: Js.splitOn newline rest.
Proof.
  induction a as [|c a IH]; intros H.
  - cbn [String.append Js.splitOn]. now rewrite Ascii.eqb_refl.
  - cbn [anyChar] in H. apply orb_false_iff in H. destruct H as [Hc Ha].
    cbn [String.append Js.splitOn]. now rewrite Hc, (IH Ha).
Qed.

Lemma splitOn_plain (a : string) :
  anyChar (fun c => Ascii.eqb c newline) a = false ->
  Js.splitOn newline a = [a].
Proof.
  induction a as [|c a IH]; intros H; [reflexivity|].
  cbn [anyChar] in H. apply orb_false_iff in H. destruct H as [Hc Ha].
  cbn [Js.splitOn]. now rewrite Hc, (IH Ha).
Qed.

(** Joining lines with newlines and splitting again is the identity on
    lines without newlines. *)
Lemma splitOn_join (items : list string) :
  items <> [] ->
  Forall (fun item => anyChar (fun c => Ascii.eqb c newline) item = false) items ->
  Js.splitOn newline (Js.join nl items) = items.
Proof.
  induction items as [|w ws IH]; intros Hne Hplain; [congruence|].
  apply Forall_cons_iff in Hplain. destruct Hplain as [Hw Hws].
  destruct ws as [|w' ws'].
  - cbn [Js.join]. now apply splitOn_plain.
  - rewrite KeywordFacts.join_two.
    change (nl ++ Js.join nl (w' :: ws')) with (String newline (Js.join nl (w' :: ws'))).
    rewrite (splitOn_first _ _ Hw), IH; [reflexivity | discriminate | exact Hws].
Qed.

Lemma renderLine_heading (text : string) : renderLine ("# " ++ text) = Heading1 text.
Proof. reflexivity. Qed.

Lemma renderLine_item (html : string) :
  renderLine ("- " ++ html) = ListItem (strongReplace "<strong>" "</strong>" html).
Proof. reflexivity. Qed.

Lemma no_match_without_star (c : ascii) (r : string) :
  Ascii.eqb c star = false -> matchStrong (String c r) = None.
Proof.
  intros H. unfold matchStrong. cbn [Js.startsWith].
  rewrite Ascii.eqb_sym. fold star. now rewrite H.
Qed.

(** Text without stars goes through the replacement unchanged. *)
Lemma strongFrom_plain (opening closing s : string) :
  anyChar (fun c => Ascii.eqb c star) s = false ->
  strongFrom 0 opening closing s = s.
Proof.
  induction s as [|c r IH]; intros H; [reflexivity|].
  cbn [anyChar] in H. apply orb_false_iff in H. destruct H as [Hc Hr].
  cbn [strongFrom]. now rewrite (no_match_without_star c r Hc), (IH Hr).
Qed.

Lemma strongFrom_prefix (opening closing a s : string) :
  anyChar (fun c => Ascii.eqb c star) a = false ->
  strongFrom 0 opening closing (a ++ s) = a ++ strongFrom 0 opening closing s.
Proof.
  induction a as [|c a IH]; intros H; [reflexivity|].
  cbn [anyChar] in H. apply orb_false_iff in H. destruct H as [Hc Ha].
  cbn [String.append strongFrom].
  now rewrite (no_match_without_star c (a ++ s) Hc), (IH Ha).
Qed.

Lemma strongFrom_skip (opening closing a s : string) :
  strongFrom (String.length a) opening closing (a ++ s) = strongFrom 0 opening closing s.
Proof.
  induction a as [|c a IH]; [reflexivity|].
  cbn [String.length String.append strongFrom]. exact IH.
Qed.

(** Whether a line terminator starts a text does not depend on the
    stars that follow the text. *)
Lemma lineTerminatorAt_tail (c : ascii) (inner tail : string) :
  lineTerminatorAt (String c inner ++ String star tail) = lineTerminatorAt (String c inner).
Proof.
  unfold lineTerminatorAt, lineTerminators, bytes.
  destruct inner as [|x [|y z]];
    cbn [existsb fold_right Js.startsWith String.append];
    change (Ascii.eqb (ascii_of_N 128) star) with false;
    change (Ascii.eqb (ascii_of_N 168) star) with false;
    change (Ascii.eqb (ascii_of_N 169) star) with false;
    rewrite ?andb_false_r, ?andb_true_r; reflexivity.
Qed.

Lemma untilClose_tail (inner tail : string) :
  Js.startsWith "**" tail = true ->
  anyChar (fun c => Ascii.eqb c star) inner = false ->
  hasLineTerminator inner = false ->
  untilClose (inner ++ tail) = Some inner.
Proof.
  intros Htail.
  induction inner as [|c inner IH]; intros Hstar Hterm.
  - cbn [String.append]. destruct tail as [|t tail']; [discriminate|].
    cbn [untilClose]. now rewrite Htail.
  - cbn [anyChar] in Hstar. cbn [hasLineTerminator] in Hterm.
    apply orb_false_iff in Hstar. destruct Hstar as [Hc Hstar].
    apply orb_false_iff in Hterm. destruct Hterm as [Ht Hterm].
    assert (Hat : lineTerminatorAt (String c (inner ++ tail)) = false).
    { destruct tail as [|t tail']; [discriminate|].
      cbn [Js.startsWith] in Htail. apply andb_prop in Htail.
      destruct Htail as [Hstart _]. apply Ascii.eqb_eq in Hstart. subst t.
      change (String c (inner ++ String "*" tail'))
        with (String c inner ++ String star tail').
      now rewrite lineTerminatorAt_tail. }
    cbn [String.append untilClose Js.startsWith].
    rewrite Ascii.eqb_sym. fold star. rewrite Hc. cbn [andb].
    now rewrite Hat, (IH Hstar Hterm).
Qed.

Lemma untilClose_plain (inner rest : string) :
  anyChar (fun c => Ascii.eqb c star) inner = false ->
  hasLineTerminator inner = false ->
  untilClose (inner ++ "**" ++ rest) = Some inner.
Proof. now apply untilClose_tail. Qed.

Lemma append_append (a b c : string) : (a ++ b) ++ c = a ++ b ++ c.
Proof. induction a as [|x a IH]; [reflexivity|]. cbn [String.append]. now rewrite IH. Qed.

Lemma strongFrom_match (opening closing : string) (c : ascii) (r inner : string) :
  matchStrong (String c r) = Some inner ->
  strongFrom 0 opening closing (String c r) =
  opening ++ inner ++ closing ++ strongFrom (String.length inner + 3) opening closing r.
Proof. intros H. cbn [strongFrom]. now rewrite H. Qed.

(** A pair of double stars around plain text becomes one element. *)
Lemma strongFrom_bold (opening closing inner rest : string) :
  anyChar (fun c => Ascii.eqb c star) inner = false ->
  hasLineTerminator inner = false ->
  strongFrom 0 opening closing ("**" ++ inner ++ "**" ++ rest) =
  opening ++ inner ++ closing ++ strongFrom 0 opening closing rest.
Proof.
  intros Hstar Hterm.
  change ("**" ++ inner ++ "**" ++ rest)
    with (String star (String star (inner ++ "**" ++ rest))).
  rewrite (strongFrom_match opening closing star _ inner).
  - do 3 f_equal.
    replace (String star (inner ++ "**" ++ rest))
      with ((String star (inner ++ "**")) ++ rest)
      by (cbn [String.append]; now rewrite append_append).
    replace (String.length inner + 3)%nat
      with (String.length (String star (inner ++ "**"))).
    + apply strongFrom_skip.
    + cbn [String.length]. rewrite SearchTermFacts.append_length. cbn [String.length]. lia.
  - unfold matchStrong. cbn [Js.startsWith Js.dropChars].
    change (Ascii.eqb "*" star) with true. cbn [andb].
    now apply untilClose_plain.
Qed.

Lemma plain_no_star (s : string) :
  plainText s = true -> anyChar (fun c => Ascii.eqb c star) s = false.
Proof.
  unfold plainText. intros H. apply andb_prop in H. destruct H as [H _].
  now apply negb_true_iff in H.
Qed.

Lemma plain_no_terminator (s : string) :
  plainText s = true -> hasLineTerminator s = false.
Proof.
  unfold plainText. intros H. apply andb_prop in H. destruct H as [_ H].
  now apply negb_true_iff in H.
Qed.

(** A newline is a line terminator. *)
Lemma terminator_newline (s : string) :
  hasLineTerminator s = false -> anyChar (fun c => Ascii.eqb c newline) s = false.
Proof.
  induction s as [|c r IH]; intros H; [reflexivity|].
  cbn [hasLineTerminator] in H. apply orb_false_iff in H. destruct H as [Hat Hr].
  cbn [anyChar]. rewrite (IH Hr), orb_false_r.
  destruct (Ascii.eqb c newline) eqn:Hc; [|reflexivity].
  apply Ascii.eqb_eq in Hc. subst c. discriminate Hat.
Qed.

Lemma plain_no_newline (s : string) :
  plainText s = true -> anyChar (fun c => Ascii.eqb c newline) s = false.
Proof. intros H. now apply terminator_newline, plain_no_terminator. Qed.

Lemma plain_line (s : string) : plainText s = true -> plainLine s = true.
Proof.
  intros H. unfold plainLine. apply negb_true_iff.
  pose proof (plain_no_star _ H) as Hstar. pose proof (plain_no_newline _ H) as Hnl.
  clear H. induction s as [|c r IH]; [reflexivity|].
  cbn [anyChar] in *.
  apply orb_false_iff in Hstar. destruct Hstar as [Hc Hstar].
  apply orb_false_iff in Hnl. destruct Hnl as [Hn Hnl].
  now rewrite Hc, Hn, (IH Hstar Hnl).
Qed.

Lemma line_no_star (s : string) :
  plainLine s = true -> anyChar (fun c => Ascii.eqb c star) s = false.
Proof.
  unfold plainLine. intros H. apply negb_true_iff in H.
  revert H. apply anyChar_weaken. intros c Hc. now rewrite Hc.
Qed.

Lemma line_no_newline (s : string) :
  plainLine s = true -> anyChar (fun c => Ascii.eqb c newline) s = false.
Proof.
  unfold plainLine. intros H. apply negb_true_iff in H.
  revert H. apply anyChar_weaken. intros c Hc. now rewrite Hc, orb_true_r.
Qed.

Lemma line_app (a b : string) :
  plainLine (a ++ b) = plainLine a && plainLine b.
Proof. unfold plainLine. now rewrite anyChar_app, negb_orb. Qed.

Lemma line_cleanKeyword (keyword : string) :
  plainLine keyword = true -> plainLine (cleanKeyword keyword) = true.
Proof.
  unfold plainLine, cleanKeyword. intros H. apply negb_true_iff in H.
  now rewrite anyChar_removeFirst.
Qed.

Lemma plain_description (keyword : string) (e : Emoji.t) :
  plainText keyword = true -> plainEmoji e = true ->
  plainLine (descriptionOr (Emoji.description e)
               ("A popular emoji for expressing " ++ cleanKeyword keyword)) = true.
Proof.
  intros Hk He. unfold plainEmoji in He.
  apply andb_prop in He. destruct He as [_ Hd].
  assert (Hfallback :
            plainLine ("A popular emoji for expressing " ++ cleanKeyword keyword) = true).
  { rewrite line_app, (line_cleanKeyword _ (plain_line _ Hk)). reflexivity. }
  destruct (Emoji.description e) as [[|c d]|]; cbn [descriptionOr];
    [assumption | now apply plain_line | assumption].
Qed.

(** A Popular bullet of the generated document renders as a list item
    with the name in bold. *)
Lemma renderLine_popular (keyword : string) (e : Emoji.t) :
  plainText keyword = true -> plainEmoji e = true ->
  renderLine ("- " ++ Emoji.emoji e ++ " **" ++ Emoji.name e ++ "** - " ++
              descriptionOr (Emoji.description e)
                ("A popular emoji for expressing " ++ cleanKeyword keyword)) =
  ListItem (popularHtml keyword e).
Proof.
  intros Hk He. pose proof (plain_description keyword e Hk He) as Hd.
  unfold plainEmoji in He. apply andb_prop in He. destruct He as [He _].
  apply andb_prop in He. destruct He as [Hg Hn].
  rewrite renderLine_item. unfold strongReplace, popularHtml. f_equal.
  rewrite (strongFrom_prefix _ _ _ _ (plain_no_star _ Hg)). f_equal.
  change (" **" ++ Emoji.name e ++ "** - " ++ ?d)
    with (String " " ("**" ++ Emoji.name e ++ "**" ++ " - " ++ d)).
  cbn [strongFrom]. rewrite no_match_without_star by reflexivity.
  rewrite (strongFrom_bold _ _ _ _ (plain_no_star _ Hn) (plain_no_terminator _ Hn)).
  rewrite strongFrom_plain.
  - reflexivity.
  - apply line_no_star. now rewrite line_app, Hd.
Qed.

Lemma popular_item_single_line (keyword : string) (e : Emoji.t) :
  plainText keyword = true -> plainEmoji e = true ->
  anyChar (fun c => Ascii.eqb c newline)
    ("- " ++ Emoji.emoji e ++ " **" ++ Emoji.name e ++ "** - " ++
     descriptionOr (Emoji.description e)
       ("A popular emoji for expressing " ++ cleanKeyword keyword)) = false.
Proof.
  intros Hk He. pose proof (plain_description keyword e Hk He) as Hd.
  unfold plainEmoji in He. apply andb_prop in He. destruct He as [He _].
  apply andb_prop in He. destruct He as [Hg Hn].
  rewrite !anyChar_app, (plain_no_newline _ Hg), (plain_no_newline _ Hn),
    (line_no_newline _ Hd).
  reflexivity.
Qed.

End RenderFacts.

Example renderContent_empty_popular_list :
  renderContent (popularList "heart emoji" []) = [LineBreak].
Proof. reflexivity. Qed.

Example renderLine_blank :
  renderLine ("  " ++ bytes [9; 194; 160; 226; 128; 168]%N) = LineBreak /\
  renderLine EmptyString = LineBreak /\
  renderLine (" " ++ bytes [194; 161]%N) = Paragraph (" " ++ bytes [194; 161]%N).
Proof. repeat split; reflexivity. Qed.

Example strongReplace_line_separator :
  plainText ("a" ++ bytes [226; 128; 168]%N ++ "b") = false /\
  strongReplace "<b>" "</b>" ("**a" ++ bytes [226; 128; 168]%N ++ "b**") =
    "**a" ++ bytes [226; 128; 168]%N ++ "b**" /\
  strongReplace "<b>" "</b>" ("**a" ++ bytes [226; 157; 164]%N ++ "b**") =
    "<b>a" ++ bytes [226; 157; 164]%N ++ "b</b>".
Proof. repeat split; reflexivity. Qed.

Example strongReplace_sample :
  strongReplace "<b>" "</b>" "a **b** c ***d** **e f** **g" =
  "a <b>b</b> c <b>*d</b> <b>e f</b> **g".
Proof. reflexivity. Qed.

(** X17. The page shows the stored title as its first heading: for a
    keyword without a newline, the first element the SEO page renders
    from the generated markdown (either revision) is a level-1 heading
    whose text is the title the generate route stores with a new page. *)
Theorem renderContent_heading_is_title :
  forall (keyword : string) (related : list Emoji.t),
    anyChar (fun c => Ascii.eqb c newline) keyword = false ->
    exists rest rest' : list Element,
      renderContent (generateSeoContent keyword related) =
        Heading1 (InsertSeoPage.title (newPage generateSeoContent keyword related)) :: rest /\
      renderContent (generateSeoContent_part_000 keyword related) =
        Heading1 (InsertSeoPage.title (newPage generateSeoContent_part_000 keyword related))
          :: rest'.
Proof.
  intros keyword related Hk.
  assert (Hline : anyChar (fun c => Ascii.eqb c newline)
                    ("# " ++ titleCase keyword ++ " - Copy & Paste") = false).
  { rewrite !RenderFacts.anyChar_app, KeywordFacts.titleCase_capitalizeFrom,
      RenderFacts.capitalizeFrom_newline, Hk.
    reflexivity. }
  unfold renderContent, generateSeoContent, generateSeoContent_part_000.
  rewrite !KeywordFacts.join_two.
  change (nl ++ ?x) with (String newline x).
  rewrite !(RenderFacts.splitOn_first _ _ Hline).
  cbn [map newPage InsertSeoPage.title].
  rewrite !RenderFacts.renderLine_heading.
  eexists. eexists. split; reflexivity.
Qed.

Lemma renderContent_heading_is_title_witness :
  exists rest rest' : list Element,
    renderContent (generateSeoContent "fire emoji" [fire]) =
      Heading1 "Fire Emoji - Copy & Paste" :: rest /\
    renderContent (generateSeoContent_part_000 "fire emoji" [fire]) =
      Heading1 "Fire Emoji - Copy & Paste" :: rest'.
Proof.
  apply (renderContent_heading_is_title "fire emoji" [fire]). reflexivity.
Defined.

(** X18. The Popular list of the generated markdown renders as one list
    item per listed emoji, with the name in bold: when the keyword and
    the glyphs, names and descriptions of the (non-empty) related list
    have no star and no line terminator (U+000A, U+000D, U+2028 or
    U+2029), the SEO page turns the Popular list into the list items of
    the first 10 emojis, each "glyph <strong>name</strong> -
    description". *)
Theorem renderContent_popular_list :
  forall (keyword : string) (related : list Emoji.t),
    plainText keyword = true ->
    forallb plainEmoji related = true ->
    related <> [] ->
    renderContent (popularList keyword related) =
    map (fun e => ListItem (popularHtml keyword e)) (firstn 10 related).
Proof.
  intros keyword related Hk Hplain Hne.
  assert (Hfirst : forall e, In e (firstn 10 related) -> plainEmoji e = true).
  { intros e He. apply BatchFacts.In_firstn in He.
    rewrite forallb_forall in Hplain. now apply Hplain. }
  unfold renderContent, popularList, popularItems, slice0.
  rewrite RenderFacts.splitOn_join.
  - rewrite map_map. apply map_ext_in. intros e He.
    apply RenderFacts.renderLine_popular; [exact Hk | now apply Hfirst].
  - destruct related; [congruence | discriminate].
  - apply Forall_forall. intros item Hitem.
    apply in_map_iff in Hitem. destruct Hitem as [e [<- He]].
    apply RenderFacts.popular_item_single_line; [exact Hk | now apply Hfirst].
Qed.

Lemma renderContent_popular_list_witness :
  renderContent (popularList "heart emoji" [heart; fire]) =
  [ ListItem "<3 <strong>Red Heart</strong> - A classic love heart";
    ListItem "^^ <strong>Fire</strong> - A popular emoji for expressing heart" ].
Proof.
  apply (renderContent_popular_list "heart emoji" [heart; fire]).
  - reflexivity.
  - reflexivity.
  - discriminate.
Defined.

(** X19. The renderer does not escape markup: the text of a list line
    that has no star is handed to the page as HTML exactly as it is. *)
Theorem renderLine_item_verbatim :
  forall html : string,
    anyChar (fun c => Ascii.eqb c star) html = false ->
    renderLine ("- " ++ html) = ListItem html.
Proof.
  intros html Hstar. rewrite RenderFacts.renderLine_item. unfold strongReplace.
  now rewrite RenderFacts.strongFrom_plain.
Qed.

Lemma renderLine_item_verbatim_witness :
  renderLine ("- " ++ "<img src=x onerror=alert(1)>") = ListItem "<img src=x onerror=alert(1)>".
Proof. apply (renderLine_item_verbatim "<img src=x onerror=alert(1)>"). reflexivity. Defined.

(** ** The generate route on the in-memory store *)

Module GenerateOnMemory.

Lemma find_none_existsb {A : Type} (f : A -> bool) (l : list A) :
  find f l = None -> existsb f l = false.
Proof.
  induction l as [|a l IH]; [reflexivity|]. cbn [find existsb].
  destruct (f a); [discriminate | exact IH].
Qed.

Lemma find_app_last {A : Type} (f : A -> bool) (l : list A) (x : A) :
  find f l = None -> f x = true -> find f (l ++ [x]) = Some x.
Proof.
  induction l as [|a l IH]; cbn [find app]; intros Hnone Hx.
  - now rewrite Hx.
  - destruct (f a); [discriminate | now apply IH].
Qed.

Lemma find_in {A : Type} (f : A -> bool) (l : list A) (x : A) :
  find f l = Some x -> In x l.
Proof. intros H. now apply find_some in H. Qed.

(** With unique ids, the row found by id is the row one has. *)
Lemma find_by_id (ps : list SeoPage.t) (p : SeoPage.t) :
  NoDup (map SeoPage.id ps) -> In p ps ->
  find (MemStorage.hasPageId (SeoPage.id p)) ps = Some p.
Proof.
  induction ps as [|a ps IH]; intros Hnd Hin; [contradiction|].
  cbn [map] in Hnd. apply NoDup_cons_iff in Hnd. destruct Hnd as [Ha Hnd].
  cbn [find]. unfold MemStorage.hasPageId at 1.
  destruct (Z.eqb_spec (SeoPage.id a) (SeoPage.id p)) as [E|E].
  - destruct Hin as [->|Hin]; [reflexivity|].
    exfalso. apply Ha. rewrite E. now apply in_map.
  - destruct Hin as [->|Hin]; [congruence | now apply IH].
Qed.

(** The slug lookup after an update of the row it finds returns the
    updated row. *)
Lemma find_slug_updated (slug : string) (u : PageUpdate.t) (ps : list SeoPage.t)
    (p : SeoPage.t) :
  find (MemStorage.hasSlug slug) ps = Some p ->
  find (MemStorage.hasSlug slug) (MemStorage.pagesAfterUpdate (SeoPage.id p) u ps) =
  Some (MemStorage.applyUpdate u p).
Proof.
  induction ps as [|a ps IH]; [discriminate|].
  cbn [find MemStorage.pagesAfterUpdate map].
  destruct (MemStorage.hasSlug slug a) eqn:Ha.
  - intros H. injection H as ->.
    unfold MemStorage.hasPageId. rewrite Z.eqb_refl.
    change (MemStorage.hasSlug slug (MemStorage.applyUpdate u p))
      with (MemStorage.hasSlug slug p).
    now rewrite Ha.
  - intros H.
    assert (Hkept : MemStorage.hasSlug slug
                      (if MemStorage.hasPageId (SeoPage.id p) a
                       then MemStorage.applyUpdate u a else a) = false).
    { destruct (MemStorage.hasPageId (SeoPage.id p) a); exact Ha. }
    rewrite Hkept. now apply IH.
Qed.

End GenerateOnMemory.

(** X20. Generating a page makes it retrievable and generated, and a
    second call changes nothing.  On the in-memory store with unique
    page ids, for a non-empty keyword, the generate route answers 200 or
    201 with a page that is marked generated and that the slug lookup
    of the keyword then returns; calling the route again with the same
    keyword answers 200 with that same page, looks the slug up and
    leaves the store as it is. *)
Theorem postGenerate_then_lookup :
  forall (render : string -> list Emoji.t -> string) (keyword : string)
         (s : MemStorage.Store) (cs cs2 : list Call),
    keyword <> EmptyString ->
    NoDup (map SeoPage.id (MemStorage.pages s)) ->
    exists (code : Z) (page : SeoPage.t) (w' : World MemStorage.Store),
      postGenerate MemStorage.storage render (Some keyword) (mkWorld s cs) =
        (inr (mkResponse code (PageJson (Some page))), w') /\
      (code = 200%Z \/ code = 201%Z) /\
      SeoPage.isGenerated page = true /\
      SeoPage.slug page = slugify keyword /\
      MemStorage.getPageBySlug (slugify keyword) (store w') = inr (Some page) /\
      postGenerate MemStorage.storage render (Some keyword) (mkWorld (store w') cs2) =
        (inr (mkResponse 200 (PageJson (Some page))),
         mkWorld (store w') (cs2 ++ [CallGetPageBySlug (slugify keyword)])).
Proof.
  intros render keyword [es ps ne np] cs cs2 Hk Hnd.
  cbn [MemStorage.pages] in Hnd.
  destruct keyword as [|c r]; [congruence|]. clear Hk.
  set (keyword := String c r).
  assert (Hagain :
            forall (s' : MemStorage.Store) (page : SeoPage.t),
              MemStorage.getPageBySlug (slugify keyword) s' = inr (Some page) ->
              SeoPage.isGenerated page = true ->
              postGenerate MemStorage.storage render (Some keyword) (mkWorld s' cs2) =
                (inr (mkResponse 200 (PageJson (Some page))),
                 mkWorld s' (cs2 ++ [CallGetPageBySlug (slugify keyword)]))).
  { intros s' page Hlookup Hgen.
    unfold postGenerate, keyword, tryCatch, bind, query, json, ret, logCall.
    cbn [store calls getPageBySlug MemStorage.storage]. fold keyword.
    rewrite Hlookup. cbn [alreadyGenerated]. now rewrite Hgen. }
  destruct (find (MemStorage.hasSlug (slugify keyword)) ps) as [p|] eqn:Hfind.
  - destruct (SeoPage.isGenerated p) eqn:Hgen.
    + exists 200%Z, p. eexists.
      split.
      { unfold postGenerate, keyword, tryCatch, bind, query, json, ret, logCall.
        cbn [store calls getPageBySlug MemStorage.storage MemStorage.getPageBySlug
             MemStorage.pages].
        fold keyword. rewrite Hfind. cbn [alreadyGenerated]. rewrite Hgen. reflexivity. }
      cbn [store].
      split; [now left|]. split; [exact Hgen|].
      split.
      { apply find_some in Hfind. destruct Hfind as [_ Hslug].
        now apply String.eqb_eq in Hslug. }
      assert (Hlookup : MemStorage.getPageBySlug (slugify keyword)
                          (MemStorage.mkStore es ps ne np) = inr (Some p)).
      { unfold MemStorage.getPageBySlug. cbn [MemStorage.pages]. now rewrite Hfind. }
      split; [exact Hlookup | now apply Hagain].
    + set (fields := generatedFields render keyword
                       (MemStorage.matching (Some (cleanKeyword keyword)) None es)).
      exists 200%Z, (MemStorage.applyUpdate fields p). eexists.
      split.
      { unfold postGenerate, keyword, tryCatch, bind, query, mutate, json, ret, logCall.
        cbn [store calls getPageBySlug getEmojis updatePage MemStorage.storage
             MemStorage.getPageBySlug MemStorage.getEmojis MemStorage.updatePage
             MemStorage.pages MemStorage.emojis MemStorage.nextEmojiId
             MemStorage.nextPageId].
        fold keyword. rewrite Hfind. cbn [alreadyGenerated]. rewrite Hgen.
        cbn [store calls MemStorage.pages MemStorage.emojis MemStorage.nextEmojiId
             MemStorage.nextPageId].
        fold fields.
        rewrite (GenerateOnMemory.find_by_id ps p Hnd (GenerateOnMemory.find_in _ _ _ Hfind)).
        reflexivity. }
      cbn [store].
      assert (Hlookup :
                MemStorage.getPageBySlug (slugify keyword)
                  (MemStorage.mkStore es
                     (MemStorage.pagesAfterUpdate (SeoPage.id p) fields ps) ne np) =
                inr (Some (MemStorage.applyUpdate fields p))).
      { unfold MemStorage.getPageBySlug. cbn [MemStorage.pages].
        now rewrite (GenerateOnMemory.find_slug_updated _ fields ps p Hfind). }
      split; [now left|]. split; [reflexivity|].
      split.
      { apply find_some in Hfind. destruct Hfind as [_ Hslug].
        now apply String.eqb_eq in Hslug. }
      split; [exact Hlookup | now apply Hagain].
  - set (page := MemStorage.newRow np
                   (newPage render keyword
                      (MemStorage.matching (Some (cleanKeyword keyword)) None es))).
    exists 201%Z, page. eexists.
    split.
    { unfold postGenerate, keyword, tryCatch, bind, query, mutate, json, ret, logCall.
      cbn [store calls getPageBySlug getEmojis createPage MemStorage.storage
           MemStorage.getPageBySlug MemStorage.getEmojis MemStorage.pages
           MemStorage.emojis].
      fold keyword. rewrite Hfind. cbn [alreadyGenerated store calls].
      unfold MemStorage.createPage, MemStorage.slugTaken.
      cbn [InsertSeoPage.slug newPage MemStorage.pages MemStorage.emojis
           MemStorage.nextEmojiId MemStorage.nextPageId].
      rewrite (GenerateOnMemory.find_none_existsb _ _ Hfind).
      reflexivity. }
    cbn [store].
    assert (Hlookup :
              MemStorage.getPageBySlug (slugify keyword)
                (MemStorage.mkStore es (ps ++ [page]) ne (np + 1)) = inr (Some page)).
    { unfold MemStorage.getPageBySlug. cbn [MemStorage.pages].
      rewrite (GenerateOnMemory.find_app_last _ ps page Hfind); [reflexivity|].
      unfold MemStorage.hasSlug, page. cbn [MemStorage.newRow newPage SeoPage.slug
                                            InsertSeoPage.slug].
      apply String.eqb_refl. }
    split; [now right|]. split; [reflexivity|]. split; [reflexivity|].
    split; [exact Hlookup | now apply Hagain].
Qed.

Lemma postGenerate_then_lookup_witness :
  exists (code : Z) (page : SeoPage.t) (w' : World MemStorage.Store),
    postGenerate MemStorage.storage generateSeoContent (Some "star emoji")
                 (mkWorld sampleStore []) =
      (inr (mkResponse code (PageJson (Some page))), w') /\
    (code = 200%Z \/ code = 201%Z) /\
    SeoPage.isGenerated page = true /\
    SeoPage.slug page = slugify "star emoji" /\
    MemStorage.getPageBySlug (slugify "star emoji") (store w') = inr (Some page) /\
    postGenerate MemStorage.storage generateSeoContent (Some "star emoji")
                 (mkWorld (store w') []) =
      (inr (mkResponse 200 (PageJson (Some page))),
       mkWorld (store w') ([] ++ [CallGetPageBySlug (slugify "star emoji")])).
Proof.
  apply (postGenerate_then_lookup generateSeoContent "star emoji" sampleStore [] []).
  - discriminate.
  - simpl. repeat constructor; simpl; intuition discriminate.
Defined.
